(** * Wikicorpus corpus reader: the streaming block parser

    A shallow embedding of [nltk/corpus/reader/wikicorpus.py]: the line
    source [read_clean_line], the regular expressions of the token
    grammar, and [WikicorpusCorpusView.read_block] with its two nested
    loops, then [Document] and the views of [WikicorpusCorpusReader],
    followed by the properties of the parser and of the views. *)

From Stdlib Require Import String Ascii.
From Stdlib Require Import List NArith ZArith Bool Arith Lia.
Import ListNotations.

(** ** Text

    The reader works on decoded text, as Python 3 has it.  A character
    is its Unicode code point and a [str] is the list of its
    characters. *)

Definition char : Type := N.
Definition str : Type := list char.

(** The code points of an ASCII literal. *)
Fixpoint text (s : string) : str :=
  match s with
  | EmptyString => []
  | String a s' => N_of_ascii a :: text s'
  end.

(** [chr(n)], the character of a one-character text. *)
Definition chr (n : N) : char := n.

(** [a == b] on text. *)
Fixpoint eqb (a b : str) : bool :=
  match a, b with
  | [], [] => true
  | x :: a', y :: b' => N.eqb x y && eqb a' b'
  | _, _ => false
  end.

Declare Scope py_scope.
Delimit Scope py_scope with py.
Infix "==" := eqb (at level 70, no associativity) : py_scope.
Notation "a != b" := (negb (eqb a b)) (at level 70, no associativity) : py_scope.
Open Scope py_scope.

(** *** Character classes

    [str.isspace] and the [\s] of [re] under [re.UNICODE] both test
    membership in the Unicode whitespace set of the interpreter. *)
Definition isspace (c : char) : bool :=
  (((9 <=? c) && (c <=? 13)) || ((28 <=? c) && (c <=? 32))
   || (c =? 133) || (c =? 160) || (c =? 5760)
   || ((8192 <=? c) && (c <=? 8202))
   || (c =? 8232) || (c =? 8233) || (c =? 8239) || (c =? 8287)
   || (c =? 12288))%N.

(** The zero of every run of ten decimal digits (category Nd, Unicode 14). *)
Definition decimal_zeros : list N :=
  [48; 1632; 1776; 1984; 2406; 2534; 2662; 2790; 2918; 3046; 3174; 3302;
   3430; 3558; 3664; 3792; 3872; 4160; 4240; 6112; 6160; 6470; 6608; 6784;
   6800; 6992; 7088; 7232; 7248; 42528; 43216; 43264; 43472; 43504; 43600;
   44016; 65296; 66720; 68912; 69734; 69872; 69942; 70096; 70384; 70736;
   70864; 71248; 71360; 71472; 71904; 72016; 72784; 73040; 73120; 92768;
   92864; 93008; 120782; 120792; 120802; 120812; 120822; 123200; 123632;
   125264; 130032]%N.

(** [\d] under [re.UNICODE]: any Unicode decimal digit. *)
Definition isdecimal (c : char) : bool :=
  existsb (fun z => (z <=? c) && (c <? z + 10))%N decimal_zeros.

(** [\S]. *)
Definition nonspace (c : char) : bool := negb (isspace c).

(** [.] without [re.DOTALL]: anything but a newline. *)
Definition dot (c : char) : bool := negb (c =? 10)%N.

(** *** [str.strip] and [str.replace] *)

Fixpoint lstrip (s : str) : str :=
  match s with
  | [] => []
  | c :: s' => if isspace c then lstrip s' else s
  end.

Definition rstrip (s : str) : str := rev (lstrip (rev s)).

Definition strip (s : str) : str := rstrip (lstrip s).

(** [s.replace(old, new)] for a one-character [old]. *)
Definition replace (s : str) (old : char) (new : str) : str :=
  flat_map (fun c => if (c =? old)%N then new else [c]) s.

(** ** Regular expressions

    The fragment of [re] the reader uses: literal text, a greedy [+] or
    [*] over a character class, concatenation and capturing groups.
    [re.match] is the backtracking matcher: it anchors the pattern at the
    start of the text only, each quantifier takes as much as it can and
    gives characters back while the rest of the pattern fails. *)

Inductive regex : Type :=
| Lit (l : str)
| Plus (cls : char -> bool)
| Star (cls : char -> bool)
| Seq (r1 r2 : regex)
| Group (r : regex).

Declare Scope regex_scope.
Delimit Scope regex_scope with re.
Infix "--" := Seq (at level 61, right associativity) : regex_scope.

Fixpoint strip_prefix (l s : str) : option str :=
  match l, s with
  | [], _ => Some s
  | x :: l', y :: s' => if (x =? y)%N then strip_prefix l' s' else None
  | _ :: _, [] => None
  end.

Section Backtracking.
Variable R : Type.

(** Greedy repetition: the longest run first, then shorter ones. *)
Fixpoint star_k (cls : char -> bool) (s : str) (k : str -> option R) : option R :=
  match s with
  | [] => k []
  | c :: s' =>
      if cls c then
        match star_k cls s' k with
        | Some r => Some r
        | None => k s
        end
      else k s
  end.

Definition plus_k (cls : char -> bool) (s : str) (k : str -> option R) : option R :=
  match s with
  | [] => None
  | c :: s' => if cls c then star_k cls s' k else None
  end.

(** What of [s] was consumed when [s'] is left. *)
Definition consumed (s s' : str) : str := firstn (length s - length s') s.

Fixpoint run (r : regex) (s : str) (groups : list str)
    (k : str -> list str -> option R) : option R :=
  match r with
  | Lit l =>
      match strip_prefix l s with
      | Some s' => k s' groups
      | None => None
      end
  | Plus cls => plus_k cls s (fun s' => k s' groups)
  | Star cls => star_k cls s (fun s' => k s' groups)
  | Seq r1 r2 => run r1 s groups (fun s' groups' => run r2 s' groups' k)
  | Group r' => run r' s groups (fun s' groups' => k s' (groups' ++ [consumed s s']))
  end.
End Backtracking.

Arguments star_k {R} cls s k.
Arguments plus_k {R} cls s k.
Arguments run {R} r s groups k.

(** [pattern.match(line)], then [.groups()] of the match object. *)
Definition re_match (r : regex) (line : str) : option (list str) :=
  run r line [] (fun _ groups => Some groups).

(** ** The patterns and literals of the module *)

Definition dquote : str := [34%N].

Definition PATTERN_DOC_START : regex :=
  (Lit (text "<doc id=" ++ dquote) -- Group (Plus isdecimal) --
   Lit (dquote ++ text " title=" ++ dquote) -- Group (Star dot) --
   Lit (dquote ++ text " nonfiltered=" ++ dquote) -- Plus isdecimal --
   Lit (dquote ++ text " processed=" ++ dquote) -- Plus isdecimal --
   Lit (dquote ++ text " dbindex=" ++ dquote) -- Group (Plus isdecimal) --
   Lit (dquote ++ text ">"))%re.

Definition PATTERN_WORD : regex :=
  (Group (Plus nonspace) -- Plus isspace --
   Group (Plus nonspace) -- Plus isspace --
   Group (Plus nonspace) -- Plus isspace --
   Group (Plus isdecimal))%re.

Definition PATTERN_WORD_DOUBLE : regex :=
  (Group (Plus nonspace -- Plus isspace -- Plus nonspace) -- Plus isspace --
   Group (Plus nonspace -- Plus isspace -- Plus nonspace) -- Plus isspace --
   Group (Plus nonspace) -- Plus isspace --
   Group (Plus isdecimal))%re.

Definition PATTERN_WORD_TRIPLE : regex :=
  (Group (Plus nonspace -- Plus isspace -- Plus nonspace -- Plus isspace -- Plus nonspace) --
   Plus isspace --
   Group (Plus nonspace -- Plus isspace -- Plus nonspace -- Plus isspace -- Plus nonspace) --
   Plus isspace --
   Group (Plus nonspace) -- Plus isspace --
   Group (Plus isdecimal))%re.

Definition FAILING_LINE_WORD : str := text "30_de_gener_de_1994".
(** [despr], U+221A, U+00A9, [s]: a word whose accent was decoded wrongly. *)
Definition FAILING_LINE_EXTRA_WORD : str := text "despr" ++ [8730; 169]%N ++ text "s".
Definition FAILING_LINE_LEMMA : str := text "[??:30/1/-99999:??.??:??]".
Definition FAILING_LINE_TAG : str := text "W".
Definition FAILING_LINE_SENSE : str := text "0".
Definition FAILING_LINE : str :=
  FAILING_LINE_WORD ++ text " " ++ FAILING_LINE_EXTRA_WORD ++ text " "
  ++ FAILING_LINE_LEMMA ++ text " " ++ FAILING_LINE_TAG ++ text " "
  ++ FAILING_LINE_SENSE.

Definition FAILING_LINE_2 : str := text "20 000_tones WG_tm:20 Zu 0".

Definition FAILING_LINE_3 : str := text "f".

Definition LINE_END_OF_ARTICLE : str := text "ENDOFARTICLE endofarticle NP00000 0".
Definition LINE_DOC_TAG_CLOSE : str := text "</doc>".

(** ** Documents

    A field of a token tuple is text, the integer of the [Fz 0] branch
    or [None]. *)

Inductive value : Type :=
| VStr (s : str)
| VInt (n : Z)
| VNone.

(** [(word, lemma, tag, sense)]. *)
Definition token : Type := (value * value * value * value)%type.

Record Document : Type := mkDocument {
  _id : str;
  title : str;
  db_index : str;
  sents : list (list token)
}.

(** ** The stream and the effects of the reader

    A stream is the lines of text still to be read.  [readline] hands out
    the next one with its line end, and the empty string once none is
    left; the stream then stays at its end.  The line end is taken to be
    a newline: whatever ends a line is whitespace, which the reader
    strips before it looks at the line. *)

Definition stream : Type := list str.

Definition readline (s : stream) : str * stream :=
  match s with
  | [] => ([], [])
  | l :: s' => (l ++ [10%N], s')
  end.

Inductive exn : Type :=
| TypeError
| AttributeError
| ValueError (msg : str)
| AssertionError (msg : str).

(** A computation on the stream returns, raises, or is still in a loop
    when the steps granted to it are used up. *)
Inductive result (A : Type) : Type :=
| Returns (a : A) (s : stream)
| Raises (e : exn)
| OutOfFuel.

Arguments Returns {A} a s.
Arguments Raises {A} e.
Arguments OutOfFuel {A}.

Definition M (A : Type) : Type := stream -> result A.

Definition ret {A : Type} (a : A) : M A := fun s => Returns a s.

Definition bind {A B : Type} (m : M A) (k : A -> M B) : M B :=
  fun s =>
    match m s with
    | Returns a s' => k a s'
    | Raises e => Raises e
    | OutOfFuel => OutOfFuel
    end.

Definition raise {A : Type} (e : exn) : M A := fun _ => Raises e.

Definition out_of_fuel {A : Type} : M A := fun _ => OutOfFuel.

(** [assert cond, msg]. *)
Definition assert (cond : bool) (msg : string) : M unit :=
  if cond then ret tt else raise (AssertionError (text msg)).

Notation "x <- m ;; k" := (bind m (fun x => k))
  (at level 100, m at next level, right associativity) : py_scope.
Notation "' p <- m ;; k" := (bind m (fun x => let p := x in k))
  (at level 100, p pattern, m at next level, right associativity) : py_scope.
Notation "m ;; k" := (bind m (fun _ => k))
  (at level 100, right associativity) : py_scope.

(** [line == lit] for a [line] that may be [None]. *)
Definition equals (line : option str) (lit : str) : bool :=
  match line with
  | Some l => l == lit
  | None => false
  end.

Definition is_None {A : Type} (x : option A) : bool :=
  match x with
  | Some _ => false
  | None => true
  end.

(** ** The line source *)

Definition read_clean_line : M (option str) :=
  fun stream =>
    let (line, stream) := readline stream in
    if line == text "" then Returns None stream
    else Returns (Some (replace (strip line) (chr 160) (text " "))) stream.

(** ** The block parser *)

(** How the body of a loop is left: on to the next statement, or
    [break]. *)
Inductive flow (A : Type) : Type :=
| Next (a : A)
| Break.

Arguments Next {A} a.
Arguments Break {A}.

(** The three token grammars, tried in order. *)
Definition match_word (line : str) : option (list str) :=
  match re_match PATTERN_WORD line with
  | Some groups => Some groups
  | None =>
      match re_match PATTERN_WORD_DOUBLE line with
      | Some groups => Some groups
      | None => re_match PATTERN_WORD_TRIPLE line
      end
  end.

(** The part of the inner loop's body that decodes [line] into
    [(word, lemma, tag, sense)].  The look-ahead read of the truncation
    branch is the only access to the stream.  [match.groups()] on [None]
    would be an [AttributeError] and a tuple of another length a
    [ValueError] of the unpacking; the guard in front keeps [None] away
    and the patterns have four groups each. *)
Definition decode (line : str) : M (flow token) :=
  if line == text "Fz 0" then
    ret (Next (VStr (text ""), VStr (text ""), VStr (text "Fz"), VInt 0%Z))
  else
    let match_ := match_word line in
    looked <-
      (if is_None match_
          && (line != FAILING_LINE) && (line != FAILING_LINE_2)
          && (line != FAILING_LINE_3)
       then
         next_line <- read_clean_line ;;
         if is_None next_line then ret Break
         else raise (ValueError
                (text "Could not parse the following non-ending line: " ++ line))
       else ret (Next tt)) ;;
    match looked with
    | Break => ret Break
    | Next _ =>
        if line == FAILING_LINE then
          ret (Next (VStr FAILING_LINE_WORD, VStr FAILING_LINE_LEMMA,
                     VStr FAILING_LINE_TAG, VStr FAILING_LINE_SENSE))
        else if line == FAILING_LINE_2 then
          ret (Next (VStr (text "20000_tones"), VStr (text "WG_tm:20000"),
                     VStr (text "Zu"), VStr (text "0")))
        else if line == FAILING_LINE_3 then
          ret Break
        else
          match match_ with
          | Some [word; lemma; tag; sense] =>
              ret (Next (VStr word, VStr lemma, VStr tag, VStr sense))
          | Some _ => raise (ValueError (text "need 4 values to unpack"))
          | None => raise AttributeError
          end
    end.

(** The condition of the inner [while]. *)
Definition in_sentence (line : option str) : bool :=
  negb (is_None line) && negb (equals line (text ""))
  && negb (equals line LINE_END_OF_ARTICLE) && negb (equals line LINE_DOC_TAG_CLOSE).

(** The condition of the outer [while]. *)
Definition in_body (line : option str) : bool :=
  negb (is_None line)
  && negb (equals line LINE_END_OF_ARTICLE) && negb (equals line LINE_DOC_TAG_CLOSE).

(** The inner [while]: the tokens of one sentence.  It hands back the
    [line] and the [sent] it stopped with. *)
Fixpoint sentence_loop (fuel : nat) (line : option str) (sent : list token)
    : M (option str * list token) :=
  match fuel with
  | O => out_of_fuel
  | S fuel' =>
      match line with
      | Some l =>
          if in_sentence line then
            decoded <- decode l ;;
            match decoded with
            | Break => ret (line, sent)
            | Next tok =>
                let sent := sent ++ [tok] in
                let sent :=
                  if l == FAILING_LINE
                  then sent ++ [(VStr FAILING_LINE_EXTRA_WORD, VNone, VNone, VNone)]
                  else sent in
                line <- read_clean_line ;;
                sentence_loop fuel' line sent
            end
          else ret (line, sent)
      | None => ret (line, sent)
      end
  end.

(** The outer [while]: the sentences of the document.  It hands back the
    [line] it stopped with and [doc.sents]. *)
Fixpoint document_loop (fuel : nat) (line : option str) (doc_sents : list (list token))
    : M (option str * list (list token)) :=
  match fuel with
  | O => out_of_fuel
  | S fuel' =>
      if in_body line then
        ' (line, sent) <- sentence_loop fuel' line [] ;;
        if equals line FAILING_LINE_3 then ret (line, doc_sents)
        else
          let doc_sents := doc_sents ++ [sent] in
          if equals line (text "") then
            line <- read_clean_line ;;
            document_loop fuel' line doc_sents
          else if is_None line then ret (line, doc_sents)
          else document_loop fuel' line doc_sents
      else ret (line, doc_sents)
  end.

(** [WikicorpusCorpusView.read_block]; [fuel] bounds the iterations of
    its loops.  [PATTERN_DOC_START.match(line)] with [line] being [None]
    is a [TypeError]. *)
Definition read_block (fuel : nat) : M (list Document) :=
  line <- read_clean_line ;;
  match line with
  | None => raise TypeError
  | Some l =>
      match re_match PATTERN_DOC_START l with
      | None =>
          if l == text "" then
            line <- read_clean_line ;;
            assert (equals line LINE_DOC_TAG_CLOSE) "Expected a closing body tag" ;;
            ret []
          else raise (ValueError (text "Expected an opening document tag"))
      | Some [_id; title; db_index] =>
          line <- read_clean_line ;;
          ' (line, doc_sents) <- document_loop fuel line [] ;;
          (if equals line LINE_END_OF_ARTICLE then
             line <- read_clean_line ;;
             assert (equals line (text ". . Fp 0")) "Expected a dot after the end of article" ;;
             line <- read_clean_line ;;
             assert (equals line (text "")) "Expected a blank line" ;;
             line <- read_clean_line ;;
             assert (equals line LINE_DOC_TAG_CLOSE) "Expected a closing body tag"
           else ret tt) ;;
          ret [mkDocument _id title db_index doc_sents]
      | Some _ => raise (ValueError (text "need 3 values to unpack"))
      end
  end.

(** * Notions the properties are stated with *)

(** ** Lines as the parser sees them *)

(** The [Line] that [read_clean_line] makes of the stream line [x]. *)
Definition normalized (x : str) : str :=
  replace (strip (x ++ [10%N])) (chr 160) (text " ").

(** The line [read_clean_line] would return next. *)
Definition peek (s : stream) : option str :=
  match s with
  | [] => None
  | x :: _ => Some (normalized x)
  end.

(** The lines the loops have in front of them: the one in [line] and
    those still in the stream. *)
Definition ahead (line : option str) (s : stream) : list str :=
  match line with
  | Some l => l :: map normalized s
  | None => []
  end.

(** A line that is none of [Fz 0], a match of a token grammar, an entry
    of the corruption table or the skip literal: the guard in front of
    the look-ahead read. *)
Definition unparsable (l : str) : bool :=
  (l != text "Fz 0") && is_None (match_word l)
  && (l != FAILING_LINE) && (l != FAILING_LINE_2) && (l != FAILING_LINE_3).

(** ** Token lines and sentence blocks *)

(** The tokens the inner loop appends for the single line [l]: the loop
    is run on [l] alone, with nothing left in the stream, and has to use
    the line up. *)
Definition tokens_of (l : str) : option (list token) :=
  match sentence_loop 2 (Some l) [] [] with
  | Returns (None, sent) _ => Some sent
  | _ => None
  end.

(** The tokens of a run of token lines. *)
Fixpoint sentence_of (ls : list str) : option (list token) :=
  match ls with
  | [] => Some []
  | l :: ls' =>
      match tokens_of l, sentence_of ls' with
      | Some toks, Some sent => Some (toks ++ sent)
      | _, _ => None
      end
  end.

(** The sentences of a list of sentence blocks. *)
Fixpoint sentences_of (blocks : list (list str)) : option (list (list token)) :=
  match blocks with
  | [] => Some []
  | b :: blocks' =>
      match sentence_of b, sentences_of blocks' with
      | Some sent, Some sents => Some (sent :: sents)
      | _, _ => None
      end
  end.

(** The lines of sentence blocks, each block closed by a blank line. *)
Definition body_lines (blocks : list (list str)) : list str :=
  concat (map (fun b => b ++ [text ""]) blocks).

(** The sentence of a last block that no blank line closes, if there is
    such a block. *)
Definition last_sentence (ls : list str) (toks : list token) : list (list token) :=
  match ls with
  | [] => []
  | _ :: _ => [toks]
  end.

(** The lines that close a document after its last sentence block. *)
Definition footer_lines : list str :=
  [LINE_END_OF_ARTICLE; text ". . Fp 0"; text ""; LINE_DOC_TAG_CLOSE].

(** No blank line where a sentence would begin: [at_start] tells that
    the line before was blank or was the start marker. *)
Fixpoint no_blank_start (at_start : bool) (ls : list str) : bool :=
  match ls with
  | [] => true
  | l :: ls' =>
      if l == text "" then negb at_start && no_blank_start true ls'
      else no_blank_start false ls'
  end.

(** ** The rest of each loop *)

(** What the outer loop does with the [line] and [sent] the inner loop
    hands back. *)
Definition sentence_done (fuel : nat) (doc_sents : list (list token))
    (r : option str * list token) : M (option str * list (list token)) :=
  let (line, sent) := r in
  if equals line FAILING_LINE_3 then ret (line, doc_sents)
  else
    let doc_sents := doc_sents ++ [sent] in
    if equals line (text "") then
      line <- read_clean_line ;;
      document_loop fuel line doc_sents
    else if is_None line then ret (line, doc_sents)
    else document_loop fuel line doc_sents.

(** What [read_block] does with the [line] and the sentences the outer
    loop hands back. *)
Definition document_done (_id title db_index : str)
    (r : option str * list (list token)) : M (list Document) :=
  let (line, doc_sents) := r in
  (if equals line LINE_END_OF_ARTICLE then
     line <- read_clean_line ;;
     assert (equals line (text ". . Fp 0")) "Expected a dot after the end of article" ;;
     line <- read_clean_line ;;
     assert (equals line (text "")) "Expected a blank line" ;;
     line <- read_clean_line ;;
     assert (equals line LINE_DOC_TAG_CLOSE) "Expected a closing body tag"
   else ret tt) ;;
  ret [mkDocument _id title db_index doc_sents].

(** ** Runs of a character class *)

(** [a] is a run of the class [cls]: not empty, every character in the
    class. *)
Definition run_of (cls : char -> bool) (a : str) : Prop :=
  a <> [] /\ forallb cls a = true.

(** [s] is empty or starts with a character outside [cls]. *)
Definition stops (cls : char -> bool) (s : str) : Prop :=
  match s with
  | [] => True
  | c :: _ => cls c = false
  end.

(** Text that neither starts nor ends with whitespace. *)
Definition trimmed (s : str) : Prop :=
  stops isspace s /\ stops isspace (rev s).

(** The literal that follows the title in the start pattern. *)
Definition after_title : str := dquote ++ text " nonfiltered=" ++ dquote.

(** No part of [s], from whatever position on, starts with
    [after_title]. *)
Definition no_after_title (s : str) : Prop :=
  forall p q : str, s = p ++ q -> strip_prefix after_title q = None.

(** ** The specification's own wording *)

(** The [Line] as the specification words it: the raw line without its
    trailing newline, each non-breaking space replaced by a space, and
    nothing else touched. *)
Definition without_newline (raw : str) : str :=
  match rev raw with
  | 10%N :: r => rev r
  | _ => raw
  end.

Definition Line_as_specified (raw : str) : str :=
  replace (without_newline raw) (chr 160) (text " ").

(** The whitespace-separated fields of a line. *)
Fixpoint fields_from (cur : str) (s : str) : list str :=
  match s with
  | [] => match cur with [] => [] | _ => [rev cur] end
  | c :: s' =>
      if isspace c
      then match cur with [] => fields_from [] s' | _ => rev cur :: fields_from [] s' end
      else fields_from (c :: cur) s'
  end.

Definition fields (s : str) : list str := fields_from [] s.

(** A record of the shapes of rules 2 to 4 as the specification words
    them: four, six or eight fields, the last one entirely digits. *)
Definition record_as_specified (line : str) : bool :=
  let fs := fields line in
  ((length fs =? 4) || (length fs =? 6) || (length fs =? 8))
  && negb (last fs [] == []) && forallb isdecimal (last fs []).

(** ** Sample inputs *)

(** The start marker with the given values of its five attributes. *)
Definition doc_start (id_ title_ nonfiltered processed dbindex : str) : str :=
  text "<doc id=" ++ dquote ++ id_ ++ dquote
  ++ text " title=" ++ dquote ++ title_ ++ dquote
  ++ text " nonfiltered=" ++ dquote ++ nonfiltered ++ dquote
  ++ text " processed=" ++ dquote ++ processed ++ dquote
  ++ text " dbindex=" ++ dquote ++ dbindex ++ dquote ++ text ">".

Definition tok (word lemma tag sense : string) : token :=
  (VStr (text word), VStr (text lemma), VStr (text tag), VStr (text sense)).

(** The end-to-end example: one document with one sentence of two
    tokens. *)
Definition example_start : str :=
  doc_start (text "1") (text "X") (text "0") (text "1") (text "5").

Definition example_lines : stream :=
  [example_start; text "Hello hello NN 0"; text "world world NN 0"; text "";
   LINE_END_OF_ARTICLE; text ". . Fp 0"; text ""; LINE_DOC_TAG_CLOSE].

Definition example_document : Document :=
  mkDocument (text "1") (text "X") (text "5")
    [[tok "Hello" "hello" "NN" "0"; tok "world" "world" "NN" "0"]].

(** A document cut off after the second token line of its second
    sentence. *)
Definition cut_in_sentence : stream :=
  [example_start; text "Hello hello NN 0"; text ""; text "world world NN 0";
   text "again again NN 0"].

(** A document with the skip literal in its second sentence and a third
    sentence after it. *)
Definition with_skip_literal : stream :=
  [example_start; text "Hello hello NN 0"; text "";
   text "lost lost NN 0"; text "f"; text "";
   text "world world NN 0"; text "";
   LINE_END_OF_ARTICLE; text ". . Fp 0"; text ""; LINE_DOC_TAG_CLOSE].

(** A document cut off right after a line no grammar matches. *)
Definition cut_after_unparsable : stream :=
  [example_start; text "Hello hello NN 0"; text "garbage"].

(** A document with a line no grammar matches and a further line. *)
Definition with_unparsable_line : stream :=
  [example_start; text "Hello hello NN 0"; text "garbage"; text "world world NN 0"].

(** A document with a fourth field that only starts with digits and one
    with a fifth field. *)
Definition with_longer_records : stream :=
  [example_start; text "a b c 12abc"; text "x y z 0 extra"; text "";
   LINE_DOC_TAG_CLOSE].

(** A document with a blank line after the start marker and two blank
    lines in a row. *)
Definition with_blank_lines : stream :=
  [example_start; text ""; text "Hello hello NN 0"; text ""; text "";
   LINE_DOC_TAG_CLOSE].

(** A document with the line [Fz 0] in its only sentence. *)
Definition with_Fz_line : stream :=
  [example_start; text "Hello hello NN 0"; text "Fz 0"; text "";
   LINE_DOC_TAG_CLOSE].

(** * The rest of the module *)

(** ** [Document.text] and [Document.__repr__] *)

(** A value or the exception raised instead. *)
Inductive except (A : Type) : Type :=
| Value (a : A)
| Raised (e : exn).

Arguments Value {A} a.
Arguments Raised {A} e.

(** [sep.join(items)] for items that are all text. *)
Fixpoint join (sep : str) (items : list str) : str :=
  match items with
  | [] => []
  | [x] => x
  | x :: rest => x ++ sep ++ join sep rest
  end.

(** The items of a [join] have to be text: anything else is a
    [TypeError]. *)
Fixpoint all_text (items : list value) : except (list str) :=
  match items with
  | [] => Value []
  | VStr x :: rest =>
      match all_text rest with
      | Value xs => Value (x :: xs)
      | Raised e => Raised e
      end
  | _ :: _ => Raised TypeError
  end.

(** [[token for token, _, _, _ in sent]]. *)
Definition first_fields (sent : list token) : list value :=
  map (fun t : token => let '(word, _, _, _) := t in word) sent.

(** [' '.join(token for token, _, _, _ in sent)]. *)
Definition sentence_text (sent : list token) : except str :=
  match all_text (first_fields sent) with
  | Value ws => Value (join (text " ") ws)
  | Raised e => Raised e
  end.

Fixpoint sentence_texts (ss : list (list token)) : except (list str) :=
  match ss with
  | [] => Value []
  | sent :: rest =>
      match sentence_text sent with
      | Value x =>
          match sentence_texts rest with
          | Value xs => Value (x :: xs)
          | Raised e => Raised e
          end
      | Raised e => Raised e
      end
  end.

(** [Document.text]. *)
Definition Document_text (self : Document) : except str :=
  match sentence_texts (sents self) with
  | Value xs => Value (join (text ". ") xs)
  | Raised e => Raised e
  end.

(** [Document.__repr__]: the type name, the title and the text. *)
Definition Document_repr (self : Document) : except str :=
  match Document_text self with
  | Value t =>
      Value (text "Document(" ++ dquote ++ title self ++ dquote ++ text ", "
             ++ dquote ++ t ++ dquote ++ text ")")
  | Raised e => Raised e
  end.

(** ** [WikicorpusCorpusReader]

    The documents of a language come from [self.docs(lang)], which opens
    the selected files through the corpus view; the other methods only
    iterate over them.  They are given here over the sequence of
    documents, and what a generator yields is the list of its items. *)

(** [fileid.startswith(lang)]. *)
Definition startswith (s prefix : str) : bool :=
  match strip_prefix prefix s with
  | Some _ => true
  | None => false
  end.

(** [a <= b] on text: by code points, the shorter first. *)
Fixpoint leb (a b : str) : bool :=
  match a, b with
  | [], _ => true
  | _ :: _, [] => false
  | x :: a', y :: b' => (x <? y)%N || ((x =? y)%N && leb a' b')
  end.

(** [a < b] on text. *)
Definition ltb (a b : str) : bool := leb a b && (a != b).

(** A set of texts, as the list of its elements. *)
Fixpoint mem (x : str) (l : list str) : bool :=
  match l with
  | [] => false
  | y :: l' => (x == y) || mem x l'
  end.

Fixpoint set_of (l : list str) : list str :=
  match l with
  | [] => []
  | x :: l' => if mem x l' then set_of l' else x :: set_of l'
  end.

(** [sorted]. *)
Fixpoint insert (x : str) (l : list str) : list str :=
  match l with
  | [] => [x]
  | y :: l' => if leb x y then x :: l else y :: insert x l'
  end.

Fixpoint sorted (l : list str) : list str :=
  match l with
  | [] => []
  | x :: l' => insert x (sorted l')
  end.

Module WikicorpusCorpusReader.

(** The first statement of [docs]: the files of a language. *)
Definition docs_fileids (_fileids : list str) (lang : str) : list str :=
  filter (fun fileid => startswith fileid lang) _fileids.

(** [langs]: [sorted({fileid[:3] for fileid in self._fileids})]. *)
Definition langs (_fileids : list str) : list str :=
  sorted (set_of (map (fun fileid => firstn 3 fileid) _fileids)).

(** [raw]: the texts yielded before the generator ends, and the
    exception that ended it, if one did. *)
Fixpoint raw (docs : list Document) : list str * option exn :=
  match docs with
  | [] => ([], None)
  | doc :: rest =>
      match Document_text doc with
      | Value t => let (ts, e) := raw rest in (t :: ts, e)
      | Raised e => ([], Some e)
      end
  end.

(** [tagged_sents]. *)
Definition tagged_sents (docs : list Document) : list (list (value * value)) :=
  flat_map
    (fun doc =>
       map (fun sent =>
              map (fun t : token => let '(word, _, tag, _) := t in (word, tag)) sent)
         (sents doc))
    docs.

(** [tagged_words]. *)
Definition tagged_words (docs : list Document) : list (value * value) :=
  concat (tagged_sents docs).

(** [sents]. *)
Definition sents (docs : list Document) : list (list value) :=
  flat_map (fun doc => map first_fields (sents doc)) docs.

(** [words]. *)
Definition words (docs : list Document) : list value :=
  concat (sents docs).

End WikicorpusCorpusReader.

(** ** Further notions *)

(** The shapes of the tokens the parser builds: four texts, the token
    of the [Fz 0] line, or the extra word of [FAILING_LINE]. *)
Definition token_shape (t : token) : bool :=
  match t with
  | (VStr _, VStr _, VStr _, VStr _) => true
  | (VStr w, VStr l, VStr tag, VInt 0%Z) =>
      (w == text "") && (l == text "") && (tag == text "Fz")
  | (VStr w, VNone, VNone, VNone) => w == FAILING_LINE_EXTRA_WORD
  | _ => false
  end.

(** From [line] and [s] the loops got to [line'] and [s'] by reading:
    nothing was read, or there was a line in [line] and now [line'] is
    the line in front of [s'] or the end of the stream was read. *)
Definition read_on (line : option str) (s : stream)
    (line' : option str) (s' : stream) : Prop :=
  (line' = line /\ s' = s)
  \/ (line <> None
      /\ ((exists (p : list str) (x : str),
              s = p ++ x :: s' /\ line' = Some (normalized x))
          \/ (line' = None /\ s' = []))).

(** The last of the lines ahead is not one the inner loop would take up
    and no grammar matches. *)
Definition last_parsable (ls : list str) : Prop :=
  match rev ls with
  | [] => True
  | l :: _ => in_sentence (Some l) && unparsable l = false
  end.

(** ** Further sample inputs *)

(** A title with a quoted word and a copy of the attributes behind
    it. *)
Definition quoted_title : str :=
  text "The " ++ dquote ++ text "X" ++ dquote ++ text " nonfiltered=" ++ dquote
  ++ text "7" ++ dquote ++ text " processed=" ++ dquote ++ text "8" ++ dquote
  ++ text " dbindex=" ++ dquote ++ text "9".

(** A document closed by the closing marker alone, without the
    end-of-article lines. *)
Definition closed_directly : stream :=
  [example_start; text "Hello hello NN 0"; text ""; text "world world NN 0";
   LINE_DOC_TAG_CLOSE; example_start].

(** A document whose end-of-article marker is followed by the closing
    marker at once. *)
Definition without_footer : stream :=
  [example_start; text "Hello hello NN 0"; text "";
   LINE_END_OF_ARTICLE; LINE_DOC_TAG_CLOSE].

(** A document with the skip literal in its first sentence and a token
    line right after it. *)
Definition with_skip_literal_then_token : stream :=
  [example_start; text "Hello hello NN 0"; text "f"; text "world world NN 0";
   text ""; LINE_DOC_TAG_CLOSE].

(** ** Order *)

(** Each element is smaller than the one after it. *)
Fixpoint increasing (l : list str) : bool :=
  match l with
  | [] => true
  | x :: l' =>
      match l' with
      | [] => true
      | y :: _ => ltb x y && increasing l'
      end
  end.

(** ** A document with the first failing line *)

Definition with_failing_line : stream :=
  [example_start; FAILING_LINE; text ""; LINE_DOC_TAG_CLOSE].

Definition failing_line_document : Document :=
  mkDocument (text "1") (text "X") (text "5")
    [[(VStr FAILING_LINE_WORD, VStr FAILING_LINE_LEMMA, VStr FAILING_LINE_TAG,
       VStr FAILING_LINE_SENSE);
      (VStr FAILING_LINE_EXTRA_WORD, VNone, VNone, VNone)]].

(** ** Token lines as the specification words them

    The decoding rules of the word line parser, read off the
    specification: the fields of a line are its runs of non-space
    characters, and a record has four of them, or six or eight when word
    and lemma are two or three fields each. *)

(** The longest prefix of [s] in the class [cls], and what is left. *)
Fixpoint span (cls : char -> bool) (s : str) : str * str :=
  match s with
  | [] => ([], [])
  | c :: s' =>
      if cls c then let (a, b) := span cls s' in (c :: a, b) else ([], s)
  end.

(** The whitespace-separated fields of a line, each with the whitespace
    that follows it; [n] bounds their number. *)
Fixpoint spaced_fields (n : nat) (s : str) : list (str * str) :=
  match n, s with
  | S n', _ :: _ =>
      let (field, rest) := span nonspace s in
      let (gap, rest') := span isspace rest in
      (field, gap) :: spaced_fields n' rest'
  | _, _ => []
  end.

(** Fields that are not empty, with whitespace between them. *)
Fixpoint spaced (fs : list (str * str)) : Prop :=
  match fs with
  | [] => True
  | (field, gap) :: rest =>
      run_of nonspace field /\ forallb isspace gap = true
      /\ (rest <> [] -> gap <> []) /\ spaced rest
  end.

(** Rules 2 to 4: a record of four fields, the last one digits, gives
    the token of these fields; with six or eight fields, the last one
    digits, word and lemma are two or three fields each, taken with the
    whitespace between them.  A Line starts with its first field. *)
Definition record_token (line : str) : option token :=
  match line with
  | [] => None
  | c :: _ =>
      if isspace c then None
      else
        match spaced_fields (length line) line with
        | [(w, _); (l, _); (t, _); (d, _)] =>
            if forallb isdecimal d
            then Some (VStr w, VStr l, VStr t, VStr d) else None
        | [(w1, a); (w2, _); (l1, b); (l2, _); (t, _); (d, _)] =>
            if forallb isdecimal d
            then Some (VStr (w1 ++ a ++ w2), VStr (l1 ++ b ++ l2), VStr t, VStr d)
            else None
        | [(w1, a1); (w2, a2); (w3, _); (l1, b1); (l2, b2); (l3, _); (t, _); (d, _)] =>
            if forallb isdecimal d
            then Some (VStr (w1 ++ a1 ++ w2 ++ a2 ++ w3),
                       VStr (l1 ++ b1 ++ l2 ++ b2 ++ l3), VStr t, VStr d)
            else None
        | _ => None
        end
  end.

(** The tokens of a token line, rules 1 to 5 in their order: the
    literal [Fz 0] with the text [0] as its sense, a record, or a line
    of the corruption table. *)
Definition tokens_as_specified (line : str) : option (list token) :=
  if line == text "Fz 0" then
    Some [(VStr (text ""), VStr (text ""), VStr (text "Fz"), VStr (text "0"))]
  else
    match record_token line with
    | Some tk => Some [tk]
    | None =>
        if line == FAILING_LINE then
          Some [(VStr FAILING_LINE_WORD, VStr FAILING_LINE_LEMMA, VStr (text "W"),
                 VStr (text "0"));
                (VStr FAILING_LINE_EXTRA_WORD, VNone, VNone, VNone)]
        else if line == FAILING_LINE_2 then
          Some [(VStr (text "20000_tones"), VStr (text "WG_tm:20000"),
                 VStr (text "Zu"), VStr (text "0"))]
        else None
    end.

Definition starts_with_digit (s : str) : bool :=
  match s with
  | [] => false
  | c :: _ => isdecimal c
  end.

(** A record of six or eight fields whose fourth field starts with a
    digit, or one of eight fields whose sixth field does. *)
Definition digit_in_lemma_place (line : str) : bool :=
  match map fst (spaced_fields (length line) line) with
  | [_; _; _; f4; _; _] => starts_with_digit f4
  | [_; _; _; f4; _; f6; _; _] => starts_with_digit f4 || starts_with_digit f6
  | _ => false
  end.

(** The token lines of the blocks the first property of the parser is
    about: lines with tokens by the rules above that are neither the
    end-of-article marker, which ends the body, nor [Fz 0], nor a record
    with a digit in the place of its lemma. *)
Definition token_line (l : str) : bool :=
  (l != text "Fz 0") && (l != LINE_END_OF_ARTICLE)
  && negb (digit_in_lemma_place l) && negb (is_None (tokens_as_specified l)).

(** The token lines of a block grouped into its sentence, and the
    sentences of the blocks. *)
Definition sentence_as_specified (ls : list str) : list token :=
  flat_map (fun l => match tokens_as_specified l with
                     | Some toks => toks
                     | None => []
                     end) ls.

Definition sentences_as_specified (blocks : list (list str)) : list (list token) :=
  map sentence_as_specified blocks.

(** A well-formed document whose only token line is a record with a
    word and a lemma of two fields, the second field of the lemma
    starting with a digit. *)
Definition with_digit_in_lemma : stream :=
  [example_start; text "Boeing 747 boeing 747 NP 0"; text "";
   LINE_END_OF_ARTICLE; text ". . Fp 0"; text ""; LINE_DOC_TAG_CLOSE].

(** A title with a quoted word and a non-breaking space. *)
Definition title_with_nbsp : str :=
  text "The " ++ dquote ++ text "X" ++ dquote ++ [160%N] ++ text "files".

(** * Properties *)

(** ** Text equality *)

Lemma eqb_eq (a b : str) : (a == b) = true <-> a = b.
Proof.
  revert b; induction a as [|x a IH]; intros [|y b]; simpl; split;
    try congruence; try reflexivity.
  - intros H. apply andb_true_iff in H as [Hx Ha].
    apply N.eqb_eq in Hx. apply IH in Ha. congruence.
  - intros H. injection H as -> ->. rewrite N.eqb_refl. simpl. now apply IH.
Qed.

Lemma eqb_refl (a : str) : (a == a) = true.
Proof. now apply eqb_eq. Qed.

Lemma eqb_neq (a b : str) : (a == b) = false <-> a <> b.
Proof.
  split.
  - intros H E. apply eqb_eq in E. congruence.
  - intros H. destruct (a == b) eqn:E; [|reflexivity].
    apply eqb_eq in E. contradiction.
Qed.

Lemma equals_refl (l : str) : equals (Some l) l = true.
Proof. apply eqb_refl. Qed.

(** ** The monad *)

Lemma bind_assoc {A B C : Type} (m : M A) (f : A -> M B) (g : B -> M C) (s : stream) :
  (b <- (a <- m ;; f a) ;; g b) s = (a <- m ;; b <- f a ;; g b) s.
Proof. unfold bind. now destruct (m s). Qed.

(** ** The line source *)

Lemma read_clean_line_nil : read_clean_line [] = Returns None [].
Proof. reflexivity. Qed.

Lemma read_clean_line_cons (x : str) (s : stream) :
  read_clean_line (x :: s) = Returns (Some (normalized x)) s.
Proof.
  unfold read_clean_line, readline, normalized.
  destruct (x ++ [10%N]) as [|c r] eqn:E.
  - now destruct x.
  - reflexivity.
Qed.

Lemma read_then {A : Type} (k : option str -> M A) (x : str) (s : stream) :
  (line <- read_clean_line ;; k line) (x :: s) = k (Some (normalized x)) s.
Proof. unfold bind. now rewrite read_clean_line_cons. Qed.

Lemma read_then_end {A : Type} (k : option str -> M A) :
  (line <- read_clean_line ;; k line) [] = k None [].
Proof. reflexivity. Qed.

(** Reading never fails, and what is read is the head of what was
    ahead. *)
Lemma read_clean_line_ahead (s : stream) :
  exists (line : option str) (s' : stream),
    read_clean_line s = Returns line s' /\ ahead line s' = map normalized s.
Proof.
  destruct s as [|x s].
  - exists None, []. split; reflexivity.
  - exists (Some (normalized x)), s. split; [apply read_clean_line_cons|reflexivity].
Qed.

(** *** What [strip] removes *)

Lemma lstrip_spec (s : str) :
  exists pre : str,
    s = pre ++ lstrip s /\ forallb isspace pre = true /\ stops isspace (lstrip s).
Proof.
  induction s as [|c s (pre & Hs & Hpre & Hhd)]; simpl.
  - exists []. repeat split.
  - destruct (isspace c) eqn:E.
    + exists (c :: pre). simpl. rewrite E, Hpre. repeat split; [|assumption].
      now rewrite <- Hs.
    + exists []. repeat split. assumption.
Qed.

Lemma forallb_rev (f : char -> bool) (s : str) :
  forallb f (rev s) = forallb f s.
Proof.
  induction s as [|c s IH]; [reflexivity|].
  simpl. rewrite forallb_app, IH. simpl. rewrite andb_true_r. apply andb_comm.
Qed.

Lemma rstrip_spec (s : str) :
  exists post : str,
    s = rstrip s ++ post /\ forallb isspace post = true
    /\ stops isspace (rev (rstrip s)).
Proof.
  unfold rstrip. destruct (lstrip_spec (rev s)) as (pre & Hs & Hpre & Hhd).
  exists (rev pre). rewrite rev_involutive, forallb_rev. repeat split; try assumption.
  rewrite <- rev_app_distr, <- Hs. now rewrite rev_involutive.
Qed.

(** [strip] removes a run of whitespace at each end and leaves trimmed
    text. *)
Lemma strip_spec (s : str) :
  exists pre post : str,
    s = pre ++ strip s ++ post
    /\ forallb isspace pre = true /\ forallb isspace post = true
    /\ trimmed (strip s).
Proof.
  unfold strip.
  destruct (lstrip_spec s) as (pre & Hs & Hpre & Hhd).
  destruct (rstrip_spec (lstrip s)) as (post & Hl & Hpost & Hlast).
  exists pre, post. repeat split; try assumption.
  - now rewrite <- Hl.
  - rewrite Hl in Hhd. destruct (rstrip (lstrip s)); [exact I|exact Hhd].
Qed.

(** C9, as the code has it: the Line [read_clean_line] returns is the
    raw line with the whole run of whitespace at each end removed, the
    line end, ordinary and non-breaking spaces among it, and with every
    non-breaking space that is left replaced by an ordinary space. *)
Theorem read_clean_line_strips (x : str) (s : stream) :
  exists pre core post : str,
    fst (readline (x :: s)) = pre ++ core ++ post
    /\ forallb isspace pre = true
    /\ forallb isspace post = true
    /\ trimmed core
    /\ read_clean_line (x :: s) = Returns (Some (replace core (chr 160) (text " "))) s.
Proof.
  destruct (strip_spec (x ++ [10%N])) as (pre & post & Hx & Hpre & Hpost & Htrim).
  exists pre, (strip (x ++ [10%N])), post.
  repeat split; try assumption; try apply Htrim.
  apply read_clean_line_cons.
Qed.

(** The claim that only the line end is removed fails on an indented
    line: the leading and trailing spaces are gone as well. *)
Lemma read_clean_line_drops_indentation :
  read_clean_line [text "  Hello hello NN 0 "]
  = Returns (Some (text "Hello hello NN 0")) []
  /\ Line_as_specified (fst (readline [text "  Hello hello NN 0 "]))
     = text "  Hello hello NN 0 "
  /\ text "Hello hello NN 0" <> text "  Hello hello NN 0 ".
Proof. repeat split; try (vm_compute; reflexivity). vm_compute; discriminate. Qed.

(** ** One step of each loop *)

Lemma sentence_loop_S (fuel : nat) (line : option str) (sent : list token) :
  sentence_loop (S fuel) line sent =
  match line with
  | Some l =>
      if in_sentence line then
        decoded <- decode l ;;
        match decoded with
        | Break => ret (line, sent)
        | Next tok =>
            let sent := sent ++ [tok] in
            let sent :=
              if l == FAILING_LINE
              then sent ++ [(VStr FAILING_LINE_EXTRA_WORD, VNone, VNone, VNone)]
              else sent in
            line <- read_clean_line ;;
            sentence_loop fuel line sent
        end
      else ret (line, sent)
  | None => ret (line, sent)
  end.
Proof. reflexivity. Qed.

Lemma document_loop_S (fuel : nat) (line : option str) (doc_sents : list (list token)) :
  document_loop (S fuel) line doc_sents =
  if in_body line then
    r <- sentence_loop fuel line [] ;; sentence_done fuel doc_sents r
  else ret (line, doc_sents).
Proof. reflexivity. Qed.

Lemma sentence_loop_stop (fuel : nat) (line : option str) (sent : list token) (s : stream) :
  in_sentence line = false ->
  sentence_loop (S fuel) line sent s = Returns (line, sent) s.
Proof.
  intros H. rewrite sentence_loop_S. rewrite H. now destruct line.
Qed.

Lemma document_loop_stop (fuel : nat) (line : option str)
    (doc_sents : list (list token)) (s : stream) :
  in_body line = false ->
  document_loop (S fuel) line doc_sents s = Returns (line, doc_sents) s.
Proof. intros H. rewrite document_loop_S. now rewrite H. Qed.

Lemma sentence_loop_first (fuel : nat) (x : str) (sent : list token) (s : stream) :
  sentence_loop fuel (Some (normalized x)) sent s =
  (line <- read_clean_line ;; sentence_loop fuel line sent) (x :: s).
Proof. symmetry. apply (read_then (fun line => sentence_loop fuel line sent)). Qed.

(** *** The two conditions *)

Lemma in_sentence_in_body (line : option str) :
  in_sentence line = true -> in_body line = true.
Proof.
  unfold in_sentence, in_body. intros H.
  repeat (apply andb_true_iff in H as [H ?]).
  repeat (apply andb_true_iff; split); assumption.
Qed.

(** The inner condition fails at the end of the stream, on a blank line
    and on the two markers. *)
Lemma in_sentence_stop (line : option str) :
  in_sentence line = false ->
  line = None \/ line = Some (text "") \/ line = Some LINE_END_OF_ARTICLE
  \/ line = Some LINE_DOC_TAG_CLOSE.
Proof.
  unfold in_sentence. destruct line as [l|]; [|now left].
  unfold equals, is_None.
  destruct (l == text "") eqn:E1.
  { apply eqb_eq in E1. subst. right. now left. }
  destruct (l == LINE_END_OF_ARTICLE) eqn:E2.
  { apply eqb_eq in E2. subst. right. right. now left. }
  destruct (l == LINE_DOC_TAG_CLOSE) eqn:E3.
  { apply eqb_eq in E3. subst. right. right. now right. }
  simpl. discriminate.
Qed.

Lemma in_sentence_not_blank (l : str) :
  in_sentence (Some l) = true -> (l == text "") = false.
Proof.
  unfold in_sentence, equals.
  destruct (l == text ""); [|reflexivity].
  cbn [is_None negb andb]. discriminate.
Qed.

(** ** Decoding one line *)

Ltac split_guard H :=
  unfold unparsable in H;
  repeat (apply andb_true_iff in H as [H ?]);
  apply negb_true_iff in H.

Lemma unparsable_guard (l : str) :
  unparsable l = true ->
  (l == text "Fz 0") = false
  /\ is_None (match_word l) && (l != FAILING_LINE) && (l != FAILING_LINE_2)
     && (l != FAILING_LINE_3) = true.
Proof.
  intros H. split_guard H. split; [assumption|].
  repeat (apply andb_true_iff; split); assumption.
Qed.

Lemma unparsable_not_skip (l : str) :
  unparsable l = true -> (l == FAILING_LINE_3) = false.
Proof.
  unfold unparsable. intros H. apply andb_true_iff in H as [_ H].
  now apply negb_true_iff in H.
Qed.

(** An unparsable line with the stream at its end: the look-ahead read
    finds nothing and the inner loop is left. *)
Lemma decode_unparsable_end (l : str) :
  unparsable l = true -> decode l [] = Returns Break [].
Proof.
  intros H. destruct (unparsable_guard l H) as [HFz Hguard].
  unfold decode, bind. rewrite HFz, Hguard, read_clean_line_nil. reflexivity.
Qed.

(** An unparsable line with a further line: the look-ahead read finds
    it and the line is an error. *)
Lemma decode_unparsable_more (l x : str) (s : stream) :
  unparsable l = true ->
  decode l (x :: s) =
  Raises (ValueError (text "Could not parse the following non-ending line: " ++ l)).
Proof.
  intros H. destruct (unparsable_guard l H) as [HFz Hguard].
  unfold decode, bind. rewrite HFz, Hguard, read_clean_line_cons. reflexivity.
Qed.

(** How a line that is not unparsable is decoded: into a token, into
    the [break] of the skip literal, or into an exception, the same for
    every stream and without reading from it. *)
Lemma decode_cases (l : str) :
  unparsable l = false ->
  (exists tok : token, forall s : stream, decode l s = Returns (Next tok) s)
  \/ (l = FAILING_LINE_3 /\ forall s : stream, decode l s = Returns Break s)
  \/ (exists e : exn, forall s : stream, decode l s = Raises e).
Proof.
  unfold unparsable, decode. intros H.
  destruct (l == text "Fz 0") eqn:EF.
  - left. eexists. intros s. reflexivity.
  - simpl in H. unfold bind.
    rewrite <- !andb_assoc in H. rewrite <- !andb_assoc. rewrite H.
    unfold ret.
    destruct (l == FAILING_LINE); [left; eexists; reflexivity|].
    destruct (l == FAILING_LINE_2); [left; eexists; reflexivity|].
    destruct (l == FAILING_LINE_3) eqn:E3.
    { right. left. apply eqb_eq in E3. split; [assumption|reflexivity]. }
    destruct (match_word l) as [[|w [|le [|t [|se [|? ?]]]]]|];
      try (right; right; eexists; intros ?; reflexivity).
    left; eexists; reflexivity.
Qed.

Lemma decode_skip (s : stream) : decode FAILING_LINE_3 s = Returns Break s.
Proof. reflexivity. Qed.

Lemma sentence_loop_skip (fuel : nat) (sent : list token) (s : stream) :
  sentence_loop (S fuel) (Some FAILING_LINE_3) sent s =
  Returns (Some FAILING_LINE_3, sent) s.
Proof.
  rewrite sentence_loop_S.
  change (in_sentence (Some FAILING_LINE_3)) with true. cbv iota.
  unfold bind. now rewrite decode_skip.
Qed.

Lemma sentence_loop_unparsable_more (fuel : nat) (l : str) (sent : list token)
    (x : str) (s : stream) :
  in_sentence (Some l) = true ->
  unparsable l = true ->
  sentence_loop (S fuel) (Some l) sent (x :: s) =
  Raises (ValueError (text "Could not parse the following non-ending line: " ++ l)).
Proof.
  intros Hin Hu. rewrite sentence_loop_S, Hin. unfold bind.
  now rewrite (decode_unparsable_more l x s Hu).
Qed.

Lemma sentence_loop_unparsable_end (fuel : nat) (l : str) (sent : list token) :
  in_sentence (Some l) = true ->
  unparsable l = true ->
  sentence_loop (S fuel) (Some l) sent [] = Returns (Some l, sent) [].
Proof.
  intros Hin Hu. rewrite sentence_loop_S, Hin. unfold bind.
  now rewrite (decode_unparsable_end l Hu).
Qed.

(** ** Token lines *)

Lemma tokens_of_in_sentence (l : str) (toks : list token) :
  tokens_of l = Some toks -> in_sentence (Some l) = true.
Proof.
  unfold tokens_of. rewrite sentence_loop_S.
  destruct (in_sentence (Some l)); [reflexivity|]. discriminate.
Qed.

(** A token line is decoded into a first token, the same for every
    stream; its tokens are that one and, for [FAILING_LINE], the extra
    word. *)
Lemma tokens_of_decode (l : str) (toks : list token) :
  tokens_of l = Some toks ->
  exists tok : token,
    (forall s : stream, decode l s = Returns (Next tok) s)
    /\ toks = [tok] ++ (if l == FAILING_LINE
                        then [(VStr FAILING_LINE_EXTRA_WORD, VNone, VNone, VNone)]
                        else []).
Proof.
  intros H.
  pose proof (tokens_of_in_sentence l toks H) as Hin.
  unfold tokens_of in H. rewrite sentence_loop_S, Hin in H.
  unfold bind at 1 in H.
  destruct (unparsable l) eqn:U.
  - rewrite (decode_unparsable_end l U) in H. discriminate.
  - destruct (decode_cases l U) as [[tok Hd]|[[_ Hd]|[e Hd]]];
      rewrite Hd in H; try discriminate.
    exists tok. split; [assumption|].
    cbv zeta in H. rewrite read_then_end, sentence_loop_S in H.
    injection H as <-. now destruct (l == FAILING_LINE).
Qed.

(** A token line costs the inner loop one iteration, whatever follows it
    in the stream. *)
Lemma tokens_of_step (l : str) (toks : list token) :
  tokens_of l = Some toks ->
  forall (fuel : nat) (sent : list token) (s : stream),
    sentence_loop (S fuel) (Some l) sent s =
    (line <- read_clean_line ;; sentence_loop fuel line (sent ++ toks)) s.
Proof.
  intros H fuel sent s.
  destruct (tokens_of_decode l toks H) as (tok & Hd & ->).
  rewrite sentence_loop_S, (tokens_of_in_sentence l _ H).
  unfold bind at 1. rewrite Hd. cbv zeta.
  destruct (l == FAILING_LINE); [|reflexivity].
  now rewrite <- app_assoc.
Qed.

Lemma tokens_of_nonempty (l : str) (toks : list token) :
  tokens_of l = Some toks -> toks <> [].
Proof.
  intros H. destruct (tokens_of_decode l toks H) as (tok & _ & ->). discriminate.
Qed.

(** The corruption table, the [Fz 0] line and the lines that are no
    token lines. *)
Example tokens_of_FAILING_LINE :
  tokens_of FAILING_LINE
  = Some [(VStr FAILING_LINE_WORD, VStr FAILING_LINE_LEMMA, VStr (text "W"),
           VStr (text "0"));
          (VStr FAILING_LINE_EXTRA_WORD, VNone, VNone, VNone)].
Proof. vm_compute; reflexivity. Qed.

Example tokens_of_FAILING_LINE_2 :
  tokens_of FAILING_LINE_2 = Some [tok "20000_tones" "WG_tm:20000" "Zu" "0"].
Proof. vm_compute; reflexivity. Qed.

Example tokens_of_two_word_lemma :
  tokens_of (text "New York new york NP 0") = Some [tok "New York" "new york" "NP" "0"].
Proof. vm_compute; reflexivity. Qed.

Example tokens_of_no_token_line :
  tokens_of FAILING_LINE_3 = None /\ tokens_of (text "") = None
  /\ tokens_of LINE_END_OF_ARTICLE = None /\ tokens_of LINE_DOC_TAG_CLOSE = None
  /\ tokens_of (text "garbage") = None.
Proof. repeat split; vm_compute; reflexivity. Qed.

(** The inner loop over a run of token lines. *)
Lemma sentence_loop_lines (ls : list str) :
  forall (toks : list token) (xs : list str),
    sentence_of ls = Some toks ->
    map normalized xs = ls ->
    forall (fuel : nat) (sent : list token) (s : stream),
      length ls <= fuel ->
      (line <- read_clean_line ;; sentence_loop fuel line sent) (xs ++ s) =
      (line <- read_clean_line ;; sentence_loop (fuel - length ls) line (sent ++ toks)) s.
Proof.
  induction ls as [|l ls IH]; intros toks xs Hs Hxs fuel sent s Hf.
  - apply map_eq_nil in Hxs. subst xs. injection Hs as <-.
    simpl. now rewrite app_nil_r, Nat.sub_0_r.
  - destruct xs as [|x xs]; [discriminate|]. injection Hxs as Hx Hxs.
    simpl in Hs.
    destruct (tokens_of l) as [t|] eqn:Ht; [|discriminate].
    destruct (sentence_of ls) as [ts|] eqn:Hts; [|discriminate].
    injection Hs as <-.
    destruct fuel as [|fuel]; [simpl in Hf; lia|].
    simpl app. rewrite read_then, Hx.
    rewrite (tokens_of_step l t Ht).
    rewrite (IH ts xs eq_refl Hxs) by (simpl in Hf; lia).
    now rewrite app_assoc.
Qed.

Lemma sentence_of_nonempty (ls : list str) (toks : list token) :
  sentence_of ls = Some toks -> ls <> [] -> toks <> [].
Proof.
  destruct ls as [|l ls]; [contradiction|]. simpl. intros H _.
  destruct (tokens_of l) as [t|] eqn:Ht; [|discriminate].
  destruct (sentence_of ls) as [ts|]; [|discriminate].
  injection H as <-. pose proof (tokens_of_nonempty l t Ht).
  now destruct t.
Qed.

(** ** Sentence blocks *)

(** The outer loop entered in front of a run of token lines: the inner
    loop is left to deal with the line after the run. *)
Lemma document_loop_run (ls : list str) (toks : list token) (xs : list str)
    (fuel : nat) (doc_sents : list (list token)) (s : stream) :
  sentence_of ls = Some toks ->
  map normalized xs = ls ->
  length ls < fuel ->
  (ls = [] -> in_body (peek s) = true) ->
  (line <- read_clean_line ;; document_loop (S fuel) line doc_sents) (xs ++ s) =
  (r <- (line <- read_clean_line ;; sentence_loop (fuel - length ls) line toks) ;;
   sentence_done fuel doc_sents r) s.
Proof.
  intros Hs Hxs Hf Hpeek.
  destruct ls as [|l ls].
  - apply map_eq_nil in Hxs. subst xs. injection Hs as <-.
    simpl app. rewrite Nat.sub_0_r, bind_assoc.
    specialize (Hpeek eq_refl).
    destruct s as [|x s]; [discriminate|].
    rewrite !read_then, document_loop_S. simpl in Hpeek. now rewrite Hpeek.
  - destruct xs as [|x xs]; [discriminate|].
    pose proof Hxs as Hx. injection Hx as Hx _.
    simpl app. rewrite read_then, document_loop_S, Hx.
    assert (Hin : in_body (Some l) = true).
    { apply in_sentence_in_body. simpl in Hs.
      destruct (tokens_of l) as [t|] eqn:Ht; [|discriminate].
      now apply tokens_of_in_sentence with (toks := t). }
    rewrite Hin. unfold bind at 1. unfold bind at 2.
    rewrite <- Hx, sentence_loop_first.
    change (x :: xs ++ s) with ((x :: xs) ++ s).
    now rewrite (sentence_loop_lines (l :: ls) toks (x :: xs) Hs Hxs) by lia.
Qed.

(** One sentence block and the blank line that closes it. *)
Lemma document_loop_block (b : list str) (toks : list token)
    (xs : list str) (xblank : str) (fuel : nat) (doc_sents : list (list token))
    (s : stream) :
  sentence_of b = Some toks ->
  map normalized xs = b ->
  normalized xblank = text "" ->
  S (length b) < fuel ->
  (line <- read_clean_line ;; document_loop fuel line doc_sents) (xs ++ xblank :: s) =
  (line <- read_clean_line ;; document_loop (fuel - 1) line (doc_sents ++ [toks])) s.
Proof.
  intros Hs Hxs Hb Hf.
  destruct fuel as [|fuel]; [lia|].
  replace (S fuel - 1) with fuel by lia.
  rewrite (document_loop_run b toks xs fuel doc_sents (xblank :: s) Hs Hxs)
    by (lia || (intros _; simpl; now rewrite Hb)).
  unfold bind at 1. rewrite read_then, Hb.
  destruct (fuel - length b) as [|fuel'] eqn:E; [lia|].
  rewrite sentence_loop_stop by reflexivity.
  reflexivity.
Qed.

Lemma body_lines_cons (b : list str) (blocks : list (list str)) :
  body_lines (b :: blocks) = b ++ text "" :: body_lines blocks.
Proof. unfold body_lines. simpl. now rewrite <- app_assoc. Qed.

Lemma length_body_lines (blocks : list (list str)) :
  length blocks <= length (body_lines blocks).
Proof.
  induction blocks as [|b blocks IH]; [simpl; lia|].
  rewrite body_lines_cons, length_app. simpl. lia.
Qed.

(** The outer loop over complete sentence blocks. *)
Lemma document_loop_blocks (blocks : list (list str)) :
  forall (ss : list (list token)) (xs : list str),
    sentences_of blocks = Some ss ->
    map normalized xs = body_lines blocks ->
    forall (fuel : nat) (doc_sents : list (list token)) (s : stream),
      length xs < fuel ->
      (line <- read_clean_line ;; document_loop fuel line doc_sents) (xs ++ s) =
      (line <- read_clean_line ;;
       document_loop (fuel - length blocks) line (doc_sents ++ ss)) s.
Proof.
  induction blocks as [|b blocks IH]; intros ss xs Hss Hxs fuel doc_sents s Hf.
  - apply map_eq_nil in Hxs. subst xs. injection Hss as <-.
    simpl. now rewrite app_nil_r, Nat.sub_0_r.
  - rewrite body_lines_cons in Hxs.
    apply map_eq_app in Hxs as (xb & xr & -> & Hxb & Hxr).
    apply map_eq_cons in Hxr as (xblank & xs' & -> & Hblank & Hxs').
    simpl in Hss.
    destruct (sentence_of b) as [toks|] eqn:Hb; [|discriminate].
    destruct (sentences_of blocks) as [ss'|] eqn:Hss'; [|discriminate].
    injection Hss as <-.
    rewrite length_app in Hf. simpl in Hf.
    assert (length xb = length b) by (rewrite <- Hxb; now rewrite length_map).
    rewrite <- app_assoc. simpl app.
    rewrite (document_loop_block b toks xb xblank fuel doc_sents (xs' ++ s) Hb Hxb Hblank)
      by lia.
    rewrite (IH ss' xs' eq_refl Hxs') by lia.
    rewrite <- app_assoc. simpl.
    now replace (fuel - 1 - length blocks) with (fuel - S (length blocks)) by lia.
Qed.

(** ** An unparsable line at the end of the stream *)

Lemma sentence_done_unparsable (fuel : nat) (doc_sents : list (list token))
    (l : str) (sent : list token) (s : stream) :
  in_sentence (Some l) = true ->
  unparsable l = true ->
  sentence_done fuel doc_sents (Some l, sent) s =
  document_loop fuel (Some l) (doc_sents ++ [sent]) s.
Proof.
  intros Hin Hu. unfold sentence_done, equals.
  now rewrite (unparsable_not_skip l Hu), (in_sentence_not_blank l Hin).
Qed.

(** With an unparsable line in hand and the stream at its end, the outer
    loop never makes progress: the inner loop breaks at once, leaves
    [line] as it is, and the outer condition holds again. *)
Lemma document_loop_stuck (l : str) :
  in_sentence (Some l) = true ->
  unparsable l = true ->
  forall (fuel : nat) (doc_sents : list (list token)),
    document_loop fuel (Some l) doc_sents [] = OutOfFuel.
Proof.
  intros Hin Hu. induction fuel as [|fuel IH]; intros doc_sents; [reflexivity|].
  rewrite document_loop_S, (in_sentence_in_body _ Hin). unfold bind.
  destruct fuel as [|fuel]; [reflexivity|].
  rewrite (sentence_loop_unparsable_end fuel l [] Hin Hu).
  rewrite (sentence_done_unparsable _ _ l [] [] Hin Hu). apply IH.
Qed.

(** ** Fuel

    More fuel never changes a result that was reached. *)

Lemma sentence_loop_mono (fuel : nat) :
  forall (fuel' : nat) (line : option str) (sent : list token) (s : stream),
    fuel <= fuel' ->
    sentence_loop fuel line sent s <> OutOfFuel ->
    sentence_loop fuel' line sent s = sentence_loop fuel line sent s.
Proof.
  induction fuel as [|fuel IH]; intros fuel' line sent s Hle H.
  - exfalso. now apply H.
  - destruct fuel' as [|fuel']; [lia|].
    revert H. rewrite !sentence_loop_S.
    destruct line as [l|]; [|reflexivity].
    destruct (in_sentence (Some l)); [|reflexivity].
    unfold bind.
    destruct (decode l s) as [[tok|] s1| |]; try reflexivity.
    destruct (read_clean_line s1) as [line' s2| |]; try reflexivity.
    intros H. apply IH; [lia|assumption].
Qed.

Lemma document_loop_mono (fuel : nat) :
  forall (fuel' : nat) (line : option str) (doc_sents : list (list token)) (s : stream),
    fuel <= fuel' ->
    document_loop fuel line doc_sents s <> OutOfFuel ->
    document_loop fuel' line doc_sents s = document_loop fuel line doc_sents s.
Proof.
  induction fuel as [|fuel IH]; intros fuel' line doc_sents s Hle H.
  - exfalso. now apply H.
  - destruct fuel' as [|fuel']; [lia|].
    revert H. rewrite !document_loop_S.
    destruct (in_body line); [|reflexivity].
    unfold bind.
    destruct (sentence_loop fuel line [] s) as [[line1 sent] s1| |] eqn:E.
    + rewrite (sentence_loop_mono fuel fuel' line [] s) by (lia || congruence).
      rewrite E. unfold sentence_done.
      destruct (equals line1 FAILING_LINE_3); [reflexivity|].
      cbv zeta.
      destruct (equals line1 (text "")).
      * unfold bind.
        destruct (read_clean_line s1) as [line' s2| |]; try reflexivity.
        intros H. apply IH; [lia|assumption].
      * destruct (is_None line1); [reflexivity|].
        intros H. apply IH; [lia|assumption].
    + rewrite (sentence_loop_mono fuel fuel' line [] s) by (lia || congruence).
      now rewrite E.
    + intros H. now contradiction H.
Qed.

Lemma read_block_mono (fuel fuel' : nat) (s : stream) :
  fuel <= fuel' ->
  read_block fuel s <> OutOfFuel ->
  read_block fuel' s = read_block fuel s.
Proof.
  intros Hle. unfold read_block, bind.
  destruct (read_clean_line s) as [[l|] s1| |]; try reflexivity.
  destruct (re_match PATTERN_DOC_START l) as [[|i [|t [|d [|? ?]]]]|];
    try reflexivity.
  destruct (read_clean_line s1) as [line s2| |]; try reflexivity.
  destruct (document_loop fuel line [] s2) as [[line1 ss] s3| |] eqn:E.
  - rewrite (document_loop_mono fuel fuel' line [] s2) by (lia || congruence).
    now rewrite E.
  - rewrite (document_loop_mono fuel fuel' line [] s2) by (lia || congruence).
    now rewrite E.
  - intros H. now contradiction H.
Qed.

(** ** Documents

    The properties of whole documents share their beginning: a start
    marker that the start pattern matches, and sentence blocks, each
    closed by a blank line. *)

Section Body.

Variables (start i t d : str) (blocks : list (list str)) (ss : list (list token)).

Hypothesis start_matches : re_match PATTERN_DOC_START start = Some [i; t; d].
Hypothesis blocks_parse : sentences_of blocks = Some ss.

(** The stream lines behind normalized lines of the shape start marker,
    sentence blocks, token lines, further lines. *)
Lemma body_split (ls tail : list str) (xs : list str) :
  map normalized xs = start :: body_lines blocks ++ ls ++ tail ->
  exists (x0 : str) (xb xp xt : list str),
    xs = x0 :: xb ++ xp ++ xt
    /\ normalized x0 = start
    /\ map normalized xb = body_lines blocks
    /\ map normalized xp = ls
    /\ map normalized xt = tail.
Proof.
  intros H. destruct xs as [|x0 xs]; [discriminate|]. injection H as Hx0 H.
  apply map_eq_app in H as (xb & xr & -> & Hxb & Hxr).
  apply map_eq_app in Hxr as (xp & xt & -> & Hxp & Hxt).
  now exists x0, xb, xp, xt.
Qed.

(** [read_block] once the start marker has been read and matched. *)
Lemma read_block_start (fuel : nat) (x0 : str) (s : stream) :
  normalized x0 = start ->
  read_block fuel (x0 :: s) =
  (r <- (line <- read_clean_line ;; document_loop fuel line []) ;;
   document_done i t d r) s.
Proof.
  intros Hx0. unfold read_block. rewrite read_then, Hx0, start_matches.
  now rewrite bind_assoc.
Qed.

(** [read_block] over the start marker and the sentence blocks: what is
    left is the outer loop in front of the rest of the stream. *)
Lemma read_block_blocks (x0 : str) (xb : list str) (s : stream) (fuel : nat) :
  normalized x0 = start ->
  map normalized xb = body_lines blocks ->
  length (x0 :: xb) < fuel ->
  exists f : nat,
    read_block fuel (x0 :: xb ++ s) =
    (r <- (line <- read_clean_line ;; document_loop (S f) line ss) ;;
     document_done i t d r) s
    /\ fuel = S f + length blocks.
Proof.
  intros Hx0 Hxb Hf. simpl in Hf.
  pose proof (length_body_lines blocks) as Hlen.
  rewrite <- Hxb, length_map in Hlen.
  exists (fuel - length blocks - 1). split; [|lia].
  rewrite (read_block_start fuel x0 _ Hx0). unfold bind at 1.
  rewrite (document_loop_blocks blocks ss xb blocks_parse Hxb) by lia.
  now replace (S (fuel - length blocks - 1)) with (fuel - length blocks) by lia.
Qed.

(** The same with a run of token lines after the blocks: what is left
    is the inner loop in front of the rest of the stream. *)
Lemma read_block_body (ls : list str) (toks : list token)
    (x0 : str) (xb xp : list str) (s : stream) (fuel : nat) :
  sentence_of ls = Some toks ->
  normalized x0 = start ->
  map normalized xb = body_lines blocks ->
  map normalized xp = ls ->
  length (x0 :: xb ++ xp) < fuel ->
  (ls = [] -> in_body (peek s) = true) ->
  exists f1 f2 : nat,
    read_block fuel (x0 :: xb ++ xp ++ s) =
    (r <- (r <- (line <- read_clean_line ;; sentence_loop (S f1) line toks) ;;
           sentence_done (S f2) ss r) ;;
     document_done i t d r) s.
Proof.
  intros Hs Hx0 Hxb Hxp Hf Hpeek. simpl in Hf. rewrite length_app in Hf.
  assert (Hl : length xp = length ls) by (rewrite <- Hxp; now rewrite length_map).
  destruct (read_block_blocks x0 xb (xp ++ s) fuel Hx0 Hxb) as (f & -> & Hfuel);
    [simpl; lia|].
  pose proof (length_body_lines blocks) as Hlen.
  rewrite <- Hxb, length_map in Hlen.
  destruct f as [|f]; [lia|].
  exists (f - length ls), f. unfold bind at 1.
  rewrite (document_loop_run ls toks xp (S f) ss s Hs Hxp) by (assumption || lia).
  now replace (S f - length ls) with (S (f - length ls)) by lia.
Qed.

(** The three reads after the end-of-article marker. *)
Lemma document_done_footer (doc_sents : list (list token)) (x2 x3 x4 : str)
    (rest : stream) :
  normalized x2 = text ". . Fp 0" ->
  normalized x3 = text "" ->
  normalized x4 = LINE_DOC_TAG_CLOSE ->
  document_done i t d (Some LINE_END_OF_ARTICLE, doc_sents) (x2 :: x3 :: x4 :: rest)
  = Returns [mkDocument i t d doc_sents] rest.
Proof.
  intros H2 H3 H4. unfold document_done. rewrite equals_refl.
  unfold bind at 1.
  rewrite read_then, H2, equals_refl. unfold assert at 1, bind at 1, ret at 1.
  rewrite read_then, H3, equals_refl. unfold assert at 1, bind at 1, ret at 1.
  rewrite read_then, H4, equals_refl. reflexivity.
Qed.

(** A start marker, sentence blocks, the end-of-article marker, the
    footer line, a blank line and the closing marker make [read_block]
    return one Document with the three fields captured from the start
    marker and, in order, one sentence per block holding what the inner
    loop makes of its lines.  A blank line closes each block; the last
    block may do without and have the end-of-article marker right after
    it.  The lines after the closing marker stay in the stream. *)
Lemma read_block_footer
    (last : list str) (toks : list token) (xs : list str) (rest : stream) (fuel : nat) :
  sentence_of last = Some toks ->
  map normalized xs = start :: body_lines blocks ++ last ++ footer_lines ->
  length xs < fuel ->
  read_block fuel (xs ++ rest)
  = Returns [mkDocument i t d (ss ++ last_sentence last toks)] rest.
Proof.
  intros Hs Hxs Hf.
  destruct (body_split last footer_lines xs Hxs)
    as (x0 & xb & xp & xt & -> & Hx0 & Hxb & Hxp & Hxt).
  destruct xt as [|x1 [|x2 [|x3 [|x4 [|? ?]]]]]; try discriminate.
  injection Hxt as H1 H2 H3 H4.
  simpl in Hf. rewrite !length_app in Hf. simpl in Hf.
  simpl app. rewrite <- !app_assoc. simpl app.
  destruct last as [|l0 last].
  - apply map_eq_nil in Hxp. subst xp. simpl app. rewrite app_nil_r.
    destruct (read_block_blocks x0 xb (x1 :: x2 :: x3 :: x4 :: rest) fuel Hx0 Hxb)
      as (f & -> & _); [simpl; lia|].
    unfold bind at 1. rewrite read_then, H1.
    rewrite document_loop_stop by reflexivity.
    apply document_done_footer; assumption.
  - destruct (read_block_body (l0 :: last) toks x0 xb xp
                (x1 :: x2 :: x3 :: x4 :: rest) fuel Hs Hx0 Hxb Hxp)
      as (f1 & f2 & ->); [simpl; rewrite length_app; lia|discriminate|].
    unfold bind at 1. unfold bind at 1. rewrite read_then, H1.
    rewrite sentence_loop_stop by reflexivity.
    unfold sentence_done.
    change (equals (Some LINE_END_OF_ARTICLE) FAILING_LINE_3) with false.
    change (equals (Some LINE_END_OF_ARTICLE) (text "")) with false.
    cbv iota zeta. cbn [is_None].
    rewrite document_loop_stop by reflexivity.
    apply document_done_footer; assumption.
Qed.

(** C4, as the code has it: when the stream ends after at least one
    token line of a sentence, before a blank line or a marker, the
    sentence in progress is kept: [read_block] returns one Document
    whose sentences are the complete ones followed by the tokens read
    so far of the last one, which is not empty. *)
Theorem read_block_truncated_mid_sentence
    (ls : list str) (toks : list token) (xs : list str) (fuel : nat) :
  sentence_of ls = Some toks ->
  ls <> [] ->
  map normalized xs = start :: body_lines blocks ++ ls ->
  length xs < fuel ->
  read_block fuel xs = Returns [mkDocument i t d (ss ++ [toks])] []
  /\ toks <> [].
Proof.
  intros Hs Hne Hxs Hf.
  split; [|now apply sentence_of_nonempty with (ls := ls)].
  rewrite <- (app_nil_r ls) in Hxs.
  destruct (body_split ls [] xs Hxs)
    as (x0 & xb & xp & xt & -> & Hx0 & Hxb & Hxp & Hxt).
  apply map_eq_nil in Hxt. subst xt. rewrite app_nil_r in Hf.
  destruct (read_block_body ls toks x0 xb xp [] fuel Hs Hx0 Hxb Hxp Hf)
    as (f1 & f2 & ->); [contradiction|].
  unfold bind at 1. unfold bind at 1. rewrite read_then_end.
  now rewrite sentence_loop_stop by reflexivity.
Qed.

(** C3, as the code has it: the skip literal [f] ends the document.  The
    sentence it stands in is left out, the sentences completed before it
    are kept, and [read_block] returns at once: every line after [f],
    and so every later sentence of the block, stays unread in the
    stream. *)
Theorem read_block_skip_literal
    (ls : list str) (toks : list token) (xs : list str) (rest : stream) (fuel : nat) :
  sentence_of ls = Some toks ->
  map normalized xs = start :: body_lines blocks ++ ls ++ [FAILING_LINE_3] ->
  length xs < fuel ->
  read_block fuel (xs ++ rest) = Returns [mkDocument i t d ss] rest.
Proof.
  intros Hs Hxs Hf.
  destruct (body_split ls [FAILING_LINE_3] xs Hxs)
    as (x0 & xb & xp & xt & -> & Hx0 & Hxb & Hxp & Hxt).
  destruct xt as [|xf [|? ?]]; try discriminate. injection Hxt as Hxf.
  simpl in Hf. rewrite !length_app in Hf. simpl in Hf.
  simpl app. rewrite <- !app_assoc. simpl app.
  destruct (read_block_body ls toks x0 xb xp (xf :: rest) fuel Hs Hx0 Hxb Hxp)
    as (f1 & f2 & ->);
    [simpl; rewrite length_app; lia | intros _; simpl; now rewrite Hxf |].
  unfold bind at 1. unfold bind at 1. rewrite read_then, Hxf.
  rewrite sentence_loop_skip.
  unfold sentence_done. now rewrite equals_refl.
Qed.

(** C1, as the code has it: when the stream ends right after an
    unparsable line, the [break] of the truncation branch leaves only
    the inner loop; [line] still holds the unparsable line, so the outer
    loop starts over on it without end, and [read_block] returns
    nothing, whatever number of iterations it is granted. *)
Theorem read_block_truncated_unparsable
    (ls : list str) (toks : list token) (bad : str) (xs : list str) :
  sentence_of ls = Some toks ->
  in_sentence (Some bad) = true ->
  unparsable bad = true ->
  map normalized xs = start :: body_lines blocks ++ ls ++ [bad] ->
  forall fuel : nat, read_block fuel xs = OutOfFuel.
Proof.
  intros Hs Hin Hu Hxs.
  assert (Hbig : forall fuel, length xs < fuel -> read_block fuel xs = OutOfFuel).
  { intros fuel Hf.
    destruct (body_split ls [bad] xs Hxs)
      as (x0 & xb & xp & xt & -> & Hx0 & Hxb & Hxp & Hxt).
    destruct xt as [|xbad [|? ?]]; try discriminate. injection Hxt as Hxbad.
    simpl in Hf. rewrite !length_app in Hf. simpl in Hf.
    destruct (read_block_body ls toks x0 xb xp [xbad] fuel Hs Hx0 Hxb Hxp)
      as (f1 & f2 & ->);
      [simpl; rewrite length_app; lia
      | intros _; simpl; rewrite Hxbad; now apply in_sentence_in_body |].
    unfold bind at 1. unfold bind at 1. rewrite read_then, Hxbad.
    rewrite (sentence_loop_unparsable_end f1 bad toks Hin Hu).
    rewrite (sentence_done_unparsable _ _ bad toks [] Hin Hu).
    now rewrite (document_loop_stuck bad Hin Hu). }
  intros fuel.
  destruct (read_block fuel xs) as [docs s'|e|] eqn:E; [| |reflexivity];
    rewrite <- (read_block_mono fuel (fuel + S (length xs)) xs) in E
      by (lia || congruence);
    rewrite Hbig in E by lia; discriminate.
Qed.

(** An unparsable line followed by a further line is a [ValueError]. *)
Lemma read_block_unparsable_more
    (ls : list str) (toks : list token) (bad next : str)
    (xs : list str) (rest : stream) (fuel : nat) :
  sentence_of ls = Some toks ->
  in_sentence (Some bad) = true ->
  unparsable bad = true ->
  map normalized xs = start :: body_lines blocks ++ ls ++ [bad; next] ->
  length xs < fuel ->
  read_block fuel (xs ++ rest) =
  Raises (ValueError (text "Could not parse the following non-ending line: " ++ bad)).
Proof.
  intros Hs Hin Hu Hxs Hf.
  destruct (body_split ls [bad; next] xs Hxs)
    as (x0 & xb & xp & xt & -> & Hx0 & Hxb & Hxp & Hxt).
  destruct xt as [|xbad [|xnext [|? ?]]]; try discriminate.
  injection Hxt as Hxbad Hxnext.
  simpl in Hf. rewrite !length_app in Hf. simpl in Hf.
  simpl app. rewrite <- !app_assoc. simpl app.
  destruct (read_block_body ls toks x0 xb xp (xbad :: xnext :: rest) fuel Hs Hx0 Hxb Hxp)
    as (f1 & f2 & ->);
    [simpl; rewrite length_app; lia
    | intros _; simpl; rewrite Hxbad; now apply in_sentence_in_body |].
  unfold bind at 1. unfold bind at 1. rewrite read_then, Hxbad.
  now rewrite (sentence_loop_unparsable_more f1 bad toks xnext rest Hin Hu).
Qed.

End Body.

(** *** Runs on the sample inputs *)

Lemma read_block_truncated_mid_sentence_example :
  sentence_of [text "world world NN 0"; text "again again NN 0"]
  = Some [tok "world" "world" "NN" "0"; tok "again" "again" "NN" "0"]
  /\ read_block 6 cut_in_sentence =
     Returns [mkDocument (text "1") (text "X") (text "5")
                [[tok "Hello" "hello" "NN" "0"];
                 [tok "world" "world" "NN" "0"; tok "again" "again" "NN" "0"]]] [].
Proof.
  split; [vm_compute; reflexivity|].
  apply (read_block_truncated_mid_sentence example_start (text "1") (text "X") (text "5")
           [[text "Hello hello NN 0"]] [[tok "Hello" "hello" "NN" "0"]]
           eq_refl eq_refl
           [text "world world NN 0"; text "again again NN 0"]
           [tok "world" "world" "NN" "0"; tok "again" "again" "NN" "0"]
           cut_in_sentence 6);
    try (vm_compute; reflexivity). discriminate.
Defined.

(** The claim that the sentence in progress is dropped fails here: the
    Document holds two sentences, the second being the unfinished one. *)
Lemma truncated_sentence_is_kept :
  read_block 6 cut_in_sentence =
  Returns [mkDocument (text "1") (text "X") (text "5")
             [[tok "Hello" "hello" "NN" "0"];
              [tok "world" "world" "NN" "0"; tok "again" "again" "NN" "0"]]] []
  /\ read_block 6 cut_in_sentence <>
     Returns [mkDocument (text "1") (text "X") (text "5")
                [[tok "Hello" "hello" "NN" "0"]]] [].
Proof. split; [vm_compute; reflexivity | vm_compute; discriminate]. Qed.

Lemma read_block_skip_literal_example :
  sentence_of [text "lost lost NN 0"] = Some [tok "lost" "lost" "NN" "0"]
  /\ read_block 6 with_skip_literal =
     Returns [mkDocument (text "1") (text "X") (text "5")
                [[tok "Hello" "hello" "NN" "0"]]]
       (text "" :: text "world world NN 0" :: text "" :: footer_lines).
Proof.
  split; [vm_compute; reflexivity|].
  apply (read_block_skip_literal example_start (text "1") (text "X") (text "5")
           [[text "Hello hello NN 0"]] [[tok "Hello" "hello" "NN" "0"]]
           eq_refl eq_refl
           [text "lost lost NN 0"] [tok "lost" "lost" "NN" "0"]
           [example_start; text "Hello hello NN 0"; text "";
            text "lost lost NN 0"; text "f"]
           (text "" :: text "world world NN 0" :: text "" :: footer_lines) 6);
    vm_compute; reflexivity.
Defined.

(** The claim that the sentences after the skip literal are kept fails
    here: the sentence of [world] is in no sentence of the Document, and
    its lines are still in the stream. *)
Lemma sentence_after_skip_literal_is_lost :
  read_block 20 with_skip_literal =
  Returns [mkDocument (text "1") (text "X") (text "5")
             [[tok "Hello" "hello" "NN" "0"]]]
    (text "" :: text "world world NN 0" :: text "" :: footer_lines)
  /\ read_block 20 with_skip_literal <>
     Returns [mkDocument (text "1") (text "X") (text "5")
                [[tok "Hello" "hello" "NN" "0"]; [tok "world" "world" "NN" "0"]]] [].
Proof. split; [vm_compute; reflexivity | vm_compute; discriminate]. Qed.

Lemma read_block_truncated_unparsable_example :
  unparsable (text "garbage") = true
  /\ in_sentence (Some (text "garbage")) = true
  /\ read_block 1000 cut_after_unparsable = OutOfFuel.
Proof.
  split; [vm_compute; reflexivity|]. split; [vm_compute; reflexivity|].
  apply (read_block_truncated_unparsable example_start (text "1") (text "X") (text "5")
           [] [] eq_refl eq_refl
           [text "Hello hello NN 0"] [tok "Hello" "hello" "NN" "0"]
           (text "garbage") cut_after_unparsable);
    vm_compute; reflexivity.
Defined.

(** Before any start marker the same line is an error at once. *)
Example unparsable_line_before_start_marker :
  read_block 1000 [text "garbage"]
  = Raises (ValueError (text "Expected an opening document tag")).
Proof. vm_compute; reflexivity. Qed.

(** ** The [Fz 0] line *)

(** C7, as the code has it: for the line [Fz 0] the inner loop appends
    one token with empty word and lemma and the tag [Fz]; its sense is
    the integer [0] where every other branch gives text, so it is not
    the text [0]. *)
Theorem Fz_line_sense_is_an_integer (fuel : nat) (sent : list token) (s : stream) :
  sentence_loop (S fuel) (Some (text "Fz 0")) sent s =
  (line <- read_clean_line ;;
   sentence_loop fuel line
     (sent ++ [(VStr (text ""), VStr (text ""), VStr (text "Fz"), VInt 0)])) s
  /\ tokens_of (text "Fz 0")
     = Some [(VStr (text ""), VStr (text ""), VStr (text "Fz"), VInt 0)]
  /\ tokens_of (text "Fz 0")
     <> Some [(VStr (text ""), VStr (text ""), VStr (text "Fz"), VStr (text "0"))]
  /\ read_block 5 with_Fz_line
     = Returns [mkDocument (text "1") (text "X") (text "5")
                  [[tok "Hello" "hello" "NN" "0";
                    (VStr (text ""), VStr (text ""), VStr (text "Fz"), VInt 0)]]] [].
Proof.
  assert (H : tokens_of (text "Fz 0")
              = Some [(VStr (text ""), VStr (text ""), VStr (text "Fz"), VInt 0)])
    by (vm_compute; reflexivity).
  split; [|split; [|split]].
  - apply (tokens_of_step _ _ H).
  - exact H.
  - rewrite H. discriminate.
  - vm_compute; reflexivity.
Qed.

(** ** Two closing markers in a row *)

(** C8: when the first line read is empty, [read_block] reads one more
    line; if that line is the closing marker it returns no document and
    leaves the stream after it, and if it is anything else, or the
    stream has ended, the assertion on it fails. *)
Theorem read_block_duplicate_close (x1 : str) (s : stream) (fuel : nat) :
  normalized x1 = text "" ->
  (peek s = Some LINE_DOC_TAG_CLOSE -> read_block fuel (x1 :: s) = Returns [] (tl s))
  /\ (peek s <> Some LINE_DOC_TAG_CLOSE ->
      read_block fuel (x1 :: s) =
      Raises (AssertionError (text "Expected a closing body tag"))).
Proof.
  intros H1. unfold read_block. rewrite read_then, H1.
  change (re_match PATTERN_DOC_START (text "")) with (@None (list str)).
  cbv iota. rewrite eqb_refl.
  destruct s as [|x2 s]; simpl peek.
  - split; [discriminate|]. intros _. reflexivity.
  - rewrite read_then. unfold assert, equals.
    destruct (normalized x2 == LINE_DOC_TAG_CLOSE) eqn:E.
    + apply eqb_eq in E. split; [reflexivity|]. intros H. congruence.
    + apply eqb_neq in E. split; [|reflexivity]. intros H. congruence.
Qed.

Lemma read_block_duplicate_close_example :
  read_block 0 [text ""; LINE_DOC_TAG_CLOSE; example_start] = Returns [] [example_start]
  /\ read_block 0 [text ""; text "Hello hello NN 0"] =
     Raises (AssertionError (text "Expected a closing body tag"))
  /\ read_block 0 [text ""] =
     Raises (AssertionError (text "Expected a closing body tag")).
Proof.
  split; [|split].
  - apply (proj1 (read_block_duplicate_close (text "")
                    [LINE_DOC_TAG_CLOSE; example_start] 0 eq_refl)).
    vm_compute; reflexivity.
  - apply (proj2 (read_block_duplicate_close (text "")
                    [text "Hello hello NN 0"] 0 eq_refl)).
    vm_compute; discriminate.
  - apply (proj2 (read_block_duplicate_close (text "") [] 0 eq_refl)).
    vm_compute; discriminate.
Defined.

(** ** The stream already at its end *)

(** C10: when the first read finds the stream at its end, [line] is
    [None] and matching the start pattern against it is a [TypeError]:
    [read_block] neither returns an empty list nor raises the
    [ValueError] or the [AssertionError] of its own checks. *)
Theorem read_block_at_end_of_stream (fuel : nat) :
  read_block fuel [] = Raises TypeError
  /\ read_block fuel [] <> Returns [] []
  /\ (forall msg : str, read_block fuel [] <> Raises (ValueError msg))
  /\ (forall msg : str, read_block fuel [] <> Raises (AssertionError msg)).
Proof.
  assert (H : read_block fuel [] = Raises TypeError) by reflexivity.
  rewrite H. repeat split; try discriminate; intros msg; discriminate.
Qed.

(** ** What the token patterns match *)

Lemma consumed_app (a s : str) : consumed (a ++ s) s = a.
Proof.
  unfold consumed. rewrite length_app.
  replace (length a + length s - length s) with (length a) by lia.
  now rewrite firstn_app, Nat.sub_diag, firstn_all, firstn_0, app_nil_r.
Qed.

(** A greedy star takes the whole run when the rest of the pattern
    matches behind it. *)
Lemma star_k_greedy {R : Type} (cls : char -> bool) (a s : str)
    (k : str -> option R) (r : R) :
  forallb cls a = true -> stops cls s -> k s = Some r ->
  star_k cls (a ++ s) k = Some r.
Proof.
  intros Ha Hs Hk. induction a as [|c a IH]; simpl.
  - destruct s as [|c s]; [assumption|]. simpl in *. now rewrite Hs.
  - simpl in Ha. apply andb_true_iff in Ha as [Hc Ha].
    now rewrite Hc, (IH Ha).
Qed.

Lemma plus_k_greedy {R : Type} (cls : char -> bool) (a s : str)
    (k : str -> option R) (r : R) :
  run_of cls a -> stops cls s -> k s = Some r ->
  plus_k cls (a ++ s) k = Some r.
Proof.
  intros [Hne Ha] Hs Hk. destruct a as [|c a]; [contradiction|].
  simpl in *. apply andb_true_iff in Ha as [Hc Ha]. rewrite Hc.
  now apply star_k_greedy.
Qed.

Lemma stops_nonspace_run (a s : str) : run_of isspace a -> stops nonspace (a ++ s).
Proof.
  intros [Hne Ha]. destruct a as [|c a]; [contradiction|].
  simpl in *. apply andb_true_iff in Ha as [Hc _]. unfold nonspace. now rewrite Hc.
Qed.

Lemma stops_isspace_run (a s : str) : run_of nonspace a -> stops isspace (a ++ s).
Proof.
  intros [Hne Ha]. destruct a as [|c a]; [contradiction|].
  simpl in *. apply andb_true_iff in Ha as [Hc _]. unfold nonspace in Hc.
  now apply negb_true_iff in Hc.
Qed.

(** No decimal digit is whitespace. *)
Lemma isdecimal_nonspace (c : char) : isdecimal c = true -> isspace c = false.
Proof.
  intros Hc. destruct (isspace c) eqn:E; [|reflexivity].
  exfalso. revert Hc E. unfold isdecimal, isspace, decimal_zeros.
  cbn [existsb]. intros Hc E.
  repeat (apply orb_true_iff in Hc as [Hc|Hc]);
    try discriminate;
    apply andb_true_iff in Hc as [Ha Hb];
    apply N.leb_le in Ha; apply N.ltb_lt in Hb;
    repeat (apply orb_true_iff in E as [E|E]);
    try (apply andb_true_iff in E as [E1 E2]; apply N.leb_le in E1, E2; lia);
    try (apply N.eqb_eq in E; lia).
Qed.

Lemma stops_isspace_digits (a s : str) : run_of isdecimal a -> stops isspace (a ++ s).
Proof.
  intros [Hne Ha]. destruct a as [|c a]; [contradiction|].
  simpl in *. apply andb_true_iff in Ha as [Hc _]. now apply isdecimal_nonspace.
Qed.

(** [PATTERN_WORD.match] looks at the start of the line only: a record
    of three fields and a run of digits matches whatever comes after the
    digits. *)
Lemma PATTERN_WORD_prefix (w l t d sp1 sp2 sp3 rest : str) :
  run_of nonspace w -> run_of isspace sp1 ->
  run_of nonspace l -> run_of isspace sp2 ->
  run_of nonspace t -> run_of isspace sp3 ->
  run_of isdecimal d -> stops isdecimal rest ->
  re_match PATTERN_WORD (w ++ sp1 ++ l ++ sp2 ++ t ++ sp3 ++ d ++ rest)
  = Some [w; l; t; d].
Proof.
  intros Hw H1 Hl H2 Ht H3 Hd Hrest.
  unfold re_match, PATTERN_WORD. cbn [run].
  apply plus_k_greedy; [assumption|now apply stops_nonspace_run|].
  rewrite consumed_app.
  apply plus_k_greedy; [assumption|now apply stops_isspace_run|].
  apply plus_k_greedy; [assumption|now apply stops_nonspace_run|].
  rewrite consumed_app.
  apply plus_k_greedy; [assumption|now apply stops_isspace_run|].
  apply plus_k_greedy; [assumption|now apply stops_nonspace_run|].
  rewrite consumed_app.
  apply plus_k_greedy; [assumption|now apply stops_isspace_digits|].
  apply plus_k_greedy; [assumption|assumption|].
  now rewrite consumed_app.
Qed.

(** A line [PATTERN_WORD] matches is decoded into the four groups; no
    such line is [Fz 0] or one of the three failing lines. *)
Lemma tokens_of_PATTERN_WORD (line w l t d : str) :
  re_match PATTERN_WORD line = Some [w; l; t; d] ->
  in_sentence (Some line) = true ->
  unparsable line = false
  /\ tokens_of line = Some [(VStr w, VStr l, VStr t, VStr d)].
Proof.
  intros Hm Hin.
  assert (HFz : (line == text "Fz 0") = false).
  { apply eqb_neq. intros ->. vm_compute in Hm. discriminate. }
  assert (HF1 : (line == FAILING_LINE) = false).
  { apply eqb_neq. intros ->. vm_compute in Hm. discriminate. }
  assert (HF2 : (line == FAILING_LINE_2) = false).
  { apply eqb_neq. intros ->. vm_compute in Hm. discriminate. }
  assert (HF3 : (line == FAILING_LINE_3) = false).
  { apply eqb_neq. intros ->. vm_compute in Hm. discriminate. }
  assert (Hw : match_word line = Some [w; l; t; d]).
  { unfold match_word. now rewrite Hm. }
  split.
  - unfold unparsable. rewrite Hw. cbn [is_None]. now rewrite andb_false_r.
  - unfold tokens_of. rewrite sentence_loop_S, Hin.
    unfold decode. rewrite HFz, Hw, HF1, HF2, HF3. reflexivity.
Qed.

(** ** What the start pattern captures *)

Lemma strip_prefix_app (l s : str) : strip_prefix l (l ++ s) = Some s.
Proof.
  induction l as [|c l IH]; [reflexivity|]. simpl. now rewrite N.eqb_refl.
Qed.

Lemma no_after_title_nil : no_after_title [].
Proof. intros p q H. symmetry in H. apply app_eq_nil in H as [_ ->]. reflexivity. Qed.

Lemma no_after_title_cons (c : char) (s : str) :
  no_after_title s -> strip_prefix after_title (c :: s) = None ->
  no_after_title (c :: s).
Proof.
  intros Hs Hc p q H. destruct p as [|c' p].
  - simpl in H. now subst q.
  - injection H as _ H. now apply (Hs p q).
Qed.

Lemma strip_prefix_cons (a c : char) (l s : str) :
  strip_prefix (a :: l) (c :: s) = if (a =? c)%N then strip_prefix l s else None.
Proof. reflexivity. Qed.

Lemma after_title_eq :
  after_title = 34%N :: 32%N :: text "nonfiltered=" ++ dquote.
Proof. reflexivity. Qed.

Lemma isdecimal_not_quote (c : char) : isdecimal c = true -> (34 =? c)%N = false.
Proof.
  intros H. apply N.eqb_neq. intros <-. vm_compute in H. discriminate.
Qed.

Lemma isdecimal_not_space (c : char) : isdecimal c = true -> (32 =? c)%N = false.
Proof.
  intros H. apply N.eqb_neq. intros <-. vm_compute in H. discriminate.
Qed.

Lemma no_after_title_digits (ds s : str) :
  forallb isdecimal ds = true -> no_after_title s -> no_after_title (ds ++ s).
Proof.
  intros Hd Hs. induction ds as [|c ds IH]; [assumption|].
  simpl in Hd. apply andb_true_iff in Hd as [Hc Hd].
  apply no_after_title_cons; [now apply IH|].
  now rewrite after_title_eq, strip_prefix_cons, (isdecimal_not_quote c Hc).
Qed.

(** A quote in front of a run of digits does not start [after_title]. *)
Lemma quote_digits (ds s : str) :
  run_of isdecimal ds -> strip_prefix after_title (34%N :: ds ++ s) = None.
Proof.
  intros [Hne Hd]. destruct ds as [|c ds]; [contradiction|].
  simpl in Hd. apply andb_true_iff in Hd as [Hc _].
  rewrite after_title_eq, strip_prefix_cons, N.eqb_refl. simpl app.
  now rewrite strip_prefix_cons, (isdecimal_not_space c Hc).
Qed.

Ltac literals :=
  repeat match goal with
         | |- context [text ?l] =>
             let v := eval vm_compute in (text l) in change (text l) with v
         end;
  unfold dquote; cbn [app].

Ltac walk :=
  repeat (apply no_after_title_cons;
          [| first [reflexivity | now apply quote_digits]]).

(** The marker from [nonfiltered] on holds no later start of
    [after_title]. *)
Lemma tail_no_after_title (nf p db : str) :
  run_of isdecimal nf -> run_of isdecimal p -> run_of isdecimal db ->
  no_after_title
    (text " nonfiltered=" ++ dquote ++ nf ++ dquote
     ++ text " processed=" ++ dquote ++ p ++ dquote
     ++ text " dbindex=" ++ dquote ++ db ++ dquote ++ text ">").
Proof.
  intros Hnf Hp Hdb. literals.
  walk. apply no_after_title_digits; [apply Hnf|].
  walk. apply no_after_title_digits; [apply Hp|].
  walk. apply no_after_title_digits; [apply Hdb|].
  walk. apply no_after_title_nil.
Qed.

Lemma star_k_fail {R : Type} (cls : char -> bool) (s : str) (k : str -> option R) :
  (forall p q : str, s = p ++ q -> k q = None) -> star_k cls s k = None.
Proof.
  induction s as [|c s IH]; intros H; simpl.
  - now apply (H [] []).
  - rewrite IH by (intros p q ->; now apply (H (c :: p) q)).
    rewrite (H [] (c :: s) eq_refl). now destruct (cls c).
Qed.

(** A greedy star gives back what it took of [b] when the rest of the
    pattern matches at [b] and nowhere later. *)
Lemma star_k_backtrack {R : Type} (cls : char -> bool) (a c b : str)
    (k : str -> option R) (r : R) :
  forallb cls a = true -> k (c ++ b) = Some r ->
  (forall p q : str, b = p ++ q -> k q = None) ->
  length c = 1 ->
  star_k cls (a ++ c ++ b) k = Some r.
Proof.
  intros Ha Hk Hfail Hc.
  destruct c as [|c0 [|? ?]]; try discriminate. simpl app in *.
  induction a as [|x a IH]; simpl.
  - rewrite (star_k_fail cls b k Hfail), Hk. now destruct (cls c0).
  - simpl in Ha. apply andb_true_iff in Ha as [Hx Ha].
    now rewrite Hx, (IH Ha).
Qed.

Lemma strip_prefix_app2 (a l s : str) :
  strip_prefix (a ++ l) (a ++ s) = strip_prefix l s.
Proof.
  induction a as [|c a IH]; [reflexivity|]. simpl. now rewrite N.eqb_refl.
Qed.

(** The start pattern captures the three attributes of a start marker,
    whatever the title holds: the greedy [.*] gives back exactly the
    rest of the marker, for nothing later in it starts like the text the
    pattern has after the title. *)
Lemma PATTERN_DOC_START_groups (id_ title_ nonfiltered processed dbindex : str) :
  run_of isdecimal id_ -> forallb dot title_ = true ->
  run_of isdecimal nonfiltered -> run_of isdecimal processed ->
  run_of isdecimal dbindex ->
  re_match PATTERN_DOC_START (doc_start id_ title_ nonfiltered processed dbindex)
  = Some [id_; title_; dbindex].
Proof.
  intros Hid Hti Hnf Hp Hdb.
  unfold re_match, PATTERN_DOC_START, doc_start. cbn [run].
  rewrite ?strip_prefix_app2, strip_prefix_app.
  apply plus_k_greedy; [assumption|reflexivity|].
  rewrite consumed_app.
  rewrite ?strip_prefix_app2, strip_prefix_app.
  apply star_k_backtrack with (c := dquote); [assumption| | |reflexivity].
  - rewrite consumed_app.
    rewrite ?strip_prefix_app2, strip_prefix_app.
    apply plus_k_greedy; [assumption|reflexivity|].
    rewrite ?strip_prefix_app2, strip_prefix_app.
    apply plus_k_greedy; [assumption|reflexivity|].
    rewrite ?strip_prefix_app2, strip_prefix_app.
    apply plus_k_greedy; [assumption|reflexivity|].
    rewrite consumed_app.
    reflexivity.
  - intros p q Hq.
    pose proof (tail_no_after_title nonfiltered processed dbindex Hnf Hp Hdb p q Hq)
      as Hfail.
    unfold after_title in Hfail. now rewrite Hfail.
Qed.

Example example_start_groups :
  re_match PATTERN_DOC_START example_start = Some [text "1"; text "X"; text "5"].
Proof.
  apply PATTERN_DOC_START_groups;
    try (split; [discriminate | reflexivity]); reflexivity.
Qed.

(** ** Unparsable lines are errors; prefixes of records are not *)

(** C6, as the code has it: inside a document body, a line that is not
    blank, not a marker, not [Fz 0], not in the corruption table, not
    the skip literal, and of which no token pattern matches a prefix, is
    a [ValueError] whenever a further line follows it.  The patterns are
    anchored at the start of the line only: a line that starts with
    three fields and a run of digits is not such a line, whatever
    follows the digits; it is decoded into those four groups. *)
Theorem unparsable_line_is_an_error :
  (forall (start i t d : str) (blocks : list (list str)) (ss : list (list token))
          (ls : list str) (toks : list token) (bad next : str)
          (xs : list str) (rest : stream) (fuel : nat),
      re_match PATTERN_DOC_START start = Some [i; t; d] ->
      sentences_of blocks = Some ss ->
      sentence_of ls = Some toks ->
      in_sentence (Some bad) = true ->
      unparsable bad = true ->
      map normalized xs = start :: body_lines blocks ++ ls ++ [bad; next] ->
      length xs < fuel ->
      read_block fuel (xs ++ rest) =
      Raises (ValueError
                (text "Could not parse the following non-ending line: " ++ bad)))
  /\ (forall (w l t d sp1 sp2 sp3 rest : str),
         run_of nonspace w -> run_of isspace sp1 ->
         run_of nonspace l -> run_of isspace sp2 ->
         run_of nonspace t -> run_of isspace sp3 ->
         run_of isdecimal d -> stops isdecimal rest ->
         in_sentence (Some (w ++ sp1 ++ l ++ sp2 ++ t ++ sp3 ++ d ++ rest)) = true ->
         unparsable (w ++ sp1 ++ l ++ sp2 ++ t ++ sp3 ++ d ++ rest) = false
         /\ tokens_of (w ++ sp1 ++ l ++ sp2 ++ t ++ sp3 ++ d ++ rest)
            = Some [(VStr w, VStr l, VStr t, VStr d)]).
Proof.
  split.
  - intros. eapply read_block_unparsable_more; eassumption.
  - intros w l t d sp1 sp2 sp3 rest Hw H1 Hl H2 Ht H3 Hd Hrest Hin.
    apply tokens_of_PATTERN_WORD; [|assumption].
    now apply PATTERN_WORD_prefix.
Qed.

Lemma unparsable_line_is_an_error_example :
  read_block 5 with_unparsable_line
  = Raises (ValueError
              (text "Could not parse the following non-ending line: garbage"))
  /\ tokens_of (text "a b c 12abc") = Some [tok "a" "b" "c" "12"]
  /\ tokens_of (text "x y z 0 extra") = Some [tok "x" "y" "z" "0"].
Proof.
  split; [|split].
  - apply (proj1 unparsable_line_is_an_error example_start (text "1") (text "X") (text "5")
             [] [] [text "Hello hello NN 0"] [tok "Hello" "hello" "NN" "0"]
             (text "garbage") (text "world world NN 0")
             with_unparsable_line [] 5); vm_compute; reflexivity.
  - apply (proj2 unparsable_line_is_an_error (text "a") (text "b") (text "c") (text "12")
             (text " ") (text " ") (text " ") (text "abc"));
      try (split; [discriminate | vm_compute; reflexivity]);
      vm_compute; reflexivity.
  - apply (proj2 unparsable_line_is_an_error (text "x") (text "y") (text "z") (text "0")
             (text " ") (text " ") (text " ") (text " extra"));
      try (split; [discriminate | vm_compute; reflexivity]);
      vm_compute; reflexivity.
Defined.

(** The claim that a fourth field which only starts with digits, or a
    fifth field, makes a line an error fails here: neither line is a
    record as the specification words it, each is followed by a further
    line, and [read_block] returns a Document with a token for each. *)
Lemma prefix_of_record_is_parsed :
  record_as_specified (text "a b c 12abc") = false
  /\ record_as_specified (text "x y z 0 extra") = false
  /\ read_block 6 with_longer_records
     = Returns [mkDocument (text "1") (text "X") (text "5")
                  [[tok "a" "b" "c" "12"; tok "x" "y" "z" "0"]]] [].
Proof. repeat split; vm_compute; reflexivity. Qed.

(** * Further properties *)

(** ** What the token patterns reject *)

(** A greedy star takes exactly the run when the rest of the pattern
    cannot start with a character of the class. *)
Lemma star_k_exact {R : Type} (cls : char -> bool) (a s : str) (k : str -> option R) :
  forallb cls a = true -> stops cls s ->
  (forall (c : char) (q : str), cls c = true -> k (c :: q) = None) ->
  star_k cls (a ++ s) k = k s.
Proof.
  intros Ha Hs Hk. induction a as [|c a IH]; simpl.
  - destruct s as [|c s]; [reflexivity|]. simpl in *. now rewrite Hs.
  - simpl in Ha. apply andb_true_iff in Ha as [Hc Ha].
    rewrite Hc, (IH Ha). destruct (k s) eqn:E; [reflexivity|].
    now apply Hk.
Qed.

Lemma plus_k_exact {R : Type} (cls : char -> bool) (a s : str) (k : str -> option R) :
  run_of cls a -> stops cls s ->
  (forall (c : char) (q : str), cls c = true -> k (c :: q) = None) ->
  plus_k cls (a ++ s) k = k s.
Proof.
  intros [Hne Ha] Hs Hk. destruct a as [|c a]; [contradiction|].
  simpl in *. apply andb_true_iff in Ha as [Hc Ha]. rewrite Hc.
  now apply star_k_exact.
Qed.

Lemma plus_k_stops {R : Type} (cls : char -> bool) (s : str) (k : str -> option R) :
  stops cls s -> plus_k cls s k = None.
Proof. destruct s as [|c s]; [reflexivity|]. simpl. now intros ->. Qed.

Lemma space_not_decimal (c : char) : isspace c = true -> isdecimal c = false.
Proof.
  intros H. destruct (isdecimal c) eqn:E; [|reflexivity].
  apply isdecimal_nonspace in E. congruence.
Qed.

Ltac reject :=
  let c := fresh "c" in let q := fresh "q" in let H := fresh "H" in
  intros c q H; cbn [plus_k];
  first [ unfold nonspace in H; apply negb_true_iff in H; now rewrite H
        | unfold nonspace; now rewrite H
        | now rewrite (space_not_decimal c H) ].

Ltac one_field :=
  rewrite plus_k_exact;
  [ | assumption
    | first [ now apply stops_nonspace_run | now apply stops_isspace_run
            | now apply stops_isspace_digits ]
    | reject ].

Lemma PATTERN_WORD_two_words (w1 w2 l1 l2 sA sB sC rest : str) :
  run_of nonspace w1 -> run_of isspace sA ->
  run_of nonspace w2 -> run_of isspace sB ->
  run_of nonspace l1 -> run_of isspace sC ->
  run_of nonspace l2 -> stops isdecimal l2 ->
  re_match PATTERN_WORD (w1 ++ sA ++ w2 ++ sB ++ l1 ++ sC ++ l2 ++ rest) = None.
Proof.
  intros Hw1 HA Hw2 HB Hl1 HC Hl2 Hstop. unfold re_match, PATTERN_WORD. cbn [run].
  do 6 one_field.
  apply plus_k_stops. destruct Hl2 as [Hne _].
  destruct l2; [contradiction|assumption].
Qed.

Lemma consumed_app3 (a b c s : str) : consumed (a ++ b ++ c ++ s) s = a ++ b ++ c.
Proof. rewrite !app_assoc, consumed_app. now rewrite <- app_assoc. Qed.

Lemma PATTERN_WORD_DOUBLE_groups (w1 w2 l1 l2 t d sA sB sC sD sE rest : str) :
  run_of nonspace w1 -> run_of isspace sA ->
  run_of nonspace w2 -> run_of isspace sB ->
  run_of nonspace l1 -> run_of isspace sC ->
  run_of nonspace l2 -> run_of isspace sD ->
  run_of nonspace t -> run_of isspace sE ->
  run_of isdecimal d -> stops isdecimal rest ->
  re_match PATTERN_WORD_DOUBLE
    (w1 ++ sA ++ w2 ++ sB ++ l1 ++ sC ++ l2 ++ sD ++ t ++ sE ++ d ++ rest)
  = Some [w1 ++ sA ++ w2; l1 ++ sC ++ l2; t; d].
Proof.
  intros Hw1 HA Hw2 HB Hl1 HC Hl2 HD Ht HE Hd Hrest.
  unfold re_match, PATTERN_WORD_DOUBLE. cbn [run].
  do 10 one_field.
  apply plus_k_greedy; [assumption|assumption|].
  now rewrite !consumed_app3, !consumed_app.
Qed.

Lemma consumed_app5 (a b c d e s : str) :
  consumed (a ++ b ++ c ++ d ++ e ++ s) s = a ++ b ++ c ++ d ++ e.
Proof. rewrite !app_assoc, consumed_app. now rewrite <- !app_assoc. Qed.

Lemma PATTERN_WORD_DOUBLE_three_words
    (w1 w2 w3 l1 l2 l3 sA sB sC sD sE rest : str) :
  run_of nonspace w1 -> run_of isspace sA ->
  run_of nonspace w2 -> run_of isspace sB ->
  run_of nonspace w3 -> run_of isspace sC ->
  run_of nonspace l1 -> run_of isspace sD ->
  run_of nonspace l2 -> run_of isspace sE ->
  run_of nonspace l3 -> stops isdecimal l3 ->
  re_match PATTERN_WORD_DOUBLE
    (w1 ++ sA ++ w2 ++ sB ++ w3 ++ sC ++ l1 ++ sD ++ l2 ++ sE ++ l3 ++ rest) = None.
Proof.
  intros Hw1 HA Hw2 HB Hw3 HC Hl1 HD Hl2 HE Hl3 Hstop.
  unfold re_match, PATTERN_WORD_DOUBLE. cbn [run].
  do 10 one_field.
  apply plus_k_stops. destruct Hl3 as [Hne _].
  destruct l3; [contradiction|assumption].
Qed.

Lemma PATTERN_WORD_TRIPLE_groups
    (w1 w2 w3 l1 l2 l3 t d sA sB sC sD sE sF sG rest : str) :
  run_of nonspace w1 -> run_of isspace sA ->
  run_of nonspace w2 -> run_of isspace sB ->
  run_of nonspace w3 -> run_of isspace sC ->
  run_of nonspace l1 -> run_of isspace sD ->
  run_of nonspace l2 -> run_of isspace sE ->
  run_of nonspace l3 -> run_of isspace sF ->
  run_of nonspace t -> run_of isspace sG ->
  run_of isdecimal d -> stops isdecimal rest ->
  re_match PATTERN_WORD_TRIPLE
    (w1 ++ sA ++ w2 ++ sB ++ w3 ++ sC ++ l1 ++ sD ++ l2 ++ sE ++ l3 ++ sF
     ++ t ++ sG ++ d ++ rest)
  = Some [w1 ++ sA ++ w2 ++ sB ++ w3; l1 ++ sD ++ l2 ++ sE ++ l3; t; d].
Proof.
  intros Hw1 HA Hw2 HB Hw3 HC Hl1 HD Hl2 HE Hl3 HF Ht HG Hd Hrest.
  unfold re_match, PATTERN_WORD_TRIPLE. cbn [run].
  do 14 one_field.
  apply plus_k_greedy; [assumption|assumption|].
  now rewrite !consumed_app5, !consumed_app.
Qed.

(** ** Every run of the loops *)

(** The token of a decoded line has one of the three shapes. *)
Lemma decode_shape (l : str) (s s' : stream) (tok : token) :
  decode l s = Returns (Next tok) s' -> token_shape tok = true.
Proof.
  unfold decode.
  destruct (l == text "Fz 0").
  { intros H. injection H as <- _. reflexivity. }
  unfold bind.
  destruct (is_None (match_word l) && (l != FAILING_LINE) && (l != FAILING_LINE_2)
            && (l != FAILING_LINE_3)).
  { destruct (read_clean_line s) as [[x|] s1| |]; discriminate. }
  unfold ret.
  destruct (l == FAILING_LINE); [intros H; injection H as <- _; reflexivity|].
  destruct (l == FAILING_LINE_2); [intros H; injection H as <- _; reflexivity|].
  destruct (l == FAILING_LINE_3); [discriminate|].
  destruct (match_word l) as [[|w [|le [|t [|se [|? ?]]]]]|]; try discriminate.
  intros H; injection H as <- _; reflexivity.
Qed.

(** One turn of the inner loop on a line of a sentence: it stops at an
    unparsable line with the stream at its end or at the skip literal,
    raises, or goes on with the next line and one or two more tokens. *)
Lemma sentence_loop_turn (fuel : nat) (l : str) (sent : list token) (s : stream) :
  in_sentence (Some l) = true ->
  (unparsable l = true /\ s = []
   /\ sentence_loop (S fuel) (Some l) sent s = Returns (Some l, sent) s)
  \/ (l = FAILING_LINE_3
      /\ sentence_loop (S fuel) (Some l) sent s = Returns (Some l, sent) s)
  \/ (exists e : exn, sentence_loop (S fuel) (Some l) sent s = Raises e)
  \/ (exists (more : list token) (line1 : option str) (s1 : stream),
         read_clean_line s = Returns line1 s1
         /\ more <> [] /\ forallb token_shape more = true
         /\ sentence_loop (S fuel) (Some l) sent s
            = sentence_loop fuel line1 (sent ++ more) s1).
Proof.
  intros Hin.
  remember (sentence_loop (S fuel) (Some l) sent s) as r eqn:E.
  rewrite sentence_loop_S, Hin in E. unfold bind at 1 in E.
  destruct (unparsable l) eqn:Hu.
  - destruct s as [|x s].
    + left. rewrite (decode_unparsable_end l Hu) in E. now repeat split.
    + right. right. left. rewrite (decode_unparsable_more l x s Hu) in E.
      eexists. exact E.
  - destruct (decode_cases l Hu) as [[tok Hd]|[[-> Hd]|[e Hd]]]; rewrite Hd in E.
    + right. right. right.
      pose proof (decode_shape l s s tok (Hd s)) as Hshape.
      destruct (read_clean_line_ahead s) as (line1 & s1 & Hr & _).
      cbv zeta in E. unfold bind in E. rewrite Hr in E.
      destruct (l == FAILING_LINE).
      * exists [tok; (VStr FAILING_LINE_EXTRA_WORD, VNone, VNone, VNone)], line1, s1.
        repeat split; try discriminate; try assumption.
        -- cbn [forallb]. rewrite Hshape. reflexivity.
        -- now rewrite <- app_assoc in E.
      * exists [tok], line1, s1. repeat split; try discriminate; try assumption.
        cbn [forallb]. now rewrite Hshape.
    + right. left. now split.
    + right. right. left. eexists. exact E.
Qed.

Lemma read_on_refl (line : option str) (s : stream) : read_on line s line s.
Proof. left. now split. Qed.

(** Reading one line from a state with a line in hand. *)
Lemma read_on_read (l : str) (s : stream) (line1 : option str) (s1 : stream) :
  read_clean_line s = Returns line1 s1 -> read_on (Some l) s line1 s1.
Proof.
  intros H. right. split; [discriminate|].
  destruct s as [|x s].
  - rewrite read_clean_line_nil in H. injection H as <- <-. now right.
  - rewrite read_clean_line_cons in H. injection H as <- <-.
    left. now exists [], x.
Qed.

Lemma read_on_trans (l0 l1 l2 : option str) (s0 s1 s2 : stream) :
  read_on l0 s0 l1 s1 -> read_on l1 s1 l2 s2 -> read_on l0 s0 l2 s2.
Proof.
  intros [[-> ->]|[Hl0 H01]] H12; [assumption|].
  destruct H12 as [[-> ->]|[Hl1 H12]]; [right; now split|].
  right. split; [assumption|].
  destruct H12 as [(p & x & -> & ->)|[-> ->]]; [|now right].
  destruct H01 as [(p0 & x0 & -> & _)|[-> _]]; [|contradiction].
  left. exists (p0 ++ x0 :: p), x. split; [|reflexivity].
  now rewrite <- app_assoc.
Qed.

(** What was read is gone from the front of the stream. *)
Lemma read_on_suffix (l0 l1 : option str) (s0 s1 : stream) :
  read_on l0 s0 l1 s1 -> exists p : list str, s0 = p ++ s1.
Proof.
  intros [[_ ->]|[_ [(p & x & -> & _)|[_ ->]]]].
  - now exists [].
  - exists (p ++ [x]). now rewrite <- app_assoc.
  - exists s0. now rewrite app_nil_r.
Qed.

(** The lines ahead after reading are the last of the lines ahead
    before. *)
Lemma read_on_ahead (l0 l1 : option str) (s0 s1 : stream) :
  read_on l0 s0 l1 s1 ->
  exists p : list str,
    ahead l0 s0 = p ++ ahead l1 s1 /\ (p = [] -> l1 = l0 /\ s1 = s0).
Proof.
  intros [[-> ->]|[Hl0 H]].
  - exists []. now split.
  - destruct l0 as [l|]; [|contradiction].
    destruct H as [(p & x & -> & ->)|[-> ->]].
    + exists (l :: map normalized p). split; [|discriminate].
      simpl. now rewrite map_app.
    + exists (l :: map normalized s0). split; [|discriminate].
      simpl. now rewrite app_nil_r.
Qed.

(** How the inner loop hands back, whatever the input: it has only read
    on, its tokens have the three shapes, and it stopped at the skip
    literal, at an unparsable line with the stream at its end, or at a
    line that is not part of a sentence. *)
Lemma sentence_loop_returns (fuel : nat) :
  forall (line : option str) (sent : list token) (s : stream)
         (line' : option str) (sent' : list token) (s' : stream),
    sentence_loop fuel line sent s = Returns (line', sent') s' ->
    read_on line s line' s'
    /\ (forallb token_shape sent = true -> forallb token_shape sent' = true)
    /\ (line' = Some FAILING_LINE_3
        \/ (exists l : str,
               line' = Some l /\ in_sentence (Some l) = true
               /\ unparsable l = true /\ s' = [])
        \/ in_sentence line' = false).
Proof.
  induction fuel as [|fuel IH]; intros line sent s line' sent' s' H; [discriminate|].
  destruct (in_sentence line) eqn:Hin.
  2:{ rewrite sentence_loop_stop in H by assumption. injection H as <- <- <-.
      split; [apply read_on_refl|]. split; [trivial|]. right. right. exact Hin. }
  destruct line as [l|]; [|discriminate].
  destruct (sentence_loop_turn fuel l sent s Hin)
    as [(Hu & -> & E)|[(-> & E)|[(e & E)|(more & line1 & s1 & Hr & _ & Hshape & E)]]];
    rewrite E in H.
  - injection H as <- <- <-. split; [apply read_on_refl|]. split; [trivial|].
    right. left. now exists l.
  - injection H as <- <- <-. split; [apply read_on_refl|]. split; [trivial|].
    now left.
  - discriminate.
  - destruct (IH line1 _ s1 line' sent' s' H) as (Hread & Hs & Hhow).
    split; [|split; [|assumption]].
    + apply read_on_trans with (l1 := line1) (s1 := s1); [|assumption].
      now apply read_on_read.
    + intros Hsent. apply Hs. rewrite forallb_app, Hsent, Hshape. reflexivity.
Qed.

(** The inner loop always comes to an end: a turn that goes on has read
    a line. *)
Lemma sentence_loop_total (fuel : nat) :
  forall (line : option str) (sent : list token) (s : stream),
    length (ahead line s) < fuel -> sentence_loop fuel line sent s <> OutOfFuel.
Proof.
  induction fuel as [|fuel IH]; intros line sent s Hf; [lia|].
  destruct (in_sentence line) eqn:Hin.
  2:{ rewrite sentence_loop_stop by assumption. discriminate. }
  destruct line as [l|]; [|discriminate].
  destruct (sentence_loop_turn fuel l sent s Hin)
    as [(Hu & -> & E)|[(-> & E)|[(e & E)|(more & line1 & s1 & Hr & _ & _ & E)]]];
    rewrite E; try discriminate.
  apply IH. destruct (read_clean_line_ahead s) as (line2 & s2 & Hr2 & Ha).
  rewrite Hr in Hr2. injection Hr2 as <- <-.
  rewrite Ha. simpl in Hf. lia.
Qed.

Lemma last_parsable_suffix (p q : list str) :
  last_parsable (p ++ q) -> last_parsable q.
Proof.
  unfold last_parsable. rewrite rev_app_distr.
  destruct (rev q) as [|l r]; [trivial|]. now simpl.
Qed.

(** How the outer loop hands back, whatever the input: it has only read
    on and the tokens of its sentences have the three shapes. *)
Lemma document_loop_returns (fuel : nat) :
  forall (line : option str) (doc_sents : list (list token)) (s : stream)
         (line' : option str) (doc_sents' : list (list token)) (s' : stream),
    document_loop fuel line doc_sents s = Returns (line', doc_sents') s' ->
    read_on line s line' s'
    /\ (forallb (forallb token_shape) doc_sents = true ->
        forallb (forallb token_shape) doc_sents' = true).
Proof.
  induction fuel as [|fuel IH]; intros line doc_sents s line' doc_sents' s' H;
    [discriminate|].
  rewrite document_loop_S in H.
  destruct (in_body line) eqn:Hbody.
  2:{ injection H as <- <- <-. split; [apply read_on_refl|trivial]. }
  unfold bind in H.
  destruct (sentence_loop fuel line [] s) as [[line1 sent1] s1| |] eqn:E;
    try discriminate.
  destruct (sentence_loop_returns fuel line [] s line1 sent1 s1 E)
    as (Hread & Hshape & _).
  specialize (Hshape eq_refl).
  unfold sentence_done in H.
  destruct (equals line1 FAILING_LINE_3).
  { injection H as <- <- <-. split; [assumption|trivial]. }
  cbv zeta in H.
  assert (Hall : forallb (forallb token_shape) doc_sents = true ->
                 forallb (forallb token_shape) (doc_sents ++ [sent1]) = true).
  { intros Hd. rewrite forallb_app, Hd. simpl. now rewrite Hshape. }
  destruct (equals line1 (text "")) eqn:Eblank.
  - unfold bind in H.
    destruct (read_clean_line s1) as [line2 s2| |] eqn:Hr; try discriminate.
    destruct (IH line2 _ s2 line' doc_sents' s' H) as (Hread2 & Hshape2).
    split; [|auto].
    apply read_on_trans with (l1 := line1) (s1 := s1); [assumption|].
    apply read_on_trans with (l1 := line2) (s1 := s2); [|assumption].
    destruct line1 as [l1|]; [|discriminate]. now apply read_on_read.
  - destruct (is_None line1).
    + injection H as <- <- <-. split; [assumption|auto].
    + destruct (IH line1 _ s1 line' doc_sents' s' H) as (Hread2 & Hshape2).
      split; [|auto].
      now apply read_on_trans with (l1 := line1) (s1 := s1).
Qed.

(** The outer loop comes to an end unless the last line of the stream
    is one the inner loop takes up and no grammar matches. *)
Lemma document_loop_total (fuel : nat) :
  forall (line : option str) (doc_sents : list (list token)) (s : stream),
    length (ahead line s) + 1 < fuel ->
    last_parsable (ahead line s) ->
    document_loop fuel line doc_sents s <> OutOfFuel.
Proof.
  induction fuel as [|fuel IH]; intros line doc_sents s Hf Hlast; [lia|].
  rewrite document_loop_S.
  destruct (in_body line) eqn:Hbody; [|discriminate].
  unfold bind.
  pose proof (sentence_loop_total fuel line [] s) as Htotal.
  destruct (sentence_loop fuel line [] s) as [[line1 sent1] s1| |] eqn:E;
    [|discriminate|exfalso; apply Htotal; [lia|reflexivity]].
  destruct (sentence_loop_returns fuel line [] s line1 sent1 s1 E)
    as (Hread & _ & Hhow).
  destruct (read_on_ahead line line1 s s1 Hread) as (p & Hp & Hsame).
  unfold sentence_done.
  destruct Hhow as [->|[(l & -> & Hin & Hu & ->)|Hstop]].
  - rewrite equals_refl. discriminate.
  - exfalso. rewrite Hp in Hlast. apply last_parsable_suffix in Hlast.
    unfold last_parsable in Hlast. simpl in Hlast.
    rewrite Hin, Hu in Hlast. discriminate.
  - destruct (in_sentence_stop line1 Hstop) as [-> | [-> | [-> | ->]]].
    + discriminate.
    + change (equals (Some (text "")) FAILING_LINE_3) with false.
      cbv iota zeta. rewrite equals_refl. unfold bind.
      destruct (read_clean_line_ahead s1) as (line2 & s2 & Hr & Ha).
      rewrite Hr. apply IH.
      * rewrite Ha. rewrite Hp, length_app in Hf. simpl in Hf. lia.
      * rewrite Ha. rewrite Hp in Hlast.
        change (ahead (Some (text "")) s1) with ([text ""] ++ map normalized s1) in Hlast.
        rewrite app_assoc in Hlast. now apply last_parsable_suffix in Hlast.
    + change (equals (Some LINE_END_OF_ARTICLE) FAILING_LINE_3) with false.
      change (equals (Some LINE_END_OF_ARTICLE) (text "")) with false.
      cbv iota zeta. cbn [is_None].
      destruct fuel as [|fuel]; [lia|].
      rewrite document_loop_stop by reflexivity. discriminate.
    + change (equals (Some LINE_DOC_TAG_CLOSE) FAILING_LINE_3) with false.
      change (equals (Some LINE_DOC_TAG_CLOSE) (text "")) with false.
      cbv iota zeta. cbn [is_None].
      destruct fuel as [|fuel]; [lia|].
      rewrite document_loop_stop by reflexivity. discriminate.
Qed.

(** The reads and checks after the outer loop: they return the one
    Document, with less of the stream, or raise. *)
Lemma document_done_returns (i t d : str) (line : option str)
    (doc_sents : list (list token)) (s : stream) :
  (exists s' p, document_done i t d (line, doc_sents) s
                = Returns [mkDocument i t d doc_sents] s' /\ s = p ++ s')
  \/ (exists e, document_done i t d (line, doc_sents) s = Raises e).
Proof.
  remember (document_done i t d (line, doc_sents) s) as r eqn:E.
  unfold document_done in E.
  destruct (equals line LINE_END_OF_ARTICLE).
  2:{ left. exists s, []. now split. }
  unfold bind, assert, ret, raise in E.
  destruct s as [|x2 s].
  { right. rewrite read_clean_line_nil in E. eexists. exact E. }
  rewrite read_clean_line_cons in E.
  destruct (equals (Some (normalized x2)) (text ". . Fp 0"));
    [|right; eexists; exact E].
  destruct s as [|x3 s].
  { right. rewrite read_clean_line_nil in E. eexists. exact E. }
  rewrite read_clean_line_cons in E.
  destruct (equals (Some (normalized x3)) (text ""));
    [|right; eexists; exact E].
  destruct s as [|x4 s].
  { right. rewrite read_clean_line_nil in E. eexists. exact E. }
  rewrite read_clean_line_cons in E.
  destruct (equals (Some (normalized x4)) LINE_DOC_TAG_CLOSE);
    [|right; eexists; exact E].
  left. exists s, [x2; x3; x4]. now split.
Qed.

(** ** Every run of [read_block] *)

(** How [read_block] returns, whatever the input: it has read the first
    line and some lines after it, and either that line was blank, the
    next one the closing marker and no Document is returned, or the
    start pattern matched the first line and the one Document returned
    has the three captured fields and tokens of the three shapes. *)
Lemma read_block_returns (fuel : nat) (s : stream) (docs : list Document) (s' : stream) :
  read_block fuel s = Returns docs s' ->
  exists (x : str) (p : list str),
    s = x :: p ++ s'
    /\ ((docs = [] /\ normalized x = text ""
         /\ exists x2 : str, p = [x2] /\ normalized x2 = LINE_DOC_TAG_CLOSE)
        \/ (exists (i t d : str) (ss : list (list token)),
               docs = [mkDocument i t d ss]
               /\ re_match PATTERN_DOC_START (normalized x) = Some [i; t; d]
               /\ forallb (forallb token_shape) ss = true)).
Proof.
  intros H. destruct s as [|x s]; [discriminate|].
  destruct (re_match PATTERN_DOC_START (normalized x))
    as [[|i [|t [|d [|? ?]]]]|] eqn:Hm;
    try (unfold read_block in H; rewrite read_then, Hm in H; discriminate).
  - rewrite (read_block_start (normalized x) i t d Hm fuel x s eq_refl) in H.
    unfold bind in H.
    destruct (read_clean_line_ahead s) as (line & s1 & Hr & Ha).
    rewrite Hr in H.
    destruct (document_loop fuel line [] s1) as [[line2 ss] s2| |] eqn:E;
      try discriminate.
    destruct (document_loop_returns fuel line [] s1 line2 ss s2 E) as (Hread & Hshape).
    destruct (read_on_suffix _ _ _ _ Hread) as (p1 & Hp1).
    destruct (document_done_returns i t d line2 ss s2) as [(s3 & p2 & Hd & Hp2)|(e & Hd)];
      rewrite Hd in H; [|discriminate].
    injection H as <- <-.
    assert (Hs : exists p0 : list str, s = p0 ++ s1).
    { destruct s as [|x1 s].
      - rewrite read_clean_line_nil in Hr. injection Hr as _ <-. now exists [].
      - rewrite read_clean_line_cons in Hr. injection Hr as _ <-. now exists [x1]. }
    destruct Hs as (p0 & ->).
    exists x, (p0 ++ p1 ++ p2). split.
    + rewrite Hp1, Hp2. now rewrite <- !app_assoc.
    + right. exists i, t, d, ss. repeat split; [assumption|now apply Hshape].
  - unfold read_block in H. rewrite read_then, Hm in H.
    destruct (normalized x == text "") eqn:Hblank; [|discriminate].
    apply eqb_eq in Hblank.
    destruct s as [|x2 s]; [discriminate|].
    rewrite read_then in H. unfold assert, equals in H.
    destruct (normalized x2 == LINE_DOC_TAG_CLOSE) eqn:Hclose; [|discriminate].
    apply eqb_eq in Hclose.
    injection H as <- <-.
    exists x, [x2]. split; [reflexivity|]. left.
    repeat split; [assumption|]. now exists x2.
Qed.

(** [read_block] comes to an end once it is granted more iterations
    than the stream has lines, unless the last line is one the inner
    loop takes up and no grammar matches. *)
Lemma read_block_total (fuel : nat) (s : stream) :
  length s < fuel ->
  last_parsable (map normalized (tl s)) ->
  read_block fuel s <> OutOfFuel.
Proof.
  intros Hf Hlast. destruct s as [|x s]; [discriminate|].
  destruct (re_match PATTERN_DOC_START (normalized x))
    as [[|i [|t [|d [|? ?]]]]|] eqn:Hm;
    try (unfold read_block; rewrite read_then, Hm; discriminate).
  - rewrite (read_block_start (normalized x) i t d Hm fuel x s eq_refl).
    unfold bind.
    destruct (read_clean_line_ahead s) as (line & s1 & Hr & Ha).
    rewrite Hr. simpl in Hf, Hlast.
    pose proof (document_loop_total fuel line [] s1) as Htotal.
    rewrite Ha, length_map in Htotal.
    destruct (document_loop fuel line [] s1) as [[line2 ss] s2| |] eqn:E.
    + destruct (document_done_returns i t d line2 ss s2) as [(s3 & p2 & Hd & Hp2)|(e & Hd)];
        rewrite Hd; discriminate.
    + discriminate.
    + exfalso. apply Htotal; [lia|assumption|reflexivity].
  - unfold read_block. rewrite read_then, Hm.
    destruct (normalized x == text ""); [|discriminate].
    destruct s as [|x2 s]; [discriminate|].
    rewrite read_then. unfold assert.
    destruct (equals (Some (normalized x2)) LINE_DOC_TAG_CLOSE); discriminate.
Qed.

(** The three shapes, spelled out. *)
Lemma token_shape_cases (tk : token) :
  token_shape tk = true ->
  (exists word lemma tag sense : str, tk = (VStr word, VStr lemma, VStr tag, VStr sense))
  \/ tk = (VStr (text ""), VStr (text ""), VStr (text "Fz"), VInt 0)
  \/ tk = (VStr FAILING_LINE_EXTRA_WORD, VNone, VNone, VNone).
Proof.
  destruct tk as [[[w l] tag] sense]. unfold token_shape.
  destruct w as [w| |]; try discriminate.
  destruct l as [l| |]; try discriminate.
  - destruct tag as [tag| |]; try discriminate.
    destruct sense as [sense|n|]; try discriminate.
    + intros _. left. now exists w, l, tag, sense.
    + destruct n; try discriminate. intros H.
      apply andb_true_iff in H as [H Htag]. apply andb_true_iff in H as [Hw Hl].
      apply eqb_eq in Hw, Hl, Htag. subst. right. now left.
  - destruct tag; try discriminate. destruct sense; try discriminate.
    intros H. apply eqb_eq in H. subst. right. now right.
Qed.

(** The word of a token of one of the three shapes is text. *)
Lemma token_shape_word (tk : token) :
  token_shape tk = true ->
  exists w : str, (let '(word, _, _, _) := tk in word) = VStr w.
Proof.
  intros H.
  destruct (token_shape_cases tk H) as [(w & l & tag & sense & ->)|[->| ->]];
    eexists; reflexivity.
Qed.

Lemma sentence_text_shapes (sent : list token) :
  forallb token_shape sent = true -> exists x : str, sentence_text sent = Value x.
Proof.
  intros H. unfold sentence_text.
  assert (Hall : exists ws : list str, all_text (first_fields sent) = Value ws).
  { induction sent as [|tk sent IH]; [now exists []|].
    simpl in H. apply andb_true_iff in H as [Htk Hsent].
    destruct (IH Hsent) as (ws & Hws).
    destruct (token_shape_word tk Htk) as (w & Hw).
    exists (w :: ws). unfold first_fields in *. simpl. now rewrite Hw, Hws. }
  destruct Hall as (ws & ->). now eexists.
Qed.

Lemma sentence_texts_shapes (ss : list (list token)) :
  forallb (forallb token_shape) ss = true ->
  exists xs : list str, sentence_texts ss = Value xs /\ length xs = length ss.
Proof.
  induction ss as [|sent ss IH]; intros H; [now exists []|].
  simpl in H. apply andb_true_iff in H as [Hsent Hss].
  destruct (sentence_text_shapes sent Hsent) as (x & Hx).
  destruct (IH Hss) as (xs & Hxs & Hlen).
  exists (x :: xs). simpl. rewrite Hx, Hxs. split; [reflexivity|]. now rewrite Hlen.
Qed.

Lemma Document_text_shapes (doc : Document) :
  forallb (forallb token_shape) (sents doc) = true ->
  exists txt : str, Document_text doc = Value txt.
Proof.
  intros H. unfold Document_text.
  destruct (sentence_texts_shapes _ H) as (xs & -> & _). now eexists.
Qed.

(** The Documents [read_block] returns have tokens of the three
    shapes. *)
Lemma read_block_shapes (fuel : nat) (s : stream) (docs : list Document) (s' : stream)
    (doc : Document) :
  read_block fuel s = Returns docs s' -> In doc docs ->
  forallb (forallb token_shape) (sents doc) = true.
Proof.
  intros H Hin.
  destruct (read_block_returns fuel s docs s' H)
    as (x & p & _ & [(-> & _)|(i & t & d & ss & -> & _ & Hshape)]).
  - contradiction.
  - destruct Hin as [<-|[]]. exact Hshape.
Qed.

(** X1: with more iterations than the stream has lines, [read_block]
    returns or raises, and further iterations do not change what it
    does, unless the last line of the stream, the first one apart, is a
    line of a sentence that no token grammar matches. *)
Theorem read_block_terminates (fuel fuel' : nat) (s : stream) :
  length s < fuel -> fuel <= fuel' ->
  last_parsable (map normalized (tl s)) ->
  read_block fuel s <> OutOfFuel /\ read_block fuel' s = read_block fuel s.
Proof.
  intros Hf Hle Hlast.
  pose proof (read_block_total fuel s Hf Hlast) as H.
  split; [assumption|]. now apply read_block_mono.
Qed.

Lemma read_block_terminates_example :
  read_block 9 example_lines <> OutOfFuel
  /\ read_block 100 example_lines = read_block 9 example_lines.
Proof.
  apply (read_block_terminates 9 100 example_lines); [simpl; lia | lia |].
  vm_compute; reflexivity.
Defined.

(** X2: a call of [read_block] that returns has taken at least one
    line off the front of the stream and nothing else, and returns at
    most one Document: none exactly when the first line was blank. *)
Theorem read_block_consumes (fuel : nat) (s : stream) (docs : list Document)
    (s' : stream) :
  read_block fuel s = Returns docs s' ->
  exists (x : str) (p : list str),
    s = x :: p ++ s'
    /\ length docs <= 1
    /\ (docs = [] <-> normalized x = text "").
Proof.
  intros H.
  destruct (read_block_returns fuel s docs s' H)
    as (x & p & Hs & [(-> & Hblank & _)|(i & t & d & ss & -> & Hm & _)]);
    exists x, p; (split; [assumption|]).
  - split; [simpl; lia|]. now split.
  - split; [simpl; lia|]. split; [discriminate|].
    intros Hblank. rewrite Hblank in Hm. vm_compute in Hm. discriminate.
Qed.

Lemma read_block_consumes_example :
  exists (x : str) (p : list str),
    with_skip_literal
    = x :: p ++ (text "" :: text "world world NN 0" :: text "" :: footer_lines)
    /\ length [mkDocument (text "1") (text "X") (text "5")
                 [[tok "Hello" "hello" "NN" "0"]]] <= 1
    /\ ([mkDocument (text "1") (text "X") (text "5")
           [[tok "Hello" "hello" "NN" "0"]]] = [] <-> normalized x = text "").
Proof.
  apply (read_block_consumes 6 with_skip_literal
           [mkDocument (text "1") (text "X") (text "5") [[tok "Hello" "hello" "NN" "0"]]]
           (text "" :: text "world world NN 0" :: text "" :: footer_lines)).
  vm_compute; reflexivity.
Defined.

(** X4: every token of a Document [read_block] returns is a tuple of
    four texts, the token of the [Fz 0] line with its integer sense, or
    the extra word of the first failing line with [None] in the other
    three places. *)
Theorem read_block_token_shapes (fuel : nat) (s : stream) (docs : list Document)
    (s' : stream) (doc : Document) (sent : list token) (tk : token) :
  read_block fuel s = Returns docs s' ->
  In doc docs -> In sent (sents doc) -> In tk sent ->
  (exists word lemma tag sense : str, tk = (VStr word, VStr lemma, VStr tag, VStr sense))
  \/ tk = (VStr (text ""), VStr (text ""), VStr (text "Fz"), VInt 0)
  \/ tk = (VStr FAILING_LINE_EXTRA_WORD, VNone, VNone, VNone).
Proof.
  intros H Hdoc Hsent Htk. apply token_shape_cases.
  pose proof (read_block_shapes fuel s docs s' doc H Hdoc) as Hshape.
  rewrite forallb_forall in Hshape. specialize (Hshape sent Hsent).
  rewrite forallb_forall in Hshape. now apply Hshape.
Qed.

Lemma read_block_token_shapes_example :
  (exists word lemma tag sense : str,
      (VStr (text ""), VStr (text ""), VStr (text "Fz"), VInt 0)
      = (VStr word, VStr lemma, VStr tag, VStr sense))
  \/ (VStr (text ""), VStr (text ""), VStr (text "Fz"), VInt 0)
     = (VStr (text ""), VStr (text ""), VStr (text "Fz"), VInt 0)
  \/ (VStr (text ""), VStr (text ""), VStr (text "Fz"), VInt 0)
     = (VStr FAILING_LINE_EXTRA_WORD, VNone, VNone, VNone).
Proof.
  apply (read_block_token_shapes 5 with_Fz_line
           [mkDocument (text "1") (text "X") (text "5")
              [[tok "Hello" "hello" "NN" "0";
                (VStr (text ""), VStr (text ""), VStr (text "Fz"), VInt 0)]]] []
           (mkDocument (text "1") (text "X") (text "5")
              [[tok "Hello" "hello" "NN" "0";
                (VStr (text ""), VStr (text ""), VStr (text "Fz"), VInt 0)]])
           [tok "Hello" "hello" "NN" "0";
            (VStr (text ""), VStr (text ""), VStr (text "Fz"), VInt 0)]
           (VStr (text ""), VStr (text ""), VStr (text "Fz"), VInt 0)).
  - vm_compute; reflexivity.
  - left; reflexivity.
  - left; reflexivity.
  - right; left; reflexivity.
Defined.

(** X5: [text] and [__repr__] never raise on a Document that
    [read_block] returned: the first field of each of its tokens is
    text, and [__repr__] is the type name with the title and the text in
    quotes. *)
Theorem Document_text_of_parsed (fuel : nat) (s : stream) (docs : list Document)
    (s' : stream) (doc : Document) :
  read_block fuel s = Returns docs s' -> In doc docs ->
  exists txt : str,
    Document_text doc = Value txt
    /\ Document_repr doc
       = Value (text "Document(" ++ dquote ++ title doc ++ dquote ++ text ", "
                ++ dquote ++ txt ++ dquote ++ text ")").
Proof.
  intros H Hdoc.
  destruct (Document_text_shapes doc (read_block_shapes fuel s docs s' doc H Hdoc))
    as (txt & Htxt).
  exists txt. split; [assumption|]. unfold Document_repr. now rewrite Htxt.
Qed.

Lemma Document_text_of_parsed_example :
  exists txt : str,
    Document_text example_document = Value txt
    /\ Document_repr example_document
       = Value (text "Document(" ++ dquote ++ title example_document ++ dquote
                ++ text ", " ++ dquote ++ txt ++ dquote ++ text ")").
Proof.
  apply (Document_text_of_parsed 9 example_lines [example_document] []).
  - vm_compute; reflexivity.
  - left; reflexivity.
Defined.

(** X6: over Documents that [read_block] returned, [raw] yields one
    text for each of them, in order, and ends without an exception. *)
Theorem raw_of_parsed (docs : list Document) :
  (forall doc : Document, In doc docs ->
     exists (fuel : nat) (s s' : stream) (got : list Document),
       read_block fuel s = Returns got s' /\ In doc got) ->
  exists texts : list str,
    WikicorpusCorpusReader.raw docs = (texts, None)
    /\ Forall2 (fun doc txt => Document_text doc = Value txt) docs texts.
Proof.
  induction docs as [|doc docs IH]; intros H.
  - exists []. split; [reflexivity|constructor].
  - destruct (H doc (or_introl eq_refl)) as (fuel & s & s' & got & Hgot & Hin).
    destruct (Document_text_shapes doc (read_block_shapes fuel s got s' doc Hgot Hin))
      as (txt & Htxt).
    destruct IH as (texts & Hraw & Hall).
    { intros doc' Hdoc'. apply H. now right. }
    exists (txt :: texts). simpl. rewrite Htxt, Hraw. split; [reflexivity|].
    now constructor.
Qed.

Lemma raw_of_parsed_example :
  exists texts : list str,
    WikicorpusCorpusReader.raw [example_document; example_document] = (texts, None)
    /\ Forall2 (fun doc txt => Document_text doc = Value txt)
         [example_document; example_document] texts.
Proof.
  apply (raw_of_parsed [example_document; example_document]).
  intros doc Hdoc. exists 9, example_lines, [], [example_document].
  split; [vm_compute; reflexivity|].
  destruct Hdoc as [<-|[<-|[]]]; left; reflexivity.
Defined.

(** ** The end of a document *)

(** [read_block] over a start marker, sentence blocks, the token lines
    of a last sentence and one of the two markers that end the body:
    what is left are the reads and checks after the outer loop. *)
Lemma read_block_to_marker (start i t d : str) (blocks : list (list str))
    (ss : list (list token)) (last : list str) (toks : list token) (m : str)
    (xs : list str) (rest : stream) (fuel : nat) :
  re_match PATTERN_DOC_START start = Some [i; t; d] ->
  sentences_of blocks = Some ss ->
  sentence_of last = Some toks ->
  m = LINE_END_OF_ARTICLE \/ m = LINE_DOC_TAG_CLOSE ->
  map normalized xs = start :: body_lines blocks ++ last ++ [m] ->
  length xs < fuel ->
  read_block fuel (xs ++ rest)
  = document_done i t d (Some m, ss ++ last_sentence last toks) rest.
Proof.
  intros Hm Hss Hs Hmark Hxs Hf.
  assert (Hbody : in_body (Some m) = false) by (destruct Hmark as [-> | ->]; reflexivity).
  assert (Hsent : in_sentence (Some m) = false)
    by (destruct Hmark as [-> | ->]; reflexivity).
  assert (Hskip : equals (Some m) FAILING_LINE_3 = false)
    by (destruct Hmark as [-> | ->]; reflexivity).
  assert (Hblank : equals (Some m) (text "") = false)
    by (destruct Hmark as [-> | ->]; reflexivity).
  destruct (body_split start blocks last [m] xs Hxs)
    as (x0 & xb & xp & xt & -> & Hx0 & Hxb & Hxp & Hxt).
  destruct xt as [|x1 [|? ?]]; try discriminate. injection Hxt as H1.
  simpl in Hf. rewrite !length_app in Hf. simpl in Hf.
  simpl app. rewrite <- !app_assoc. simpl app.
  destruct last as [|l0 last].
  - apply map_eq_nil in Hxp. subst xp. simpl app. rewrite app_nil_r.
    destruct (read_block_blocks start i t d blocks ss Hm Hss x0 xb (x1 :: rest) fuel Hx0 Hxb)
      as (f & -> & _); [simpl; lia|].
    unfold bind at 1. rewrite read_then, H1.
    now rewrite document_loop_stop by assumption.
  - destruct (read_block_body start i t d blocks ss Hm Hss (l0 :: last) toks x0 xb xp
                (x1 :: rest) fuel Hs Hx0 Hxb Hxp)
      as (f1 & f2 & ->); [simpl; rewrite length_app; lia|discriminate|].
    unfold bind at 1. unfold bind at 1. rewrite read_then, H1.
    rewrite sentence_loop_stop by assumption.
    unfold sentence_done. rewrite Hskip, Hblank.
    cbv iota zeta. cbn [is_None].
    now rewrite document_loop_stop by assumption.
Qed.

(** The checks after the end-of-article marker, one after the other. *)
Lemma document_done_checks (i t d : str) (doc_sents : list (list token)) (s : stream) :
  document_done i t d (Some LINE_END_OF_ARTICLE, doc_sents) s
  = match s with
    | x2 :: x3 :: x4 :: rest =>
        if normalized x2 == text ". . Fp 0" then
          if normalized x3 == text "" then
            if normalized x4 == LINE_DOC_TAG_CLOSE
            then Returns [mkDocument i t d doc_sents] rest
            else Raises (AssertionError (text "Expected a closing body tag"))
          else Raises (AssertionError (text "Expected a blank line"))
        else Raises (AssertionError (text "Expected a dot after the end of article"))
    | [x2; x3] =>
        if normalized x2 == text ". . Fp 0" then
          if normalized x3 == text "" then
            Raises (AssertionError (text "Expected a closing body tag"))
          else Raises (AssertionError (text "Expected a blank line"))
        else Raises (AssertionError (text "Expected a dot after the end of article"))
    | [x2] =>
        if normalized x2 == text ". . Fp 0" then
          Raises (AssertionError (text "Expected a blank line"))
        else Raises (AssertionError (text "Expected a dot after the end of article"))
    | [] => Raises (AssertionError (text "Expected a dot after the end of article"))
    end.
Proof.
  unfold document_done. rewrite equals_refl.
  destruct s as [|x2 s]; [reflexivity|].
  unfold bind at 1. rewrite read_then. unfold assert at 1, equals at 1.
  destruct (normalized x2 == text ". . Fp 0");
    [|now destruct s as [|x3 [|x4 s]]].
  unfold bind at 1, ret at 1.
  destruct s as [|x3 s]; [reflexivity|].
  rewrite read_then. unfold assert at 1, equals at 1.
  destruct (normalized x3 == text ""); [|now destruct s as [|x4 s]].
  unfold bind at 1, ret at 1.
  destruct s as [|x4 s]; [reflexivity|].
  rewrite read_then. unfold assert at 1, equals at 1.
  now destruct (normalized x4 == LINE_DOC_TAG_CLOSE).
Qed.

(** X7: a document body that ends with the closing marker alone, with
    no end-of-article marker and none of the lines after it, makes
    [read_block] return the Document all the same: the sentences of the
    blocks, then the sentence of a last block that no blank line closes.
    The lines after the closing marker stay in the stream. *)
Theorem read_block_closed_directly (start i t d : str) (blocks : list (list str))
    (ss : list (list token)) (last : list str) (toks : list token)
    (xs : list str) (rest : stream) (fuel : nat) :
  re_match PATTERN_DOC_START start = Some [i; t; d] ->
  sentences_of blocks = Some ss ->
  sentence_of last = Some toks ->
  map normalized xs = start :: body_lines blocks ++ last ++ [LINE_DOC_TAG_CLOSE] ->
  length xs < fuel ->
  read_block fuel (xs ++ rest)
  = Returns [mkDocument i t d (ss ++ last_sentence last toks)] rest.
Proof.
  intros Hm Hss Hs Hxs Hf.
  rewrite (read_block_to_marker start i t d blocks ss last toks LINE_DOC_TAG_CLOSE
             xs rest fuel Hm Hss Hs (or_intror eq_refl) Hxs Hf).
  reflexivity.
Qed.

Lemma read_block_closed_directly_example :
  read_block 6 closed_directly
  = Returns [mkDocument (text "1") (text "X") (text "5")
               [[tok "Hello" "hello" "NN" "0"]; [tok "world" "world" "NN" "0"]]]
      [example_start].
Proof.
  apply (read_block_closed_directly example_start (text "1") (text "X") (text "5")
           [[text "Hello hello NN 0"]] [[tok "Hello" "hello" "NN" "0"]]
           [text "world world NN 0"] [tok "world" "world" "NN" "0"]
           [example_start; text "Hello hello NN 0"; text ""; text "world world NN 0";
            LINE_DOC_TAG_CLOSE]
           [example_start] 6); vm_compute; reflexivity.
Defined.

(** X8: after the end-of-article marker the next three lines have to be
    [. . Fp 0], a blank line and the closing marker.  The first of them
    that is something else, or missing because the stream has ended,
    fails the assertion made on it, and no Document is returned. *)
Theorem read_block_footer_errors (start i t d : str) (blocks : list (list str))
    (ss : list (list token)) (last : list str) (toks : list token)
    (xs : list str) (rest : stream) (fuel : nat) :
  re_match PATTERN_DOC_START start = Some [i; t; d] ->
  sentences_of blocks = Some ss ->
  sentence_of last = Some toks ->
  map normalized xs = start :: body_lines blocks ++ last ++ [LINE_END_OF_ARTICLE] ->
  length xs < fuel ->
  (peek rest <> Some (text ". . Fp 0") ->
   read_block fuel (xs ++ rest)
   = Raises (AssertionError (text "Expected a dot after the end of article")))
  /\ (forall (x2 : str) (rest2 : stream),
         rest = x2 :: rest2 -> normalized x2 = text ". . Fp 0" ->
         peek rest2 <> Some (text "") ->
         read_block fuel (xs ++ rest)
         = Raises (AssertionError (text "Expected a blank line")))
  /\ (forall (x2 x3 : str) (rest3 : stream),
         rest = x2 :: x3 :: rest3 -> normalized x2 = text ". . Fp 0" ->
         normalized x3 = text "" ->
         peek rest3 <> Some LINE_DOC_TAG_CLOSE ->
         read_block fuel (xs ++ rest)
         = Raises (AssertionError (text "Expected a closing body tag"))).
Proof.
  intros Hm Hss Hs Hxs Hf.
  rewrite (read_block_to_marker start i t d blocks ss last toks LINE_END_OF_ARTICLE
             xs rest fuel Hm Hss Hs (or_introl eq_refl) Hxs Hf).
  rewrite document_done_checks.
  split; [|split].
  - intros Hpeek. destruct rest as [|x2 rest]; [reflexivity|].
    assert (E : (normalized x2 == text ". . Fp 0") = false).
    { apply eqb_neq. intros E. apply Hpeek. simpl. now rewrite E. }
    rewrite E. now destruct rest as [|x3 [|x4 rest]].
  - intros x2 rest2 -> H2 Hpeek. rewrite H2, eqb_refl.
    destruct rest2 as [|x3 rest2]; [reflexivity|].
    assert (E : (normalized x3 == text "") = false).
    { apply eqb_neq. intros E. apply Hpeek. simpl. now rewrite E. }
    rewrite E. now destruct rest2 as [|x4 rest2].
  - intros x2 x3 rest3 -> H2 H3 Hpeek. rewrite H2, H3, !eqb_refl.
    destruct rest3 as [|x4 rest3]; [reflexivity|].
    assert (E : (normalized x4 == LINE_DOC_TAG_CLOSE) = false).
    { apply eqb_neq. intros E. apply Hpeek. simpl. now rewrite E. }
    now rewrite E.
Qed.

Lemma read_block_footer_errors_example :
  read_block 5 without_footer
  = Raises (AssertionError (text "Expected a dot after the end of article"))
  /\ read_block 5 [example_start; LINE_END_OF_ARTICLE; text ". . Fp 0"]
     = Raises (AssertionError (text "Expected a blank line"))
  /\ read_block 5 [example_start; LINE_END_OF_ARTICLE; text ". . Fp 0"; text "";
                   example_start]
     = Raises (AssertionError (text "Expected a closing body tag")).
Proof.
  split; [|split].
  - apply (proj1 (read_block_footer_errors example_start (text "1") (text "X") (text "5")
                    [[text "Hello hello NN 0"]] [[tok "Hello" "hello" "NN" "0"]] [] []
                    [example_start; text "Hello hello NN 0"; text ""; LINE_END_OF_ARTICLE]
                    [LINE_DOC_TAG_CLOSE] 5 eq_refl eq_refl eq_refl eq_refl
                    (le_n 5))).
    vm_compute; discriminate.
  - apply (proj1 (proj2 (read_block_footer_errors example_start
                           (text "1") (text "X") (text "5") [] [] [] []
                           [example_start; LINE_END_OF_ARTICLE] [text ". . Fp 0"] 5
                           eq_refl eq_refl eq_refl eq_refl
                           (le_S 3 4 (le_S 3 3 (le_n 3)))))
             (text ". . Fp 0") [] eq_refl eq_refl).
    vm_compute; discriminate.
  - apply (proj2 (proj2 (read_block_footer_errors example_start
                           (text "1") (text "X") (text "5") [] [] [] []
                           [example_start; LINE_END_OF_ARTICLE]
                           [text ". . Fp 0"; text ""; example_start] 5
                           eq_refl eq_refl eq_refl eq_refl
                           (le_S 3 4 (le_S 3 3 (le_n 3)))))
             (text ". . Fp 0") (text "") [example_start] eq_refl eq_refl eq_refl).
    vm_compute; discriminate.
Defined.

(** [read_block] at the skip literal: it returns with the sentences
    completed before. *)
Lemma read_block_at_skip_literal (start i t d : str) (blocks : list (list str))
    (ss : list (list token)) (ls : list str) (toks : list token)
    (xs : list str) (rest : stream) (fuel : nat) :
  re_match PATTERN_DOC_START start = Some [i; t; d] ->
  sentences_of blocks = Some ss ->
  sentence_of ls = Some toks ->
  map normalized xs = start :: body_lines blocks ++ ls ++ [FAILING_LINE_3] ->
  length xs < fuel ->
  read_block fuel (xs ++ rest) = Returns [mkDocument i t d ss] rest.
Proof.
  intros Hm Hss Hs Hxs Hf.
  destruct (body_split start blocks ls [FAILING_LINE_3] xs Hxs)
    as (x0 & xb & xp & xt & -> & Hx0 & Hxb & Hxp & Hxt).
  destruct xt as [|xf [|? ?]]; try discriminate. injection Hxt as Hxf.
  simpl in Hf. rewrite !length_app in Hf. simpl in Hf.
  simpl app. rewrite <- !app_assoc. simpl app.
  destruct (read_block_body start i t d blocks ss Hm Hss ls toks x0 xb xp (xf :: rest)
              fuel Hs Hx0 Hxb Hxp)
    as (f1 & f2 & ->);
    [simpl; rewrite length_app; lia | intros _; simpl; now rewrite Hxf |].
  unfold bind at 1. unfold bind at 1. rewrite read_then, Hxf.
  rewrite sentence_loop_skip.
  unfold sentence_done. now rewrite equals_refl.
Qed.

(** X9: the skip literal leaves the reader in the middle of the
    document.  When the line after it is neither blank nor a start
    marker, as a token line of the same sentence is not, the next call
    of [read_block] on the stream raises the [ValueError] of a missing
    start marker. *)
Theorem read_block_after_skip_literal (start i t d : str) (blocks : list (list str))
    (ss : list (list token)) (ls : list str) (toks : list token)
    (xs : list str) (xnext : str) (rest : stream) (fuel fuel' : nat) :
  re_match PATTERN_DOC_START start = Some [i; t; d] ->
  sentences_of blocks = Some ss ->
  sentence_of ls = Some toks ->
  map normalized xs = start :: body_lines blocks ++ ls ++ [FAILING_LINE_3] ->
  length xs < fuel ->
  normalized xnext <> text "" ->
  re_match PATTERN_DOC_START (normalized xnext) = None ->
  read_block fuel (xs ++ xnext :: rest) = Returns [mkDocument i t d ss] (xnext :: rest)
  /\ (docs <- read_block fuel ;; more <- read_block fuel' ;; ret (docs ++ more))
       (xs ++ xnext :: rest)
     = Raises (ValueError (text "Expected an opening document tag")).
Proof.
  intros Hm Hss Hs Hxs Hf Hblank Hnext.
  pose proof (read_block_at_skip_literal start i t d blocks ss ls toks xs (xnext :: rest)
                fuel Hm Hss Hs Hxs Hf) as H1.
  split; [assumption|].
  unfold bind at 1. rewrite H1.
  unfold bind at 1. unfold read_block. rewrite read_then, Hnext.
  apply eqb_neq in Hblank. now rewrite Hblank.
Qed.

Lemma read_block_after_skip_literal_example :
  read_block 4 with_skip_literal_then_token
  = Returns [mkDocument (text "1") (text "X") (text "5") []]
      [text "world world NN 0"; text ""; LINE_DOC_TAG_CLOSE]
  /\ (docs <- read_block 4 ;; more <- read_block 4 ;; ret (docs ++ more))
       with_skip_literal_then_token
     = Raises (ValueError (text "Expected an opening document tag")).
Proof.
  apply (read_block_after_skip_literal example_start (text "1") (text "X") (text "5")
           [] [] [text "Hello hello NN 0"] [tok "Hello" "hello" "NN" "0"]
           [example_start; text "Hello hello NN 0"; text "f"]
           (text "world world NN 0") [text ""; LINE_DOC_TAG_CLOSE] 4 4);
    try (vm_compute; reflexivity).
  vm_compute; discriminate.
Defined.

(** ** Records with a word and a lemma of two or three parts *)

(** A line one of the three grammars matches is decoded into the four
    groups of the first grammar that does; no such line is [Fz 0] or one
    of the three failing lines. *)
Lemma tokens_of_match_word (line w l t d : str) :
  match_word line = Some [w; l; t; d] ->
  in_sentence (Some line) = true ->
  unparsable line = false
  /\ tokens_of line = Some [(VStr w, VStr l, VStr t, VStr d)].
Proof.
  intros Hw Hin.
  assert (HFz : (line == text "Fz 0") = false).
  { apply eqb_neq. intros ->. vm_compute in Hw. discriminate. }
  assert (HF1 : (line == FAILING_LINE) = false).
  { apply eqb_neq. intros ->. vm_compute in Hw. discriminate. }
  assert (HF2 : (line == FAILING_LINE_2) = false).
  { apply eqb_neq. intros ->. vm_compute in Hw. discriminate. }
  assert (HF3 : (line == FAILING_LINE_3) = false).
  { apply eqb_neq. intros ->. vm_compute in Hw. discriminate. }
  split.
  - unfold unparsable. rewrite Hw. cbn [is_None]. now rewrite andb_false_r.
  - unfold tokens_of. rewrite sentence_loop_S, Hin.
    unfold decode. rewrite HFz, Hw, HF1, HF2, HF3. reflexivity.
Qed.

(** A line the first grammar does not match and a later one does is a
    line of a sentence: it is not blank and not one of the markers. *)
Lemma match_word_in_sentence (line : str) (groups : list str) :
  re_match PATTERN_WORD line = None ->
  match_word line = Some groups ->
  in_sentence (Some line) = true.
Proof.
  intros Hnone Hw. unfold in_sentence, equals. cbn [is_None negb andb].
  destruct (line == text "") eqn:E1.
  { apply eqb_eq in E1. subst. vm_compute in Hw. discriminate. }
  destruct (line == LINE_END_OF_ARTICLE) eqn:E2.
  { apply eqb_eq in E2. subst. vm_compute in Hnone. discriminate. }
  destruct (line == LINE_DOC_TAG_CLOSE) eqn:E3.
  { apply eqb_eq in E3. subst. vm_compute in Hw. discriminate. }
  reflexivity.
Qed.

(** X10: a record whose word and lemma are two fields each, then a tag
    and digits, gives one token: the word is the first two fields with
    the whitespace between them as it stands in the line, the lemma the
    next two likewise, the sense the run of digits.  This holds when the
    fourth field does not start with a digit; the one-word grammar is
    tried first and would take such a line for a record of its own. *)
Theorem two_word_record_tokens (w1 w2 l1 l2 t d sA sB sC sD sE rest : str) :
  run_of nonspace w1 -> run_of isspace sA ->
  run_of nonspace w2 -> run_of isspace sB ->
  run_of nonspace l1 -> run_of isspace sC ->
  run_of nonspace l2 -> run_of isspace sD ->
  run_of nonspace t -> run_of isspace sE ->
  run_of isdecimal d -> stops isdecimal rest ->
  stops isdecimal l2 ->
  tokens_of (w1 ++ sA ++ w2 ++ sB ++ l1 ++ sC ++ l2 ++ sD ++ t ++ sE ++ d ++ rest)
  = Some [(VStr (w1 ++ sA ++ w2), VStr (l1 ++ sC ++ l2), VStr t, VStr d)].
Proof.
  intros Hw1 HA Hw2 HB Hl1 HC Hl2 HD Ht HE Hd Hrest Hstop.
  pose proof (PATTERN_WORD_two_words w1 w2 l1 l2 sA sB sC (sD ++ t ++ sE ++ d ++ rest)
                Hw1 HA Hw2 HB Hl1 HC Hl2 Hstop) as Hnone.
  pose proof (PATTERN_WORD_DOUBLE_groups w1 w2 l1 l2 t d sA sB sC sD sE rest
                Hw1 HA Hw2 HB Hl1 HC Hl2 HD Ht HE Hd Hrest) as Hdouble.
  set (line := w1 ++ sA ++ w2 ++ sB ++ l1 ++ sC ++ l2 ++ sD ++ t ++ sE ++ d ++ rest) in *.
  assert (Hw : match_word line = Some [w1 ++ sA ++ w2; l1 ++ sC ++ l2; t; d]).
  { unfold match_word. now rewrite Hnone, Hdouble. }
  apply tokens_of_match_word; [assumption|].
  now apply match_word_in_sentence with (groups := [w1 ++ sA ++ w2; l1 ++ sC ++ l2; t; d]).
Qed.

Lemma two_word_record_tokens_example :
  tokens_of (text "New  York new york NP 00")
  = Some [(VStr (text "New  York"), VStr (text "new york"), VStr (text "NP"),
           VStr (text "00"))].
Proof.
  apply (two_word_record_tokens (text "New") (text "York") (text "new") (text "york")
           (text "NP") (text "00") (text "  ") (text " ") (text " ") (text " ")
           (text " ") []);
    try (split; [discriminate | vm_compute; reflexivity]);
    vm_compute; reflexivity.
Defined.

(** X11: a record whose word and lemma are three fields each gives one
    token in the same way, when neither the fourth nor the sixth field
    starts with a digit: the two grammars tried before would take such a
    line for a shorter record. *)
Theorem three_word_record_tokens
    (w1 w2 w3 l1 l2 l3 t d sA sB sC sD sE sF sG rest : str) :
  run_of nonspace w1 -> run_of isspace sA ->
  run_of nonspace w2 -> run_of isspace sB ->
  run_of nonspace w3 -> run_of isspace sC ->
  run_of nonspace l1 -> run_of isspace sD ->
  run_of nonspace l2 -> run_of isspace sE ->
  run_of nonspace l3 -> run_of isspace sF ->
  run_of nonspace t -> run_of isspace sG ->
  run_of isdecimal d -> stops isdecimal rest ->
  stops isdecimal l1 -> stops isdecimal l3 ->
  tokens_of (w1 ++ sA ++ w2 ++ sB ++ w3 ++ sC ++ l1 ++ sD ++ l2 ++ sE ++ l3 ++ sF
             ++ t ++ sG ++ d ++ rest)
  = Some [(VStr (w1 ++ sA ++ w2 ++ sB ++ w3), VStr (l1 ++ sD ++ l2 ++ sE ++ l3),
           VStr t, VStr d)].
Proof.
  intros Hw1 HA Hw2 HB Hw3 HC Hl1 HD Hl2 HE Hl3 HF Ht HG Hd Hrest Hstop1 Hstop3.
  pose proof (PATTERN_WORD_two_words w1 w2 w3 l1 sA sB sC
                (sD ++ l2 ++ sE ++ l3 ++ sF ++ t ++ sG ++ d ++ rest)
                Hw1 HA Hw2 HB Hw3 HC Hl1 Hstop1) as Hnone.
  pose proof (PATTERN_WORD_DOUBLE_three_words w1 w2 w3 l1 l2 l3 sA sB sC sD sE
                (sF ++ t ++ sG ++ d ++ rest)
                Hw1 HA Hw2 HB Hw3 HC Hl1 HD Hl2 HE Hl3 Hstop3) as Hnone2.
  pose proof (PATTERN_WORD_TRIPLE_groups w1 w2 w3 l1 l2 l3 t d sA sB sC sD sE sF sG rest
                Hw1 HA Hw2 HB Hw3 HC Hl1 HD Hl2 HE Hl3 HF Ht HG Hd Hrest) as Htriple.
  set (line := w1 ++ sA ++ w2 ++ sB ++ w3 ++ sC ++ l1 ++ sD ++ l2 ++ sE ++ l3 ++ sF
               ++ t ++ sG ++ d ++ rest) in *.
  assert (Hw : match_word line
               = Some [w1 ++ sA ++ w2 ++ sB ++ w3; l1 ++ sD ++ l2 ++ sE ++ l3; t; d]).
  { unfold match_word. now rewrite Hnone, Hnone2, Htriple. }
  apply tokens_of_match_word; [assumption|].
  now apply match_word_in_sentence
    with (groups := [w1 ++ sA ++ w2 ++ sB ++ w3; l1 ++ sD ++ l2 ++ sE ++ l3; t; d]).
Qed.

Lemma three_word_record_tokens_example :
  tokens_of (text "Rio de Janeiro rio de janeiro NP 0")
  = Some [(VStr (text "Rio de Janeiro"), VStr (text "rio de janeiro"),
           VStr (text "NP"), VStr (text "0"))].
Proof.
  apply (three_word_record_tokens (text "Rio") (text "de") (text "Janeiro")
           (text "rio") (text "de") (text "janeiro") (text "NP") (text "0")
           (text " ") (text " ") (text " ") (text " ") (text " ") (text " ")
           (text " ") []);
    try (split; [discriminate | vm_compute; reflexivity]);
    vm_compute; reflexivity.
Defined.

(** ** Languages and files *)

Lemma leb_total (a b : str) : leb a b = false -> leb b a = true.
Proof.
  revert b; induction a as [|x a IH]; intros [|y b]; simpl; try discriminate;
    try reflexivity.
  destruct (N.ltb_spec x y) as [Hxy|Hxy]; [discriminate|]. simpl.
  destruct (N.eqb_spec x y) as [->|Hne].
  - rewrite N.eqb_refl, N.ltb_irrefl. simpl. apply IH.
  - intros _. assert (Hlt : (y <? x)%N = true) by (apply N.ltb_lt; lia).
    now rewrite Hlt.
Qed.

Lemma mem_In (x : str) (l : list str) : mem x l = true <-> In x l.
Proof.
  induction l as [|y l IH]; simpl; [split; [discriminate|contradiction]|].
  rewrite orb_true_iff, IH, eqb_eq. split; intros [H|H]; auto.
Qed.

Lemma set_of_In (x : str) (l : list str) : In x (set_of l) <-> In x l.
Proof.
  induction l as [|y l IH]; simpl; [reflexivity|].
  destruct (mem y l) eqn:E.
  - rewrite IH. split; [now right|]. intros [<-|H]; [|assumption].
    now apply mem_In.
  - simpl. now rewrite IH.
Qed.

Lemma set_of_NoDup (l : list str) : NoDup (set_of l).
Proof.
  induction l as [|y l IH]; simpl; [constructor|].
  destruct (mem y l) eqn:E; [assumption|].
  constructor; [|assumption].
  rewrite set_of_In, <- mem_In. now rewrite E.
Qed.

Lemma insert_In (x a : str) (l : list str) : In x (insert a l) <-> a = x \/ In x l.
Proof.
  induction l as [|y l IH]; simpl; [reflexivity|].
  destruct (leb a y); simpl; [reflexivity|].
  rewrite IH. tauto.
Qed.

Lemma sorted_In (x : str) (l : list str) : In x (sorted l) <-> In x l.
Proof.
  induction l as [|y l IH]; simpl; [reflexivity|].
  now rewrite insert_In, IH.
Qed.

(** Inserting a new element into an increasing list keeps it
    increasing. *)
Lemma insert_increasing (a : str) (l : list str) :
  ~ In a l -> increasing l = true -> increasing (insert a l) = true.
Proof.
  induction l as [|y l IH]; intros Hnot Hinc; [reflexivity|].
  assert (Hay : (a == y) = false).
  { apply eqb_neq. intros ->. apply Hnot. now left. }
  assert (Hya : (y == a) = false).
  { apply eqb_neq. intros ->. apply Hnot. now left. }
  cbn [insert]. destruct (leb a y) eqn:E.
  - cbn [increasing]. unfold ltb at 1. rewrite E, Hay. exact Hinc.
  - assert (Htail : increasing (insert a l) = true).
    { apply IH; [intros H; apply Hnot; now right|].
      cbn [increasing] in Hinc. destruct l as [|z l]; [reflexivity|].
      now apply andb_true_iff in Hinc as [_ Hinc]. }
    cbn [increasing]. destruct (insert a l) as [|z l'] eqn:Ei.
    + reflexivity.
    + rewrite Htail, andb_true_r.
      destruct l as [|z0 l0].
      * cbn [insert] in Ei. injection Ei as <- <-.
        unfold ltb. now rewrite (leb_total a y E), Hya.
      * cbn [insert] in Ei. destruct (leb a z0).
        -- injection Ei as <- <-. unfold ltb. now rewrite (leb_total a y E), Hya.
        -- injection Ei as <- <-. cbn [increasing] in Hinc.
           now apply andb_true_iff in Hinc as [Hinc _].
Qed.

Lemma sorted_increasing (l : list str) : NoDup l -> increasing (sorted l) = true.
Proof.
  induction l as [|x l IH]; intros Hnd; [reflexivity|].
  inversion Hnd as [|? ? Hnot Hnd']; subst. cbn [sorted].
  apply insert_increasing; [now rewrite sorted_In|now apply IH].
Qed.

Lemma strip_prefix_Some (l s r : str) : strip_prefix l s = Some r -> s = l ++ r.
Proof.
  revert s; induction l as [|x l IH]; intros s H; simpl in H.
  - now injection H as ->.
  - destruct s as [|y s]; [discriminate|].
    destruct (N.eqb_spec x y) as [->|]; [|discriminate].
    simpl. now rewrite (IH s H).
Qed.

(** [s.startswith(prefix)]: [s] is [prefix] and something behind it. *)
Lemma startswith_app (s prefix : str) :
  startswith s prefix = true <-> exists r : str, s = prefix ++ r.
Proof.
  unfold startswith. split.
  - destruct (strip_prefix prefix s) as [r|] eqn:E; [|discriminate].
    intros _. exists r. now apply strip_prefix_Some.
  - intros (r & ->). now rewrite strip_prefix_app.
Qed.

Lemma startswith_firstn (fileid : str) :
  startswith fileid (firstn 3 fileid) = true.
Proof.
  apply startswith_app. exists (skipn 3 fileid). now rewrite firstn_skipn.
Qed.

Lemma insert_NoDup (a : str) (l : list str) :
  ~ In a l -> NoDup l -> NoDup (insert a l).
Proof.
  induction l as [|y l IH]; intros Hnot Hnd; cbn [insert].
  - constructor; [assumption|constructor].
  - destruct (leb a y); [now constructor|].
    inversion Hnd as [|? ? Hy Hnd']; subst.
    constructor.
    + rewrite insert_In. intros [->|H]; [apply Hnot; now left|contradiction].
    + apply IH; [intros H; apply Hnot; now right|assumption].
Qed.

Lemma sorted_NoDup (l : list str) : NoDup l -> NoDup (sorted l).
Proof.
  induction l as [|x l IH]; intros Hnd; [constructor|].
  inversion Hnd as [|? ? Hnot Hnd']; subst. cbn [sorted].
  apply insert_NoDup; [now rewrite sorted_In|now apply IH].
Qed.

(** X12: [langs] holds exactly the first three characters of each file
    name (the whole name when it is shorter), each once, in increasing
    order of their code points. *)
Theorem langs_increasing (_fileids : list str) :
  increasing (WikicorpusCorpusReader.langs _fileids) = true
  /\ NoDup (WikicorpusCorpusReader.langs _fileids)
  /\ (forall lang : str,
         In lang (WikicorpusCorpusReader.langs _fileids)
         <-> exists fileid : str, In fileid _fileids /\ lang = firstn 3 fileid).
Proof.
  unfold WikicorpusCorpusReader.langs.
  set (prefixes := map (fun fileid => firstn 3 fileid) _fileids).
  split; [apply sorted_increasing, set_of_NoDup|].
  split; [apply sorted_NoDup, set_of_NoDup|].
  intros lang. rewrite sorted_In, set_of_In. unfold prefixes. rewrite in_map_iff.
  split; intros (fileid & H1 & H2); exists fileid; now split.
Qed.

(** X13: [docs] and [langs] agree.  Each language of [langs] selects at
    least one file, and a language of three characters selects exactly
    the files whose name starts with these three characters, in the
    order of the file list. *)
Theorem docs_fileids_of_langs (_fileids : list str) :
  (forall lang : str,
      In lang (WikicorpusCorpusReader.langs _fileids) ->
      WikicorpusCorpusReader.docs_fileids _fileids lang <> [])
  /\ (forall lang : str,
         length lang = 3 ->
         WikicorpusCorpusReader.docs_fileids _fileids lang
         = filter (fun fileid => firstn 3 fileid == lang) _fileids).
Proof.
  split.
  - intros lang Hlang.
    assert (H : exists fileid : str, In fileid _fileids /\ lang = firstn 3 fileid).
    { unfold WikicorpusCorpusReader.langs in Hlang.
      rewrite sorted_In, set_of_In, in_map_iff in Hlang.
      destruct Hlang as (fileid & H1 & H2). exists fileid. now split. }
    destruct H as (fileid & Hin & ->).
    assert (Hsel : In fileid (WikicorpusCorpusReader.docs_fileids _fileids
                                (firstn 3 fileid))).
    { unfold WikicorpusCorpusReader.docs_fileids. apply filter_In.
      split; [assumption|apply startswith_firstn]. }
    intros E. rewrite E in Hsel. contradiction.
  - intros lang Hlen. unfold WikicorpusCorpusReader.docs_fileids.
    apply filter_ext. intros fileid.
    destruct (firstn 3 fileid == lang) eqn:E.
    + apply eqb_eq in E. subst lang. apply startswith_firstn.
    + destruct (startswith fileid lang) eqn:Es; [|reflexivity].
      apply startswith_app in Es as (r & ->).
      rewrite firstn_app, Hlen, Nat.sub_diag, firstn_0, app_nil_r in E.
      rewrite firstn_all2 in E by lia. now rewrite eqb_refl in E.
Qed.

Lemma docs_fileids_of_langs_example :
  WikicorpusCorpusReader.docs_fileids
    [text "spa_1.txt"; text "eng_1.txt"; text "cat_1.txt"; text "eng_2.txt"] (text "eng")
  <> []
  /\ WikicorpusCorpusReader.docs_fileids
       [text "spa_1.txt"; text "eng_1.txt"; text "cat_1.txt"; text "eng_2.txt"]
       (text "eng")
     = filter (fun fileid => firstn 3 fileid == text "eng")
         [text "spa_1.txt"; text "eng_1.txt"; text "cat_1.txt"; text "eng_2.txt"].
Proof.
  split.
  - apply (proj1 (docs_fileids_of_langs
                    [text "spa_1.txt"; text "eng_1.txt"; text "cat_1.txt";
                     text "eng_2.txt"]) (text "eng")).
    vm_compute. right. left. reflexivity.
  - apply (proj2 (docs_fileids_of_langs
                    [text "spa_1.txt"; text "eng_1.txt"; text "cat_1.txt";
                     text "eng_2.txt"]) (text "eng")).
    reflexivity.
Defined.

(** ** The lines [read_clean_line] returns *)

Lemma replace_map (s : str) :
  replace s (chr 160) (text " ") = map (fun c => if (c =? 160)%N then 32%N else c) s.
Proof.
  unfold replace, chr. change (text " ") with [32%N].
  induction s as [|c s IH]; [reflexivity|].
  cbn [flat_map map]. rewrite IH. now destruct (c =? 160)%N.
Qed.

Lemma lstrip_stops (s : str) : stops isspace s -> lstrip s = s.
Proof. destruct s as [|c s]; [reflexivity|]. simpl. now intros ->. Qed.

(** Trimmed text with a line end behind it is stripped to itself. *)
Lemma strip_trimmed (s : str) : trimmed s -> strip (s ++ [10%N]) = s.
Proof.
  intros [Hhd Hlast]. unfold strip, rstrip.
  assert (H1 : lstrip (s ++ [10%N]) = match s with [] => [] | _ => s ++ [10%N] end).
  { destruct s as [|c s]; [reflexivity|]. simpl in *. now rewrite Hhd. }
  rewrite H1. destruct s as [|c s]; [reflexivity|].
  rewrite rev_app_distr. cbn [rev app lstrip].
  change (isspace 10%N) with true. cbv iota.
  change (rev s ++ [c]) with (rev (c :: s)).
  rewrite (lstrip_stops _ Hlast). apply rev_involutive.
Qed.

Lemma stops_replace (s : str) :
  stops isspace s -> stops isspace (replace s (chr 160) (text " ")).
Proof.
  rewrite replace_map. destruct s as [|c s]; [trivial|]. simpl.
  destruct (N.eqb_spec c 160) as [->|_]; [discriminate|trivial].
Qed.

(** X14: the line [read_clean_line] returns holds no non-breaking
    space, neither starts nor ends with whitespace, and is a fixed
    point: a stream line made of it is read as the same line. *)
Theorem read_clean_line_clean (x : str) (s : stream) :
  exists l : str,
    read_clean_line (x :: s) = Returns (Some l) s
    /\ ~ In (chr 160) l
    /\ trimmed l
    /\ read_clean_line (l :: s) = Returns (Some l) s.
Proof.
  exists (normalized x). split; [apply read_clean_line_cons|].
  assert (Hno : ~ In (chr 160) (normalized x)).
  { unfold normalized. rewrite replace_map, in_map_iff. intros (c & Hc & _).
    unfold chr in Hc. destruct (N.eqb_spec c 160); [discriminate|congruence]. }
  assert (Htrim : trimmed (normalized x)).
  { unfold normalized.
    destruct (strip_spec (x ++ [10%N])) as (pre & post & _ & _ & _ & Hhd & Hlast).
    split; [now apply stops_replace|].
    rewrite replace_map, <- map_rev, <- replace_map. now apply stops_replace. }
  split; [assumption|]. split; [assumption|].
  rewrite read_clean_line_cons. do 2 f_equal.
  unfold normalized at 1. rewrite (strip_trimmed _ Htrim), replace_map.
  rewrite <- (map_id (normalized x)) at 2. apply map_ext_in.
  intros c Hc. destruct (N.eqb_spec c 160) as [->|_]; [contradiction|reflexivity].
Qed.

(** ** The views *)

Lemma first_fields_tagged (sent : list token) :
  first_fields sent
  = map fst (map (fun tk : token => let '(word, _, tag, _) := tk in (word, tag)) sent).
Proof.
  unfold first_fields. rewrite map_map. apply map_ext.
  now intros [[[word lemma] tag] sense].
Qed.

Lemma sents_tagged_sents (docs : list Document) :
  WikicorpusCorpusReader.sents docs
  = map (map fst) (WikicorpusCorpusReader.tagged_sents docs).
Proof.
  unfold WikicorpusCorpusReader.sents, WikicorpusCorpusReader.tagged_sents.
  induction docs as [|doc docs IH]; [reflexivity|].
  simpl. rewrite map_app, IH, map_map. f_equal.
  apply map_ext. intros sent. apply first_fields_tagged.
Qed.

(** X15: the four views agree.  [sents] is [tagged_sents] without the
    tags, [words] is [tagged_words] without the tags, word for word and
    in the same order, and the words of a sequence of documents are the
    words of its first part followed by those of the rest. *)
Theorem words_of_tagged_words (docs more : list Document) :
  WikicorpusCorpusReader.sents docs
  = map (map fst) (WikicorpusCorpusReader.tagged_sents docs)
  /\ WikicorpusCorpusReader.words docs
     = map fst (WikicorpusCorpusReader.tagged_words docs)
  /\ WikicorpusCorpusReader.words (docs ++ more)
     = WikicorpusCorpusReader.words docs ++ WikicorpusCorpusReader.words more.
Proof.
  split; [apply sents_tagged_sents|]. split.
  - unfold WikicorpusCorpusReader.words, WikicorpusCorpusReader.tagged_words.
    now rewrite sents_tagged_sents, concat_map.
  - unfold WikicorpusCorpusReader.words, WikicorpusCorpusReader.sents.
    now rewrite flat_map_app, concat_app.
Qed.

(** X16: over Documents that [read_block] returned, every pair of
    [tagged_words] has a text as its word; its tag is a text as well,
    but for the extra word of the first failing line, whose tag is
    [None]. *)
Theorem tagged_words_of_parsed (docs : list Document) (word tag : value) :
  (forall doc : Document, In doc docs ->
     exists (fuel : nat) (s s' : stream) (got : list Document),
       read_block fuel s = Returns got s' /\ In doc got) ->
  In (word, tag) (WikicorpusCorpusReader.tagged_words docs) ->
  exists w : str,
    word = VStr w
    /\ ((exists tg : str, tag = VStr tg)
        \/ (tag = VNone /\ w = FAILING_LINE_EXTRA_WORD)).
Proof.
  intros Hdocs Hin.
  unfold WikicorpusCorpusReader.tagged_words, WikicorpusCorpusReader.tagged_sents in Hin.
  apply in_concat in Hin as (pairs & Hpairs & Hin).
  apply in_flat_map in Hpairs as (doc & Hdoc & Hpairs).
  apply in_map_iff in Hpairs as (sent & <- & Hsent).
  apply in_map_iff in Hin as (tk & Htk & Hin).
  destruct (Hdocs doc Hdoc) as (fuel & s & s' & got & Hgot & Hdoc').
  pose proof (read_block_shapes fuel s got s' doc Hgot Hdoc') as Hshape.
  rewrite forallb_forall in Hshape. specialize (Hshape sent Hsent).
  rewrite forallb_forall in Hshape. specialize (Hshape tk Hin).
  destruct (token_shape_cases tk Hshape) as [(w & l & tg & se & ->)|[->| ->]];
    injection Htk as <- <-.
  - exists w. split; [reflexivity|]. left. now exists tg.
  - exists (text ""). split; [reflexivity|]. left. now exists (text "Fz").
  - exists FAILING_LINE_EXTRA_WORD. split; [reflexivity|]. now right.
Qed.

Lemma tagged_words_of_parsed_example :
  exists w : str,
    VStr FAILING_LINE_EXTRA_WORD = VStr w
    /\ ((exists tg : str, VNone = VStr tg)
        \/ (VNone = VNone /\ w = FAILING_LINE_EXTRA_WORD)).
Proof.
  apply (tagged_words_of_parsed [failing_line_document]
           (VStr FAILING_LINE_EXTRA_WORD) VNone).
  - intros doc Hdoc. exists 5, with_failing_line, [], [failing_line_document].
    split; [vm_compute; reflexivity|].
    destruct Hdoc as [<-|[]]. left; reflexivity.
  - right. left. reflexivity.
Defined.

(** ** The text of a document *)

Lemma join_app (sep : str) (xs ys : list str) :
  xs <> [] -> ys <> [] ->
  join sep (xs ++ ys) = join sep xs ++ sep ++ join sep ys.
Proof.
  intros Hxs Hys. induction xs as [|x xs IH]; [contradiction|].
  destruct xs as [|x' xs].
  - destruct ys as [|y ys]; [contradiction|]. reflexivity.
  - change (join sep ((x :: x' :: xs) ++ ys))
      with (x ++ sep ++ join sep ((x' :: xs) ++ ys)).
    rewrite IH by discriminate.
    change (join sep (x :: x' :: xs)) with (x ++ sep ++ join sep (x' :: xs)).
    now rewrite <- !app_assoc.
Qed.

Lemma sentence_texts_app (ss1 ss2 : list (list token)) (xs1 xs2 : list str) :
  sentence_texts ss1 = Value xs1 -> sentence_texts ss2 = Value xs2 ->
  sentence_texts (ss1 ++ ss2) = Value (xs1 ++ xs2).
Proof.
  revert xs1; induction ss1 as [|sent ss1 IH]; intros xs1 H1 H2; simpl in *.
  - injection H1 as <-. assumption.
  - destruct (sentence_text sent) as [x|e]; [|discriminate].
    destruct (sentence_texts ss1) as [xs|e]; [|discriminate].
    injection H1 as <-. now rewrite (IH xs eq_refl H2).
Qed.

Lemma sentence_texts_length (ss : list (list token)) (xs : list str) :
  sentence_texts ss = Value xs -> length xs = length ss.
Proof.
  revert xs; induction ss as [|sent ss IH]; intros xs H; simpl in H.
  - now injection H as <-.
  - destruct (sentence_text sent) as [x|e]; [|discriminate].
    destruct (sentence_texts ss) as [xs'|e]; [|discriminate].
    injection H as <-. simpl. now rewrite (IH xs' eq_refl).
Qed.

(** X17: the text of a document is the texts of its sentences with a
    dot and a space between them and nothing after the last: a document
    without sentences has the empty text, and the text of sentences put
    one after the other is the text of the first ones, a dot and a
    space, and the text of the others. *)
Theorem Document_text_app (i t d i' t' d' : str) (ss1 ss2 : list (list token))
    (t1 t2 : str) :
  ss1 <> [] -> ss2 <> [] ->
  Document_text (mkDocument i t d ss1) = Value t1 ->
  Document_text (mkDocument i' t' d' ss2) = Value t2 ->
  Document_text (mkDocument i t d (ss1 ++ ss2)) = Value (t1 ++ text ". " ++ t2)
  /\ Document_text (mkDocument i t d []) = Value (text "").
Proof.
  intros Hne1 Hne2 H1 H2. split; [|reflexivity].
  unfold Document_text in *. cbn [sents] in *.
  destruct (sentence_texts ss1) as [xs1|e] eqn:E1; [|discriminate].
  destruct (sentence_texts ss2) as [xs2|e] eqn:E2; [|discriminate].
  injection H1 as <-. injection H2 as <-.
  rewrite (sentence_texts_app ss1 ss2 xs1 xs2 E1 E2).
  rewrite join_app; [reflexivity| |].
  - intros ->. apply sentence_texts_length in E1. destruct ss1; [contradiction|discriminate].
  - intros ->. apply sentence_texts_length in E2. destruct ss2; [contradiction|discriminate].
Qed.

Lemma Document_text_app_example :
  Document_text
    (mkDocument (text "1") (text "X") (text "5")
       ([[tok "Hello" "hello" "NN" "0"; tok "world" "world" "NN" "0"]]
        ++ [[tok "again" "again" "NN" "0"]]))
  = Value (text "Hello world" ++ text ". " ++ text "again")
  /\ Document_text (mkDocument (text "1") (text "X") (text "5") []) = Value (text "").
Proof.
  apply (Document_text_app (text "1") (text "X") (text "5") (text "2") (text "Y") (text "6")
           [[tok "Hello" "hello" "NN" "0"; tok "world" "world" "NN" "0"]]
           [[tok "again" "again" "NN" "0"]]
           (text "Hello world") (text "again"));
    try discriminate; reflexivity.
Defined.

(** ** Token lines as the specification words them *)

Lemma span_spec (cls : char -> bool) (s : str) :
  s = fst (span cls s) ++ snd (span cls s)
  /\ forallb cls (fst (span cls s)) = true
  /\ stops cls (snd (span cls s)).
Proof.
  induction s as [|c s (IH1 & IH2 & IH3)]; [now repeat split|].
  simpl. destruct (cls c) eqn:E.
  - destruct (span cls s) as [a b]. simpl in *. rewrite E, IH2.
    repeat split; [now rewrite <- IH1|assumption].
  - simpl. now repeat split.
Qed.

(** The fields of a line that starts with one put the line together
    again, and they are spaced. *)
Lemma spaced_fields_spec (n : nat) :
  forall s : str,
    length s <= n -> stops isspace s ->
    s = concat (map (fun p => fst p ++ snd p) (spaced_fields n s))
    /\ spaced (spaced_fields n s).
Proof.
  induction n as [|n IH]; intros s Hn Hs.
  - destruct s; [now split|simpl in Hn; lia].
  - destruct s as [|c s]; [now split|].
    cbn [spaced_fields].
    destruct (span_spec nonspace (c :: s)) as (Hf1 & Hf2 & Hf3).
    destruct (span nonspace (c :: s)) as [field rest] eqn:Ef. cbn [fst snd] in *.
    destruct (span_spec isspace rest) as (Hg1 & Hg2 & Hg3).
    destruct (span isspace rest) as [gap rest'] eqn:Eg. cbn [fst snd] in *.
    assert (Hfield : field <> []).
    { intros ->. simpl in Ef. simpl in Hs. unfold nonspace in Ef. rewrite Hs in Ef.
      simpl in Ef. destruct (span (fun c0 => negb (isspace c0)) s). discriminate. }
    assert (Hlen : length rest' <= n).
    { apply (f_equal (@length char)) in Hf1. rewrite Hg1, !length_app in Hf1.
      simpl in Hf1, Hn. destruct field; [contradiction|]. simpl in Hf1. lia. }
    destruct (IH rest' Hlen Hg3) as (IH1 & IH2).
    split.
    + cbn [map concat fst snd]. rewrite <- IH1, <- app_assoc, <- Hg1. exact Hf1.
    + cbn [spaced]. repeat split; try assumption.
      intros Hrest Hgap. subst gap. simpl in Hg1. subst rest'.
      destruct rest as [|c' rest]; [destruct n; now apply Hrest|].
      simpl in Hf3, Hg3. unfold nonspace in Hf3. rewrite Hg3 in Hf3. discriminate.
Qed.

Lemma stops_starts_with_digit (s : str) :
  starts_with_digit s = false -> stops isdecimal s.
Proof. intros H. destruct s as [|c s]; [exact I | exact H]. Qed.

Lemma stops_gap (g : str) : forallb isspace g = true -> stops isdecimal g.
Proof.
  intros H. destruct g as [|c g]; [exact I|]. simpl in *.
  apply andb_true_iff in H as [H _]. now apply space_not_decimal.
Qed.

(** A line a grammar matches and that is not the end-of-article marker
    is a line of a sentence. *)
Lemma match_word_not_marker (line : str) (groups : list str) :
  match_word line = Some groups ->
  line <> LINE_END_OF_ARTICLE ->
  in_sentence (Some line) = true.
Proof.
  intros Hw Hend. unfold in_sentence, equals. cbn [is_None negb andb].
  destruct (line == text "") eqn:E1.
  { apply eqb_eq in E1. subst. vm_compute in Hw. discriminate. }
  destruct (line == LINE_END_OF_ARTICLE) eqn:E2.
  { apply eqb_eq in E2. contradiction. }
  destruct (line == LINE_DOC_TAG_CLOSE) eqn:E3.
  { apply eqb_eq in E3. subst. vm_compute in Hw. discriminate. }
  reflexivity.
Qed.

Ltac spaced_runs H :=
  cbn [spaced] in H;
  repeat match type of H with
         | _ /\ _ => let H1 := fresh "Hsp" in destruct H as [H1 H]
         end.

(** A record by rules 2 to 4 without a digit in the place of its lemma
    is decoded into the token of the rules. *)
Lemma record_token_tokens_of (line : str) (tk : token) :
  record_token line = Some tk ->
  digit_in_lemma_place line = false ->
  line <> LINE_END_OF_ARTICLE ->
  tokens_of line = Some [tk].
Proof.
  intros Hrec Hdig Hend.
  assert (Hstops : stops isspace line).
  { unfold record_token in Hrec. destruct line as [|c line]; [exact I|].
    simpl. now destruct (isspace c). }
  assert (Hrec' : match spaced_fields (length line) line with
                  | [(w, _); (l, _); (t, _); (d, _)] =>
                      if forallb isdecimal d
                      then Some (VStr w, VStr l, VStr t, VStr d) else None
                  | [(w1, a); (w2, _); (l1, b); (l2, _); (t, _); (d, _)] =>
                      if forallb isdecimal d
                      then Some (VStr (w1 ++ a ++ w2), VStr (l1 ++ b ++ l2), VStr t, VStr d)
                      else None
                  | [(w1, a1); (w2, a2); (w3, _); (l1, b1); (l2, b2); (l3, _); (t, _);
                     (d, _)] =>
                      if forallb isdecimal d
                      then Some (VStr (w1 ++ a1 ++ w2 ++ a2 ++ w3),
                                 VStr (l1 ++ b1 ++ l2 ++ b2 ++ l3), VStr t, VStr d)
                      else None
                  | _ => None
                  end = Some tk).
  { unfold record_token in Hrec. destruct line as [|c line]; [discriminate|].
    now destruct (isspace c). }
  clear Hrec. unfold digit_in_lemma_place in Hdig.
  destruct (spaced_fields_spec (length line) line (le_n _) Hstops) as (Hcat & Hsp).
  destruct (spaced_fields (length line) line)
    as [|[f1 g1] [|[f2 g2] [|[f3 g3] [|[f4 g4] [|[f5 g5] [|[f6 g6]
        [|[f7 g7] [|[f8 g8] [|? ?]]]]]]]]];
    try discriminate.
  - destruct (forallb isdecimal f4) eqn:Hd; [|discriminate]. injection Hrec' as <-.
    cbn [map concat fst snd] in Hcat. rewrite <- !app_assoc, app_nil_r in Hcat.
    spaced_runs Hsp.
    assert (Hm : match_word line = Some [f1; f2; f3; f4]).
    { unfold match_word. rewrite Hcat.
      rewrite (PATTERN_WORD_prefix f1 f2 f3 f4 g1 g2 g3 g4); try assumption;
        try (split; [|assumption]); try (now apply stops_gap);
        first [ match goal with H : _ -> ?g <> [] |- ?g <> [] => apply H; discriminate end
              | match goal with H : run_of nonspace ?f |- ?f <> [] => apply H end
              | reflexivity ]. }
    apply tokens_of_match_word; [assumption|].
    now apply match_word_not_marker with (groups := [f1; f2; f3; f4]).
  - destruct (forallb isdecimal f6) eqn:Hd; [|discriminate]. injection Hrec' as <-.
    cbn [map concat fst snd] in Hcat. rewrite <- !app_assoc, app_nil_r in Hcat.
    cbn [map fst] in Hdig. apply stops_starts_with_digit in Hdig.
    spaced_runs Hsp.
    assert (Hm : match_word line = Some [f1 ++ g1 ++ f2; f3 ++ g3 ++ f4; f5; f6]).
    { unfold match_word. rewrite Hcat.
      rewrite (PATTERN_WORD_two_words f1 f2 f3 f4 g1 g2 g3 (g4 ++ f5 ++ g5 ++ f6 ++ g6));
        try assumption;
        try (split; [match goal with H : _ -> ?g <> [] |- ?g <> [] => apply H; discriminate end
                    |assumption]).
      rewrite (PATTERN_WORD_DOUBLE_groups f1 f2 f3 f4 f5 f6 g1 g2 g3 g4 g5 g6);
        try assumption; try (now apply stops_gap);
        try (split; [|assumption]);
        first [ match goal with H : _ -> ?g <> [] |- ?g <> [] => apply H; discriminate end
              | match goal with H : run_of nonspace ?f |- ?f <> [] => apply H end
              | reflexivity ]. }
    apply tokens_of_match_word; [assumption|].
    now apply match_word_not_marker
      with (groups := [f1 ++ g1 ++ f2; f3 ++ g3 ++ f4; f5; f6]).
  - destruct (forallb isdecimal f8) eqn:Hd; [|discriminate]. injection Hrec' as <-.
    cbn [map concat fst snd] in Hcat. rewrite <- !app_assoc, app_nil_r in Hcat.
    cbn [map fst] in Hdig. apply orb_false_iff in Hdig as [Hdig4 Hdig6].
    apply stops_starts_with_digit in Hdig4, Hdig6.
    spaced_runs Hsp.
    assert (Hm : match_word line
                 = Some [f1 ++ g1 ++ f2 ++ g2 ++ f3; f4 ++ g4 ++ f5 ++ g5 ++ f6; f7; f8]).
    { unfold match_word. rewrite Hcat.
      rewrite (PATTERN_WORD_two_words f1 f2 f3 f4 g1 g2 g3
                 (g4 ++ f5 ++ g5 ++ f6 ++ g6 ++ f7 ++ g7 ++ f8 ++ g8));
        try assumption;
        try (split; [match goal with H : _ -> ?g <> [] |- ?g <> [] => apply H; discriminate end
                    |assumption]).
      rewrite (PATTERN_WORD_DOUBLE_three_words f1 f2 f3 f4 f5 f6 g1 g2 g3 g4 g5
                 (g6 ++ f7 ++ g7 ++ f8 ++ g8));
        try assumption;
        try (split; [match goal with H : _ -> ?g <> [] |- ?g <> [] => apply H; discriminate end
                    |assumption]).
      rewrite (PATTERN_WORD_TRIPLE_groups f1 f2 f3 f4 f5 f6 f7 f8 g1 g2 g3 g4 g5 g6 g7 g8);
        try assumption; try (now apply stops_gap);
        try (split; [|assumption]);
        first [ match goal with H : _ -> ?g <> [] |- ?g <> [] => apply H; discriminate end
              | match goal with H : run_of nonspace ?f |- ?f <> [] => apply H end
              | reflexivity ]. }
    apply tokens_of_match_word; [assumption|].
    now apply match_word_not_marker
      with (groups := [f1 ++ g1 ++ f2 ++ g2 ++ f3; f4 ++ g4 ++ f5 ++ g5 ++ f6; f7; f8]).
Qed.

(** On a token line the inner loop appends the tokens of the rules. *)
Lemma tokens_of_token_line (l : str) :
  token_line l = true -> tokens_of l = tokens_as_specified l.
Proof.
  unfold token_line. intros H.
  apply andb_true_iff in H as [H Hsome]. apply andb_true_iff in H as [H Hdig].
  apply andb_true_iff in H as [HFz Hend].
  apply negb_true_iff in HFz, Hend, Hdig. apply eqb_neq in Hend.
  unfold tokens_as_specified in *. rewrite HFz in *.
  destruct (record_token l) as [tk|] eqn:Erec.
  - now apply record_token_tokens_of.
  - destruct (l == FAILING_LINE) eqn:E1.
    { apply eqb_eq in E1. subst l. apply tokens_of_FAILING_LINE. }
    destruct (l == FAILING_LINE_2) eqn:E2.
    { apply eqb_eq in E2. subst l. apply tokens_of_FAILING_LINE_2. }
    discriminate.
Qed.

Lemma sentence_of_as_specified (ls : list str) :
  forallb token_line ls = true ->
  sentence_of ls = Some (sentence_as_specified ls).
Proof.
  induction ls as [|l ls IH]; intros H; [reflexivity|].
  simpl in H. apply andb_true_iff in H as [Hl Hls].
  cbn [sentence_of]. rewrite (tokens_of_token_line l Hl), (IH Hls).
  unfold sentence_as_specified. cbn [flat_map].
  unfold token_line in Hl. apply andb_true_iff in Hl as [_ Hsome].
  now destruct (tokens_as_specified l).
Qed.

Lemma sentences_of_as_specified (blocks : list (list str)) :
  forallb (forallb token_line) blocks = true ->
  sentences_of blocks = Some (sentences_as_specified blocks).
Proof.
  induction blocks as [|b blocks IH]; intros H; [reflexivity|].
  simpl in H. apply andb_true_iff in H as [Hb Hblocks].
  cbn [sentences_of]. now rewrite (sentence_of_as_specified b Hb), (IH Hblocks).
Qed.

(** C2, as the code has it: a start marker, sentence blocks of token
    lines, the end-of-article marker, the footer line, a blank line and
    the closing marker make [read_block] return exactly one Document,
    with the three fields captured from the start marker and, in order,
    one sentence per block holding the tokens of its lines as the rules
    of the specification give them.  A blank line closes each block; the
    last block may do without.  The token lines are the lines with
    tokens by rules 2 to 5, the end-of-article marker apart, that have
    no digit at the start of their fourth field when they have six or
    eight fields, nor at the start of their sixth when they have eight:
    the grammars are tried in order and match a prefix of the line, so
    the grammar for fewer fields takes such a record.  The line [Fz 0]
    is left out as well: its sense is the integer [0]. *)
Theorem read_block_well_formed (start i t d : str) (blocks : list (list str))
    (last : list str) (xs : list str) (rest : stream) (fuel : nat) :
  re_match PATTERN_DOC_START start = Some [i; t; d] ->
  forallb (forallb token_line) blocks = true ->
  forallb token_line last = true ->
  map normalized xs = start :: body_lines blocks ++ last ++ footer_lines ->
  length xs < fuel ->
  read_block fuel (xs ++ rest)
  = Returns [mkDocument i t d
               (sentences_as_specified blocks
                ++ last_sentence last (sentence_as_specified last))] rest.
Proof.
  intros Hm Hblocks Hlast Hxs Hf.
  apply (read_block_footer start i t d blocks (sentences_as_specified blocks) Hm
           (sentences_of_as_specified blocks Hblocks)
           last (sentence_as_specified last) xs rest fuel).
  - now apply sentence_of_as_specified.
  - exact Hxs.
  - exact Hf.
Qed.

(** The end-to-end example, and the same document without the blank
    line in front of the end-of-article marker. *)
Lemma read_block_end_to_end :
  read_block 9 example_lines = Returns [example_document] []
  /\ read_block 8 ([example_start; text "Hello hello NN 0"; text "world world NN 0"]
                   ++ footer_lines)
     = Returns [example_document] [].
Proof.
  split.
  - apply (read_block_well_formed example_start (text "1") (text "X") (text "5")
             [[text "Hello hello NN 0"; text "world world NN 0"]] []
             example_lines [] 9); vm_compute; reflexivity.
  - apply (read_block_well_formed example_start (text "1") (text "X") (text "5")
             [] [text "Hello hello NN 0"; text "world world NN 0"]
             ([example_start; text "Hello hello NN 0"; text "world world NN 0"]
              ++ footer_lines) [] 8); vm_compute; reflexivity.
Defined.

(** The claim that the sentences hold the tokens of the token lines
    fails on a record with a word and a lemma of two fields whose fourth
    field starts with a digit: by the rules its token has the word
    [Boeing 747] and the lemma [boeing 747], and [read_block] returns
    the token that the grammar for single words makes of the first four
    fields. *)
Lemma digit_in_lemma_place_is_taken_for_sense :
  tokens_as_specified (text "Boeing 747 boeing 747 NP 0")
  = Some [tok "Boeing 747" "boeing 747" "NP" "0"]
  /\ read_block 8 with_digit_in_lemma
     = Returns [mkDocument (text "1") (text "X") (text "5")
                  [[tok "Boeing" "747" "boeing" "747"]]] []
  /\ read_block 8 with_digit_in_lemma
     <> Returns [mkDocument (text "1") (text "X") (text "5")
                   [[tok "Boeing 747" "boeing 747" "NP" "0"]]] [].
Proof.
  split; [vm_compute; reflexivity|].
  split; [vm_compute; reflexivity | vm_compute; discriminate].
Qed.

(** ** Empty sentences *)

(** Lines of a sentence are not blank: behind a run of them no line is
    where a sentence would begin. *)
Lemma no_blank_start_run (b : bool) (q r : list str) :
  forallb (fun l => in_sentence (Some l)) q = true ->
  no_blank_start b (q ++ r)
  = match q with
    | [] => no_blank_start b r
    | _ :: _ => no_blank_start false r
    end.
Proof.
  revert b; induction q as [|l q IH]; intros b Hq; [reflexivity|].
  simpl in Hq. apply andb_true_iff in Hq as [Hl Hq].
  cbn [app no_blank_start]. rewrite (in_sentence_not_blank l Hl), (IH false Hq).
  now destruct q.
Qed.

(** A line that is not blank, and lines after it with no blank line
    where a sentence would begin, change nothing. *)
Lemma no_blank_start_behind (b : bool) (q : list str) (l : str) (r : list str) :
  (l == text "") = false -> no_blank_start false r = true ->
  no_blank_start b (q ++ l :: r) = no_blank_start b q.
Proof.
  intros Hl Hr. revert b; induction q as [|x q IH]; intros b.
  - cbn [app no_blank_start]. now rewrite Hl.
  - cbn [app no_blank_start]. now rewrite !IH.
Qed.

(** The lines the inner loop has dealt with when it hands back: they
    are lines of a sentence, and the sentence has tokens as soon as
    there is one of them. *)
Lemma sentence_loop_consumed (fuel : nat) :
  forall (line : option str) (sent : list token) (s : stream)
         (line' : option str) (sent' : list token) (s' : stream),
    sentence_loop fuel line sent s = Returns (line', sent') s' ->
    exists q : list str,
      ahead line s = q ++ ahead line' s'
      /\ forallb (fun l => in_sentence (Some l)) q = true
      /\ (q = [] -> line' = line /\ sent' = sent)
      /\ (q <> [] -> sent' <> []).
Proof.
  induction fuel as [|fuel IH]; intros line sent s line' sent' s' H; [discriminate|].
  destruct (in_sentence line) eqn:Hin.
  2:{ rewrite sentence_loop_stop in H by assumption. injection H as <- <- <-.
      exists []. repeat split; try reflexivity. intros Hq. now contradiction Hq. }
  destruct line as [l|]; [|discriminate].
  destruct (sentence_loop_turn fuel l sent s Hin)
    as [(Hu & -> & E)|[(-> & E)|[(e & E)|(more & line1 & s1 & Hr & Hmore & _ & E)]]];
    rewrite E in H.
  - injection H as <- <- <-.
    exists []. repeat split; try reflexivity. intros Hq. now contradiction Hq.
  - injection H as <- <- <-.
    exists []. repeat split; try reflexivity. intros Hq. now contradiction Hq.
  - discriminate.
  - destruct (IH line1 _ s1 line' sent' s' H) as (q & Hq & Hall & Hnil & Hcons).
    destruct (read_clean_line_ahead s) as (line2 & s2 & Hr2 & Ha).
    rewrite Hr in Hr2. injection Hr2 as <- <-.
    exists (l :: q). split; [|split; [|split]].
    + cbn [ahead app]. now rewrite <- Ha, Hq.
    + cbn [forallb]. now rewrite Hin, Hall.
    + discriminate.
    + intros _. destruct q as [|l' q].
      * destruct (Hnil eq_refl) as [_ ->]. intros Happ.
        apply app_eq_nil in Happ as [_ Happ]. contradiction.
      * apply Hcons. discriminate.
Qed.

Lemma Forall_nonempty_snoc (ds : list (list token)) (sent : list token) :
  Forall (fun sent => sent <> []) (ds ++ [sent])
  <-> Forall (fun sent => sent <> []) ds /\ sent <> [].
Proof.
  rewrite Forall_app. split.
  - intros [Hds Hsent]. split; [assumption|]. now inversion Hsent.
  - intros [Hds Hsent]. split; [assumption|]. now constructor.
Qed.

(** The lines the outer loop has dealt with when it hands back: its
    sentences have tokens exactly when none of these lines is a blank
    line at the place where a sentence would begin. *)
Lemma document_loop_consumed (fuel : nat) :
  forall (line : option str) (doc_sents : list (list token)) (s : stream)
         (line' : option str) (doc_sents' : list (list token)) (s' : stream),
    document_loop fuel line doc_sents s = Returns (line', doc_sents') s' ->
    exists q : list str,
      ahead line s = q ++ ahead line' s'
      /\ (Forall (fun sent => sent <> []) doc_sents'
          <-> Forall (fun sent => sent <> []) doc_sents
              /\ no_blank_start true q = true)
      /\ (in_body line' = false \/ line' = Some FAILING_LINE_3).
Proof.
  induction fuel as [|fuel IH]; intros line doc_sents s line' doc_sents' s' H;
    [discriminate|].
  rewrite document_loop_S in H.
  destruct (in_body line) eqn:Hbody.
  2:{ injection H as <- <- <-. exists []. split; [reflexivity|].
      split; [|now left]. split; [intros Hds; now split|now intros [Hds _]]. }
  unfold bind in H.
  destruct (sentence_loop fuel line [] s) as [[line1 sent1] s1| |] eqn:E;
    try discriminate.
  destruct (sentence_loop_consumed fuel line [] s line1 sent1 s1 E)
    as (q1 & Hq1 & Hall1 & Hnil1 & Hcons1).
  destruct (sentence_loop_returns fuel line [] s line1 sent1 s1 E) as (_ & _ & Hhow).
  assert (Hrun : no_blank_start true q1 = true).
  { rewrite <- (app_nil_r q1), (no_blank_start_run true q1 [] Hall1). now destruct q1. }
  destruct Hhow as [->|[(l & -> & Hin & Hu & ->)|Hstop]].
  - unfold sentence_done in H. rewrite equals_refl in H. injection H as <- <- <-.
    exists q1. split; [assumption|]. split; [|now right].
    split; [intros Hds; now split|now intros [Hds _]].
  - rewrite (sentence_done_unparsable fuel doc_sents l sent1 [] Hin Hu) in H.
    rewrite (document_loop_stuck l Hin Hu) in H. discriminate.
  - assert (Hstay : line1 <> Some (text "") ->
                    document_loop fuel line1 (doc_sents ++ [sent1]) s1
                    = Returns (line', doc_sents') s' ->
                    in_body line1 = false ->
                    exists q : list str,
                      ahead line s = q ++ ahead line' s'
                      /\ (Forall (fun sent => sent <> []) doc_sents'
                          <-> Forall (fun sent => sent <> []) doc_sents
                              /\ no_blank_start true q = true)
                      /\ (in_body line' = false \/ line' = Some FAILING_LINE_3)).
    { intros _ Hloop Hout.
      assert (Hq1ne : q1 <> []).
      { intros Hq. destruct (Hnil1 Hq) as [Hline _]. subst line1. congruence. }
      assert (Hret : Returns (line1, doc_sents ++ [sent1]) s1
                     = Returns (line', doc_sents') s').
      { destruct fuel as [|f]; [discriminate|].
        now rewrite document_loop_stop in Hloop by assumption. }
      injection Hret as <- <- <-.
      exists q1. split; [assumption|]. split; [|now left].
      rewrite Forall_nonempty_snoc. split.
      - intros [Hds _]. now split.
      - intros [Hds _]. split; [assumption|]. now apply Hcons1. }
    unfold sentence_done in H.
    destruct (in_sentence_stop line1 Hstop) as [-> | [-> | [-> | ->]]].
    + cbn [equals is_None] in H. cbv iota zeta in H.
      assert (Hq1ne : q1 <> []).
      { intros Hq. destruct (Hnil1 Hq) as [Hline _]. subst line. discriminate. }
      injection H as <- <- <-.
      exists q1. split; [assumption|]. split; [|now left].
      rewrite Forall_nonempty_snoc. split.
      * intros [Hds _]. now split.
      * intros [Hds _]. split; [assumption|]. now apply Hcons1.
    + change (equals (Some (text "")) FAILING_LINE_3) with false in H.
      cbv iota zeta in H. rewrite equals_refl in H. unfold bind in H.
      destruct (read_clean_line_ahead s1) as (line2 & s2 & Hr & Ha).
      rewrite Hr in H.
      destruct (IH line2 _ s2 line' doc_sents' s' H) as (q2 & Hq2 & Hiff & Hexit).
      exists (q1 ++ text "" :: q2). split; [|split; [|assumption]].
      * rewrite Hq1. cbn [ahead]. rewrite <- Ha, Hq2, <- app_assoc. reflexivity.
      * rewrite Hiff, Forall_nonempty_snoc, (no_blank_start_run true q1 _ Hall1).
        destruct q1 as [|l1 q1].
        -- destruct (Hnil1 eq_refl) as [_ ->]. cbn [no_blank_start]. rewrite eqb_refl.
           simpl. split; [intros [[_ Hne] _]; now contradiction Hne|].
           intros [_ Hf]. discriminate.
        -- cbn [no_blank_start]. rewrite eqb_refl. simpl.
           assert (Hne : sent1 <> []) by (apply Hcons1; discriminate).
           split; [intros [[Hds _] Hb]; now split|].
           intros [Hds Hb]. now repeat split.
    + apply Hstay; [discriminate | exact H | reflexivity].
    + apply Hstay; [discriminate | exact H | reflexivity].
Qed.

(** C5, as the code has it: a blank line where a sentence would begin,
    right after the start marker or right after another blank line, is
    appended as an empty sentence.  Whenever [read_block] returns, the
    sentences of its Documents all have tokens exactly when no blank
    line stands in such a place among the lines the call has read after
    the first one; the lines it has left in the stream, as those after
    the skip literal, play no part. *)
Theorem read_block_sentences_nonempty
    (x0 : str) (p s' : stream) (fuel : nat) (docs : list Document) :
  read_block fuel (x0 :: p ++ s') = Returns docs s' ->
  no_blank_start true (map normalized p) = true
  <-> Forall (fun doc => Forall (fun sent => sent <> []) (sents doc)) docs.
Proof.
  intros H.
  destruct (re_match PATTERN_DOC_START (normalized x0))
    as [[|i [|t [|d [|? ?]]]]|] eqn:Hm;
    try (unfold read_block in H; rewrite read_then, Hm in H; discriminate).
  - rewrite (read_block_start (normalized x0) i t d Hm fuel x0 _ eq_refl) in H.
    unfold bind in H.
    destruct (read_clean_line_ahead (p ++ s')) as (line & s1 & Hr & Ha).
    rewrite Hr in H.
    destruct (document_loop fuel line [] s1) as [[line2 ss] s2| |] eqn:E;
      try discriminate.
    destruct (document_loop_consumed fuel line [] s1 line2 ss s2 E)
      as (q & Hq & Hiff & Hexit).
    destruct (document_loop_returns fuel line [] s1 line2 ss s2 E) as (Hread & _).
    rewrite Ha, map_app in Hq.
    assert (Hp : no_blank_start true (map normalized p) = no_blank_start true q
                 /\ docs = [mkDocument i t d ss]).
    { destruct line2 as [l2|].
      - destruct (l2 == LINE_END_OF_ARTICLE) eqn:Eend.
        + apply eqb_eq in Eend. subst l2. rewrite document_done_checks in H.
          destruct s2 as [|x2 [|x3 [|x4 s3]]];
            try (destruct (normalized x2 == text ". . Fp 0"); try discriminate;
                 destruct (normalized x3 == text ""); discriminate);
            try discriminate.
          destruct (normalized x2 == text ". . Fp 0") eqn:E2; [|discriminate].
          destruct (normalized x3 == text "") eqn:E3; [|discriminate].
          destruct (normalized x4 == LINE_DOC_TAG_CLOSE) eqn:E4; [|discriminate].
          apply eqb_eq in E2, E3, E4. injection H as <- <-.
          cbn [ahead map] in Hq. rewrite E2, E3, E4 in Hq.
          change (q ++ LINE_END_OF_ARTICLE :: text ". . Fp 0" :: text ""
                    :: LINE_DOC_TAG_CLOSE :: map normalized s3)
            with (q ++ [LINE_END_OF_ARTICLE; text ". . Fp 0"; text "";
                        LINE_DOC_TAG_CLOSE] ++ map normalized s3) in Hq.
          rewrite app_assoc in Hq. apply app_inv_tail in Hq. rewrite Hq.
          split; [|reflexivity].
          now apply no_blank_start_behind.
        + unfold document_done, equals in H. rewrite Eend in H.
          unfold bind, ret in H. injection H as <- <-.
          cbn [ahead] in Hq.
          change (q ++ l2 :: map normalized s2)
            with (q ++ [l2] ++ map normalized s2) in Hq.
          rewrite app_assoc in Hq. apply app_inv_tail in Hq. rewrite Hq.
          split; [|reflexivity].
          apply no_blank_start_behind; [|reflexivity].
          destruct Hexit as [Hout|Hskip].
          * unfold in_body, equals in Hout. cbn [is_None negb andb] in Hout.
            rewrite Eend in Hout. cbn [negb andb] in Hout.
            apply negb_false_iff, eqb_eq in Hout. now subst l2.
          * injection Hskip as ->. reflexivity.
      - unfold document_done in H. cbn [equals] in H.
        unfold bind, ret in H. injection H as <- <-.
        assert (Hend : s2 = []).
        { destruct Hread as [[Hline Hs]|[_ [(p0 & x & _ & Hx)|[_ Hs]]]];
            [|discriminate|assumption].
          subst line s2. destruct (p ++ s1) as [|x r] eqn:Eps.
          - rewrite read_clean_line_nil in Hr. now injection Hr as <-.
          - rewrite read_clean_line_cons in Hr. discriminate. }
        subst s2. cbn [ahead map] in Hq. rewrite !app_nil_r in Hq.
        now rewrite Hq. }
    destruct Hp as [Hp ->]. rewrite Hp. split.
    + intros Hb. constructor; [|constructor]. apply Hiff. now split.
    + intros Hall. inversion Hall as [|? ? Hss _]; subst. now apply Hiff in Hss.
  - unfold read_block in H. rewrite read_then, Hm in H.
    destruct (normalized x0 == text ""); [|discriminate].
    destruct (p ++ s') as [|x2 s2] eqn:Eps; [discriminate|].
    rewrite read_then in H. unfold assert, equals in H.
    destruct (normalized x2 == LINE_DOC_TAG_CLOSE) eqn:Hclose; [|discriminate].
    apply eqb_eq in Hclose. injection H as <- <-.
    change (x2 :: s2) with ([x2] ++ s2) in Eps. apply app_inv_tail in Eps. subst p.
    cbn [map]. rewrite Hclose. split; [constructor|reflexivity].
Qed.

Lemma read_block_sentences_nonempty_example :
  no_blank_start true (map normalized (tl example_lines)) = true
  <-> Forall (fun doc => Forall (fun sent => sent <> []) (sents doc)) [example_document].
Proof.
  apply (read_block_sentences_nonempty example_start (tl example_lines)
           [text ""; text ""] 9 [example_document]).
  vm_compute; reflexivity.
Defined.

(** The claim that no sentence of a Document is empty fails on a blank
    line right after the start marker and on a second blank line in a
    row: each becomes an empty sentence. *)
Lemma blank_line_is_an_empty_sentence :
  read_block 5 with_blank_lines
  = Returns [mkDocument (text "1") (text "X") (text "5")
               [[]; [tok "Hello" "hello" "NN" "0"]; []]] []
  /\ In [] (sents (mkDocument (text "1") (text "X") (text "5")
                     [[]; [tok "Hello" "hello" "NN" "0"]; []])).
Proof. split; [vm_compute; reflexivity | now left]. Qed.

(** ** The start marker as it stands in the stream *)

Lemma replace_app (a b : str) :
  replace (a ++ b) (chr 160) (text " ")
  = replace a (chr 160) (text " ") ++ replace b (chr 160) (text " ").
Proof. unfold replace. apply flat_map_app. Qed.

(** Text without a non-breaking space is left as it is. *)
Lemma replace_free (s : str) :
  forallb (fun c => negb (c =? 160)%N) s = true ->
  replace s (chr 160) (text " ") = s.
Proof.
  intros H. rewrite replace_map. rewrite <- (map_id s) at 2.
  apply map_ext_in. intros c Hc. rewrite forallb_forall in H.
  specialize (H c Hc). apply negb_true_iff in H. now rewrite H.
Qed.

Lemma replace_digits (ds : str) :
  forallb isdecimal ds = true -> replace ds (chr 160) (text " ") = ds.
Proof.
  intros H. apply replace_free. rewrite forallb_forall in *.
  intros c Hc. specialize (H c Hc). apply negb_true_iff.
  destruct (N.eqb_spec c 160) as [->|_]; [|reflexivity].
  vm_compute in H. discriminate.
Qed.

Lemma replace_dot (s : str) :
  forallb dot s = true -> forallb dot (replace s (chr 160) (text " ")) = true.
Proof.
  intros H. rewrite replace_map, forallb_forall in *.
  intros c Hc. apply in_map_iff in Hc as (c0 & <- & Hc0).
  destruct (c0 =? 160)%N; [reflexivity|now apply H].
Qed.

(** A start marker in the stream is read as the marker with the
    non-breaking spaces of its title replaced: it neither starts nor
    ends with whitespace, and digits and the text of the marker hold no
    non-breaking space. *)
Lemma normalized_doc_start (id_ title_ nonfiltered processed dbindex : str) :
  forallb isdecimal id_ = true -> forallb isdecimal nonfiltered = true ->
  forallb isdecimal processed = true -> forallb isdecimal dbindex = true ->
  normalized (doc_start id_ title_ nonfiltered processed dbindex)
  = doc_start id_ (replace title_ (chr 160) (text " ")) nonfiltered processed dbindex.
Proof.
  intros Hid Hnf Hp Hdb. unfold normalized.
  rewrite strip_trimmed.
  - unfold doc_start. rewrite !replace_app.
    rewrite (replace_digits id_ Hid), (replace_digits nonfiltered Hnf),
      (replace_digits processed Hp), (replace_digits dbindex Hdb).
    reflexivity.
  - split.
    + reflexivity.
    + unfold doc_start. rewrite !app_assoc, rev_app_distr. reflexivity.
Qed.

(** X3: a stream line that is a start marker
    [<doc id=".." title=".." nonfiltered=".." processed=".." dbindex="..">]
    gives a Document with the marker's id and dbindex and with its
    title, whatever the title holds short of a newline: quotes and text
    that looks like an attribute are part of the title, and each
    non-breaking space of it has become an ordinary space. *)
Theorem read_block_fields (id_ title_ nonfiltered processed dbindex : str)
    (s s' : stream) (docs : list Document) (fuel : nat) :
  run_of isdecimal id_ -> forallb dot title_ = true ->
  run_of isdecimal nonfiltered -> run_of isdecimal processed ->
  run_of isdecimal dbindex ->
  read_block fuel (doc_start id_ title_ nonfiltered processed dbindex :: s)
  = Returns docs s' ->
  exists ss : list (list token),
    docs = [mkDocument id_ (replace title_ (chr 160) (text " ")) dbindex ss].
Proof.
  intros Hid Hti Hnf Hp Hdb H.
  pose proof (normalized_doc_start id_ title_ nonfiltered processed dbindex
                (proj2 Hid) (proj2 Hnf) (proj2 Hp) (proj2 Hdb)) as Hx.
  pose proof (PATTERN_DOC_START_groups id_ (replace title_ (chr 160) (text " "))
                nonfiltered processed dbindex
                Hid (replace_dot title_ Hti) Hnf Hp Hdb) as Hm.
  destruct (read_block_returns fuel _ docs s' H)
    as (x' & p & Hs & [(-> & Hblank & _)|(i & t & d & ss & -> & Hm' & _)]);
    injection Hs as <- _.
  - rewrite Hx in Hblank. rewrite Hblank in Hm. vm_compute in Hm. discriminate.
  - rewrite Hx, Hm in Hm'. injection Hm' as <- <- <-. now exists ss.
Qed.

Lemma read_block_fields_example :
  (exists ss : list (list token),
      [mkDocument (text "1") quoted_title (text "5") []]
      = [mkDocument (text "1") (replace quoted_title (chr 160) (text " ")) (text "5") ss])
  /\ (exists ss : list (list token),
         [mkDocument (text "1")
            (text "The " ++ dquote ++ text "X" ++ dquote ++ text " files") (text "5") []]
         = [mkDocument (text "1") (replace title_with_nbsp (chr 160) (text " "))
              (text "5") ss]).
Proof.
  split.
  - apply (read_block_fields (text "1") quoted_title (text "0") (text "1") (text "5")
             [LINE_DOC_TAG_CLOSE] []
             [mkDocument (text "1") quoted_title (text "5") []] 3);
      try (split; [discriminate | reflexivity]);
      vm_compute; reflexivity.
  - apply (read_block_fields (text "1") title_with_nbsp (text "0") (text "1") (text "5")
             [LINE_DOC_TAG_CLOSE] []
             [mkDocument (text "1")
                (text "The " ++ dquote ++ text "X" ++ dquote ++ text " files")
                (text "5") []] 3);
      try (split; [discriminate | reflexivity]);
      vm_compute; reflexivity.
Defined.
